(** * tokenline: a byte-streamed command line editor with a grammar-driven
    tokenizer (src/tokenline.c).

    The development is a shallow embedding of tokenline.c.  The engine
    aggregate [t_tokenline] is a record that is threaded through every
    function; [char] arrays are lists of bytes ([Z] in [0, 255]) that are read
    and written by index; the print sink and the parse callback are modelled
    by the logs [printed] and [called] that record every invocation in order.
    Loops of the C code that need not terminate (the scans over the history
    ring) take fuel and return [None] when the C loop would run forever. *)

From Stdlib Require Import ZArith List Lia Bool String Ascii.
From stdpp Require Import base list.
Import ListNotations.
Local Open Scope Z_scope.

(** ** Memory: byte arrays indexed by [int] *)

(** A read outside the array yields 0 and a write outside the array is
    dropped: the C program has undefined behaviour there, and every theorem
    that depends on such an access says so. *)
Definition load (m : list Z) (i : Z) : Z :=
  if i <? 0 then 0 else default 0 (m !! Z.to_nat i).

Definition store (m : list Z) (i v : Z) : list Z :=
  if i <? 0 then m else <[Z.to_nat i := v]> m.

(** The bytes [m[off], ..., m[off+n-1]]. *)
Definition bytes_at (m : list Z) (off n : Z) : list Z :=
  map (fun k => load m (off + Z.of_nat k)) (seq 0 (Z.to_nat n)).

(** [memcpy (dst + off, src, |src|)]; [memmove] is [memcpy] of bytes that were
    read beforehand with [bytes_at]. *)
Fixpoint memcpy (dst : list Z) (off : Z) (src : list Z) : list Z :=
  match src with
  | [] => dst
  | c :: r => memcpy (store dst off c) (off + 1) r
  end.

(** The C string that starts at the head of [m]: the bytes before the first
    NUL (or before the end of the array). *)
Fixpoint cstr (m : list Z) : list Z :=
  match m with
  | [] => []
  | c :: r => if c =? 0 then [] else c :: cstr r
  end.

(** The C string at [m + off]. *)
Definition cstr_at (m : list Z) (off : Z) : list Z :=
  if off <? 0 then [] else cstr (drop (Z.to_nat off) m).

Definition strlen (s : list Z) : Z := Z.of_nat (length s).

(** [strcmp] and [strncmp] of the C library, on strings without their NUL. *)
Fixpoint strcmp (a b : list Z) : Z :=
  match a, b with
  | [], [] => 0
  | [], y :: _ => - y
  | x :: _, [] => x
  | x :: a', y :: b' => if x =? y then strcmp a' b' else x - y
  end.

Fixpoint strncmp (a b : list Z) (n : nat) : Z :=
  match n with
  | O => 0
  | S n' =>
      match a, b with
      | [], [] => 0
      | [], y :: _ => - y
      | x :: _, [] => x
      | x :: a', y :: b' => if x =? y then strncmp a' b' n' else x - y
      end
  end.

(** String literals of the source as byte lists. *)
Definition str (s : string) : list Z :=
  map (fun a => Z.of_N (N_of_ascii a)) (list_ascii_of_string s).

Definition NL : list Z := [10].
Definition INDENT : list Z := str "   ".
Definition NO_HELP : list Z := str "No help available." ++ NL.
Definition CUR_RIGHT : list Z := [27; 91; 67].   (* "\x1b\x5b\x43" *)
Definition CUR_LEFT : list Z := [27; 91; 68].    (* "\x1b\x5b\x44" *)

Definition TRUE : Z := 1.
Definition FALSE : Z := 0.

(** ** Declarations of tokenline.h *)

(** Modelled from the spec: the limits and the argument-type tags are
    declared in tokenline.h, which is not part of the sources; they are
    parameters of the development.  [sizeof_int] bytes of an [int] are laid
    out by [int_bytes] below. *)
Record t_header := mk_header {
  TL_MAX_LINE_LEN : Z;
  TL_MAX_ESCAPE_LEN : Z;
  TL_MAX_WORDS : Z;
  TL_MAX_HISTORY_SIZE : Z;
  TARG_INT : Z;
  TARG_FLOAT : Z;
  TARG_STRING : Z;
  TARG_TOKEN : Z;
  TARG_HELP : Z
}.

(** [t_token]: a grammar entry; [subtokens] and [help] may be NULL.  A token
    list is an array closed by an entry whose [token] is 0; the loops below
    stop at that entry or at the end of the Rocq list. *)
#[local] Unset Elimination Schemes.
Inductive t_token : Type := mk_token {
  token : Z;
  arg_type : Z;
  subtokens : option (list t_token);
  help : option (list Z)
}.
#[local] Set Elimination Schemes.

Record t_token_dict := mk_dict {
  dict_token : Z;
  tokenstr : list Z
}.

(** [t_tokenline_parsed]; the field [buf] of the C struct is [p_buf]. *)
Record t_tokenline_parsed := mk_parsed {
  tokens : list Z;
  p_buf : list Z;
  last_token_entry : option t_token
}.

(** [t_tokenline].  [print]/[user] are modelled by [printed], the list of the
    strings handed to the sink, oldest first; [callback] says whether a
    callback is registered and [called] lists the parsed results it was
    invoked with. *)
Record t_tokenline := mk_tl {
  token_levels : list (list t_token);
  token_level : Z;
  token_dict : list t_token_dict;
  prompt : list Z;
  buf : list Z;
  buf_len : Z;
  escape : list Z;
  escape_len : Z;
  pos : Z;
  hist_buf : list Z;
  hist_begin : Z;
  hist_end : Z;
  hist_step : Z;
  callback : bool;
  parsed : t_tokenline_parsed;
  printed : list (list Z);
  called : list t_tokenline_parsed
}.

Definition set_prompt v tl := mk_tl (token_levels tl) (token_level tl) (token_dict tl) v (buf tl) (buf_len tl) (escape tl) (escape_len tl) (pos tl) (hist_buf tl) (hist_begin tl) (hist_end tl) (hist_step tl) (callback tl) (parsed tl) (printed tl) (called tl).
Definition set_buf v tl := mk_tl (token_levels tl) (token_level tl) (token_dict tl) (prompt tl) v (buf_len tl) (escape tl) (escape_len tl) (pos tl) (hist_buf tl) (hist_begin tl) (hist_end tl) (hist_step tl) (callback tl) (parsed tl) (printed tl) (called tl).
Definition set_buf_len v tl := mk_tl (token_levels tl) (token_level tl) (token_dict tl) (prompt tl) (buf tl) v (escape tl) (escape_len tl) (pos tl) (hist_buf tl) (hist_begin tl) (hist_end tl) (hist_step tl) (callback tl) (parsed tl) (printed tl) (called tl).
Definition set_escape v tl := mk_tl (token_levels tl) (token_level tl) (token_dict tl) (prompt tl) (buf tl) (buf_len tl) v (escape_len tl) (pos tl) (hist_buf tl) (hist_begin tl) (hist_end tl) (hist_step tl) (callback tl) (parsed tl) (printed tl) (called tl).
Definition set_escape_len v tl := mk_tl (token_levels tl) (token_level tl) (token_dict tl) (prompt tl) (buf tl) (buf_len tl) (escape tl) v (pos tl) (hist_buf tl) (hist_begin tl) (hist_end tl) (hist_step tl) (callback tl) (parsed tl) (printed tl) (called tl).
Definition set_pos v tl := mk_tl (token_levels tl) (token_level tl) (token_dict tl) (prompt tl) (buf tl) (buf_len tl) (escape tl) (escape_len tl) v (hist_buf tl) (hist_begin tl) (hist_end tl) (hist_step tl) (callback tl) (parsed tl) (printed tl) (called tl).
Definition set_hist_buf v tl := mk_tl (token_levels tl) (token_level tl) (token_dict tl) (prompt tl) (buf tl) (buf_len tl) (escape tl) (escape_len tl) (pos tl) v (hist_begin tl) (hist_end tl) (hist_step tl) (callback tl) (parsed tl) (printed tl) (called tl).
Definition set_hist_begin v tl := mk_tl (token_levels tl) (token_level tl) (token_dict tl) (prompt tl) (buf tl) (buf_len tl) (escape tl) (escape_len tl) (pos tl) (hist_buf tl) v (hist_end tl) (hist_step tl) (callback tl) (parsed tl) (printed tl) (called tl).
Definition set_hist_end v tl := mk_tl (token_levels tl) (token_level tl) (token_dict tl) (prompt tl) (buf tl) (buf_len tl) (escape tl) (escape_len tl) (pos tl) (hist_buf tl) (hist_begin tl) v (hist_step tl) (callback tl) (parsed tl) (printed tl) (called tl).
Definition set_hist_step v tl := mk_tl (token_levels tl) (token_level tl) (token_dict tl) (prompt tl) (buf tl) (buf_len tl) (escape tl) (escape_len tl) (pos tl) (hist_buf tl) (hist_begin tl) (hist_end tl) v (callback tl) (parsed tl) (printed tl) (called tl).
Definition set_callback v tl := mk_tl (token_levels tl) (token_level tl) (token_dict tl) (prompt tl) (buf tl) (buf_len tl) (escape tl) (escape_len tl) (pos tl) (hist_buf tl) (hist_begin tl) (hist_end tl) (hist_step tl) v (parsed tl) (printed tl) (called tl).
Definition set_parsed v tl := mk_tl (token_levels tl) (token_level tl) (token_dict tl) (prompt tl) (buf tl) (buf_len tl) (escape tl) (escape_len tl) (pos tl) (hist_buf tl) (hist_begin tl) (hist_end tl) (hist_step tl) (callback tl) v (printed tl) (called tl).
Definition set_printed v tl := mk_tl (token_levels tl) (token_level tl) (token_dict tl) (prompt tl) (buf tl) (buf_len tl) (escape tl) (escape_len tl) (pos tl) (hist_buf tl) (hist_begin tl) (hist_end tl) (hist_step tl) (callback tl) (parsed tl) v (called tl).
Definition set_called v tl := mk_tl (token_levels tl) (token_level tl) (token_dict tl) (prompt tl) (buf tl) (buf_len tl) (escape tl) (escape_len tl) (pos tl) (hist_buf tl) (hist_begin tl) (hist_end tl) (hist_step tl) (callback tl) (parsed tl) (printed tl) v.

(** [tl->print(tl->user, s)]. *)
Definition print (s : list Z) (tl : t_tokenline) : t_tokenline :=
  set_printed (printed tl ++ [s]) tl.

(** [n] times [tl->print(tl->user, s)]. *)
Fixpoint print_n (n : nat) (s : list Z) (tl : t_tokenline) : t_tokenline :=
  match n with
  | O => tl
  | S n' => print_n n' s (print s tl)
  end.

(** The option monad of the loops that may run forever. *)
Definition bind {A B : Type} (m : option A) (f : A -> option B) : option B :=
  match m with
  | Some a => f a
  | None => None
  end.

Notation "'do' x <- m ; k" := (bind m (fun x => k))
  (at level 10, x name, m at level 100, k at level 200).

(** ** The C library's [strtol] with base 0 *)

(** [strtol] is not part of the sources; this is the scanner of the C
    standard: optional white space, an optional sign, base 16 after [0x] or
    [0X], base 8 after a leading [0], base 10 otherwise, the longest run of
    digits, and the result clamped to the range of [long] (64 bits here).
    Without any digit the result is 0 and the suffix is the whole input. *)
Definition isspace (c : Z) : bool := (c =? 32) || ((9 <=? c) && (c <=? 13)).

Definition digit_val (c : Z) : Z :=
  if (48 <=? c) && (c <=? 57) then c - 48
  else if (97 <=? c) && (c <=? 122) then c - 97 + 10
  else if (65 <=? c) && (c <=? 90) then c - 65 + 10
  else 36.

Fixpoint skip_space (s : list Z) : list Z :=
  match s with
  | c :: r => if isspace c then skip_space r else s
  | [] => []
  end.

Fixpoint strtol_digits (base : Z) (s : list Z) (acc : Z) (any : bool)
  : Z * bool * list Z :=
  match s with
  | [] => (acc, any, [])
  | c :: r =>
      if digit_val c <? base
      then strtol_digits base r (acc * base + digit_val c) true
      else (acc, any, s)
  end.

Definition LONG_MAX : Z := 2 ^ 63 - 1.
Definition LONG_MIN : Z := - 2 ^ 63.

Definition strtol (s : list Z) : Z * list Z :=
  let s1 := skip_space s in
  let '(neg, s2) :=
    match s1 with
    | 45 :: r => (true, r)
    | 43 :: r => (false, r)
    | _ => (false, s1)
    end in
  let '(base, s3) :=
    match s2 with
    | 48 :: x :: d :: r =>
        if ((x =? 120) || (x =? 88)) && (digit_val d <? 16)
        then (16, d :: r) else (8, s2)
    | 48 :: _ => (8, s2)
    | _ => (10, s2)
    end in
  let '(acc, any, rest) := strtol_digits base s3 0 false in
  if any
  then (Z.max LONG_MIN (Z.min LONG_MAX (if neg then - acc else acc)), rest)
  else (0, s).

(** Conversion of a [long] to a 32-bit [int], and the [sizeof(int)] bytes of
    an [int] in memory (two's complement, least significant byte first). *)
Definition sizeof_int : Z := 4.

Definition int_of_long (v : Z) : Z :=
  let w := v mod 2 ^ 32 in
  if w <? 2 ^ 31 then w else w - 2 ^ 32.

Definition int_bytes (v : Z) : list Z :=
  map (fun k => Z.land (Z.shiftr v (8 * Z.of_nat k)) 255) (seq 0 (Z.to_nat sizeof_int)).

(** [*(int * )(m + off)]. *)
Definition int_at (m : list Z) (off : Z) : Z :=
  let b := bytes_at m off sizeof_int in
  int_of_long (fold_right (fun x acc => x + 256 * acc) 0 b).

(** ** The functions of tokenline.c *)

Section Tokenline.

Variable hdr : t_header.

(** The C library's [strtof]: the bytes of the [float] it returns and the
    suffix it leaves.  Floating point is not modelled. *)
Variable strtof : list Z -> list Z * list Z.

(** *** unsplit_line and split_line *)

Fixpoint unsplit_loop (n : nat) (i : Z) (quoted : bool) (b : list Z) : list Z :=
  match n with
  | O => b
  | S n' =>
      if load b i =? 34 then unsplit_loop n' (i + 1) true b
      else if load b i =? 0 then
        if quoted then unsplit_loop n' (i + 1) false (store b i 34)
        else unsplit_loop n' (i + 1) quoted (store b i 32)
      else unsplit_loop n' (i + 1) quoted b
  end.

Definition unsplit_line (tl : t_tokenline) : t_tokenline :=
  let b := unsplit_loop (Z.to_nat (buf_len tl)) 0 false (buf tl) in
  set_buf (store b (buf_len tl) 0) tl.

(** The loop of [split_line]; [n] counts the bytes left before [buf_len] and
    [words] holds the [num_words] offsets found so far. *)
Fixpoint split_loop (n : nat) (i state : Z) (quoted : bool) (words b : list Z)
  : bool * list Z * list Z :=
  match n with
  | O => (quoted, words, b)
  | S n' =>
      if Z.of_nat (length words) <? TL_MAX_WORDS hdr then
        if state =? 1 then
          (* Looking for a new word. *)
          if load b i =? 32 then split_loop n' (i + 1) state quoted words b
          else
            let quoted := if load b i =? 34 then true else quoted in
            split_loop n' (i + 1) 2 quoted
              (words ++ [i + (if quoted then 1 else 0)]) b
        else
          (* In a word. *)
          if quoted && (load b i =? 34)
          then split_loop n' (i + 1) 1 false words (store b i 0)
          else if negb quoted && (load b i =? 32)
          then split_loop n' (i + 1) 1 quoted words (store b i 0)
          else split_loop n' (i + 1) state quoted words b
      else (quoted, words, b)
  end.

(** [split_line (tl, words, &num_words, silent)]: the result, the word
    offsets and the engine. *)
Definition split_line (tl : t_tokenline) (silent : bool)
  : bool * list Z * t_tokenline :=
  let '(quoted, words, b) :=
    split_loop (Z.to_nat (buf_len tl)) 0 1 false [] (buf tl) in
  let tl := set_buf b tl in
  if quoted then
    let tl := if silent then tl else print (str "Unmatched quote." ++ NL) tl in
    (false, words, unsplit_line tl)
  else if Z.of_nat (length words) =? TL_MAX_WORDS hdr then
    let tl := if silent then tl else print (str "Too many words." ++ NL) tl in
    (false, words, unsplit_line tl)
  else (true, words, tl).

(** *** The line buffer: add_char, backspace, delete_line, set_line *)

Definition add_char (tl : t_tokenline) (c : Z) : t_tokenline :=
  if pos tl =? buf_len tl then
    let tl := set_buf (store (buf tl) (buf_len tl) c) tl in
    let tl := set_buf_len (buf_len tl + 1) tl in
    let tl := set_buf (store (buf tl) (buf_len tl) 0) tl in
    let tl := print (cstr_at (buf tl) (buf_len tl - 1)) tl in
    set_pos (pos tl + 1) tl
  else
    let tl := set_buf (memcpy (buf tl) (pos tl + 1)
                         (bytes_at (buf tl) (pos tl) (buf_len tl - pos tl + 1))) tl in
    let tl := set_buf (store (buf tl) (pos tl) c) tl in
    let tl := print (cstr_at (buf tl) (pos tl)) tl in
    let tl := print_n (Z.to_nat (buf_len tl - pos tl)) CUR_LEFT tl in
    let tl := set_buf_len (buf_len tl + 1) tl in
    set_pos (pos tl + 1) tl.

Definition backspace (tl : t_tokenline) : t_tokenline :=
  let tl :=
    if pos tl =? buf_len tl then
      let tl := set_buf (store (buf tl) (buf_len tl - 1) 0) tl in
      print [27; 91; 68; 32; 27; 91; 68] tl
    else
      let tl := set_buf (memcpy (buf tl) (pos tl - 1)
                           (bytes_at (buf tl) (pos tl) (buf_len tl - pos tl + 1))) tl in
      let tl := print CUR_LEFT tl in
      let tl := print (cstr_at (buf tl) (pos tl - 1)) tl in
      let tl := print (str " ") tl in
      print_n (Z.to_nat (buf_len tl - pos tl + 1)) CUR_LEFT tl in
  let tl := set_buf_len (buf_len tl - 1) tl in
  set_pos (pos tl - 1) tl.

(** [while (tl->pos < tl->buf_len) { tl->pos++; print cursor-right }]. *)
Fixpoint cursor_end_loop (n : nat) (tl : t_tokenline) : t_tokenline :=
  match n with
  | O => tl
  | S n' =>
      if pos tl <? buf_len tl
      then cursor_end_loop n' (print CUR_RIGHT (set_pos (pos tl + 1) tl))
      else tl
  end.

Definition cursor_end (tl : t_tokenline) : t_tokenline :=
  cursor_end_loop (Z.to_nat (buf_len tl - pos tl)) tl.

(** [while (tl->pos) { tl->pos--; print cursor-left }]. *)
Fixpoint cursor_home_loop (n : nat) (tl : t_tokenline) : t_tokenline :=
  match n with
  | O => tl
  | S n' =>
      if pos tl =? 0 then tl
      else cursor_home_loop n' (print CUR_LEFT (set_pos (pos tl - 1) tl))
  end.

Definition cursor_home (tl : t_tokenline) : t_tokenline :=
  cursor_home_loop (Z.to_nat (pos tl)) tl.

(** [while (tl->pos) backspace (tl)]; the cursor is never negative. *)
Fixpoint backspace_loop (n : nat) (tl : t_tokenline) : t_tokenline :=
  match n with
  | O => tl
  | S n' => if pos tl =? 0 then tl else backspace_loop n' (backspace tl)
  end.

Definition delete_line (tl : t_tokenline) : t_tokenline :=
  let tl := cursor_end tl in
  backspace_loop (Z.to_nat (pos tl)) tl.

(** [set_line (tl, line)]; [line] is the C string the pointer designates. *)
Definition set_line (tl : t_tokenline) (line : list Z) : t_tokenline :=
  let size := strlen line in
  if size >? TL_MAX_LINE_LEN hdr - 1 then add_char tl 33
  else if pos tl =? buf_len tl then
    let tl := print line tl in
    let tl := set_pos (pos tl + size) tl in
    let tl := set_buf (memcpy (buf tl) (buf_len tl) line) tl in
    let tl := set_buf_len (buf_len tl + size) tl in
    set_buf (store (buf tl) (buf_len tl) 0) tl
  else tl.

(** *** The history ring *)

(** [if (--entry < 0) entry = TL_MAX_HISTORY_SIZE - 1]. *)
Definition hist_dec (e : Z) : Z :=
  if e - 1 <? 0 then TL_MAX_HISTORY_SIZE hdr - 1 else e - 1.

(** [if (++i == TL_MAX_HISTORY_SIZE) i = 0]. *)
Definition hist_inc (i : Z) : Z :=
  if i + 1 =? TL_MAX_HISTORY_SIZE hdr then 0 else i + 1.

(** The fuel of the scans over the ring: one more than its size.  A scan
    that has met that many non-zero bytes has gone around the ring and will
    never stop. *)
Definition hist_fuel : nat := S (Z.to_nat (TL_MAX_HISTORY_SIZE hdr)).

Fixpoint history_previous_loop (fuel : nat) (hb : list Z) (prev entry : Z)
  : option Z :=
  match fuel with
  | O => None
  | S f =>
      if load hb entry =? 0 then Some prev
      else history_previous_loop f hb entry (hist_dec entry)
  end.

Definition history_previous (tl : t_tokenline) (entry : Z) : option Z :=
  if entry =? hist_begin tl then Some (-1)
  else
    (* Onto the terminating zero of the previous entry. *)
    let entry := hist_dec entry in
    (* Onto the last byte of the previous entry. *)
    let prev := entry in
    let entry := hist_dec entry in
    history_previous_loop hist_fuel (hist_buf tl) prev entry.

Definition history_up (tl : t_tokenline) : option t_tokenline :=
  do entry <- (if hist_step tl =? -1
               then history_previous tl (hist_end tl)
               else history_previous tl (hist_step tl));
  if entry =? -1 then Some tl
  else
    let tl := delete_line tl in
    let tl := set_line tl (cstr_at (hist_buf tl) entry) in
    Some (set_hist_step entry tl).

(** [while (tl->hist_buf[i]) { if (++i == TL_MAX_HISTORY_SIZE) i = 0; }]. *)
Fixpoint history_down_loop (fuel : nat) (hb : list Z) (i : Z) : option Z :=
  match fuel with
  | O => None
  | S f =>
      if load hb i =? 0 then Some i
      else history_down_loop f hb (hist_inc i)
  end.

Definition history_down (tl : t_tokenline) : option t_tokenline :=
  if hist_step tl =? -1 then Some tl
  else
    let tl := delete_line tl in
    if hist_step tl =? hist_end tl then Some (set_hist_step (-1) tl)
    else
      do i <- history_down_loop hist_fuel (hist_buf tl) (hist_step tl);
      let i := hist_inc i in
      let tl := set_line tl (cstr_at (hist_buf tl) i) in
      Some (set_hist_step i tl).

(** [for (i = entry; i < TL_MAX_HISTORY_SIZE; i++) if (!hist_buf[i]) break;]
    and the value of [i] after it. *)
Fixpoint history_show_scan (n : nat) (hb : list Z) (i : Z) : Z :=
  match n with
  | O => i
  | S n' => if load hb i =? 0 then i else history_show_scan n' hb (i + 1)
  end.

(** The loop of [history_show].  The entries it visits are offsets into the
    ring, so more than [TL_MAX_HISTORY_SIZE + 1] rounds means a cycle. *)
Fixpoint history_show_loop (fuel : nat) (tl : t_tokenline) (entry : Z)
  : option t_tokenline :=
  match fuel with
  | O => None
  | S f =>
      if entry =? -1 then Some tl
      else
        let tl := print (cstr_at (hist_buf tl) entry) tl in
        (* Did we drop off the end of the buffer? *)
        let i := history_show_scan
                   (Z.to_nat (TL_MAX_HISTORY_SIZE hdr - entry)) (hist_buf tl) entry in
        let tl := if i =? TL_MAX_HISTORY_SIZE hdr
                  then print (cstr_at (hist_buf tl) 0) tl else tl in
        let tl := print NL tl in
        do e <- history_previous tl entry;
        history_show_loop f tl e
  end.

Definition history_show (tl : t_tokenline) : option t_tokenline :=
  (* Skip the 'history' command itself. *)
  do entry <- history_previous tl (hist_end tl);
  do entry <- history_previous tl entry;
  history_show_loop (S hist_fuel) tl entry.

(** The first loop of [history_delete]: it zeroes a byte in every round, so
    it always stops; the fuel handed to it by [history_delete] is enough. *)
Fixpoint history_delete_zero (fuel : nat) (hb : list Z) (freed i size : Z)
  : option (list Z * Z) :=
  match fuel with
  | O => None
  | S f =>
      if (freed <? size) || negb (load hb i =? 0)
      then history_delete_zero f (store hb i 0) (freed + 1) (hist_inc i) size
      else Some (hb, i)
  end.

(** [do { if (++i == TL_MAX_HISTORY_SIZE) i = 0; }
     while (!tl->hist_buf[i] && i < entry)]. *)
Fixpoint history_delete_skip (fuel : nat) (hb : list Z) (i entry : Z)
  : option Z :=
  match fuel with
  | O => None
  | S f =>
      let i := hist_inc i in
      if (load hb i =? 0) && (i <? entry)
      then history_delete_skip f hb i entry
      else Some i
  end.

(** Free at least size, but also fully zero out any deleted entry. *)
Definition history_delete (tl : t_tokenline) (entry size : Z)
  : option (Z * t_tokenline) :=
  do r <- history_delete_zero
             (S (Z.to_nat size + length (hist_buf tl))) (hist_buf tl) 0 entry size;
  let '(hb, i) := r in
  let hb := store hb i 0 in
  do i <- history_delete_skip hist_fuel hb i entry;
  Some (i, set_hist_buf hb tl).

Definition history_add (tl : t_tokenline) : option t_tokenline :=
  let H := TL_MAX_HISTORY_SIZE hdr in
  let size := strlen (cstr (buf tl)) + 1 in
  do tl <-
    (if hist_begin tl =? hist_end tl then
       (* First entry, both are 0. *)
       Some (set_hist_buf (memcpy (hist_buf tl) 0 (bytes_at (buf tl) 0 size)) tl)
     else if hist_begin tl <? hist_end tl then
       if H - hist_end tl >=? size then
         Some (set_hist_buf
                 (memcpy (hist_buf tl) (hist_end tl) (bytes_at (buf tl) 0 size)) tl)
       else
         let part1 := H - hist_end tl in
         let entry := hist_begin tl in
         do r <- history_delete tl entry (size - part1);
         let '(b, tl) := r in
         let tl := set_hist_begin b tl in
         let tl := set_hist_buf
                     (memcpy (hist_buf tl) (hist_end tl) (bytes_at (buf tl) 0 part1)) tl in
         Some (set_hist_buf
                 (memcpy (hist_buf tl) 0 (bytes_at (buf tl) part1 (size - part1))) tl)
     else
       let part1 := hist_begin tl - hist_end tl in
       if part1 <=? size then
         (* Not enough room between end and begin. *)
         do r <- history_delete tl (hist_begin tl) (size - part1);
         let '(b, tl) := r in
         let tl := set_hist_begin b tl in
         let part1 := H - hist_end tl in
         if part1 <? size then
           let tl := set_hist_buf
                       (memcpy (hist_buf tl) (hist_end tl) (bytes_at (buf tl) 0 part1)) tl in
           Some (set_hist_buf
                   (memcpy (hist_buf tl) 0 (bytes_at (buf tl) part1 (size - part1))) tl)
         else
           Some (set_hist_buf
                   (memcpy (hist_buf tl) (hist_end tl) (bytes_at (buf tl) 0 size)) tl)
       else
         (* Enough room between end and begin. *)
         Some (set_hist_buf
                 (memcpy (hist_buf tl) (hist_end tl) (bytes_at (buf tl) 0 size)) tl));
  let tl := set_hist_end (hist_end tl + size) tl in
  let tl := if hist_end tl >=? H then set_hist_end (hist_end tl - H) tl else tl in
  if hist_begin tl =? hist_end tl then
    do r <- history_delete tl (hist_begin tl)
              (strlen (cstr_at (hist_buf tl) (hist_begin tl)));
    let '(b, tl) := r in
    Some (set_hist_begin b tl)
  else Some tl.

(** *** find_token *)

(** [token_dict[t].tokenstr]: the C string the dictionary entry points to. *)
Definition dict_str (dict : list t_token_dict) (t : Z) : list Z :=
  if t <? 0 then [] else
  match dict !! Z.to_nat t with
  | Some d => cstr (tokenstr d)
  | None => []
  end.

(** FInd exact match. *)
Fixpoint find_exact (dict : list t_token_dict) (l : list t_token) (i : Z)
  (word : list Z) : option Z :=
  match l with
  | [] => None
  | e :: r =>
      if token e =? 0 then None
      else if strcmp word (dict_str dict (token e)) =? 0 then Some i
      else find_exact dict r (i + 1) word
  end.

(** Find partial match. *)
Fixpoint find_partial (dict : list t_token_dict) (l : list t_token)
  (i partial : Z) (word : list Z) : Z :=
  match l with
  | [] => partial
  | e :: r =>
      if token e =? 0 then partial
      else if strlen word >=? strlen (dict_str dict (token e))
      then find_partial dict r (i + 1) partial word
      else if strncmp word (dict_str dict (token e)) (length word) =? 0 then
        if negb (partial =? -1)
        then (* Not unique. *) -1
        else find_partial dict r (i + 1) i word
      else find_partial dict r (i + 1) partial word
  end.

Definition find_token (l : list t_token) (dict : list t_token_dict)
  (word : list Z) : Z :=
  match find_exact dict l 0 word with
  | Some i => i
  | None => find_partial dict l 0 (-1) word
  end.

(** *** tokenize *)

(** The locals of [tokenize].  [token_stack] is the stack of token lists with
    [token_stack[cur_tsp]] at its head; its capacity of 8 is not enforced by
    the code. *)
Record t_walk := mk_walk {
  done : bool;
  arg_needed : Z;
  arg_tokens : option (list t_token);
  token_stack : list (list t_token);
  cur_tp : Z;
  cur_bufsize : Z
}.

Definition null_token : t_token := mk_token 0 0 None None.

Definition entry_at (l : list t_token) (i : Z) : t_token :=
  default null_token (l !! Z.to_nat i).

Definition set_tokens (i v : Z) (tl : t_tokenline) : t_tokenline :=
  set_parsed (mk_parsed (store (tokens (parsed tl)) i v)
                (p_buf (parsed tl)) (last_token_entry (parsed tl))) tl.

Definition set_p_buf (b : list Z) (tl : t_tokenline) : t_tokenline :=
  set_parsed (mk_parsed (tokens (parsed tl)) b (last_token_entry (parsed tl))) tl.

Definition set_last_token_entry (e : option t_token) (tl : t_tokenline)
  : t_tokenline :=
  set_parsed (mk_parsed (tokens (parsed tl)) (p_buf (parsed tl)) e) tl.

(** An error of [tokenize]: the message is printed unless the caller asked
    for the completion tokens. *)
Definition tokenize_error (completing : bool) (msg : list Z)
  (tl : t_tokenline) : t_tokenline :=
  if completing then tl else print msg tl.

(** One round of the loop over the words of [tokenize]; [None] stands for
    [return FALSE]. *)
Definition tokenize_word (completing : bool) (word : list Z) (w : t_walk)
  (tl : t_tokenline) : option t_walk * t_tokenline :=
  if done w then
    (None, tokenize_error completing (str "Too many arguments." ++ NL) tl)
  else if arg_needed w =? 0 then
    (* Token needed. *)
    let top := hd [] (token_stack w) in
    let t_idx := find_token top (token_dict tl) word in
    if t_idx >? -1 then
      let e := entry_at top t_idx in
      let tl := set_tokens (cur_tp w) (token e) tl in
      let tl := set_last_token_entry (Some e) tl in
      let w := mk_walk (done w) (arg_needed w) (arg_tokens w) (token_stack w)
                 (cur_tp w + 1) (cur_bufsize w) in
      if arg_type e =? TARG_HELP hdr then
        (* Nothing to do, just keep cur_tsp from increasing. *)
        (Some w, tl)
      else if negb (arg_type e =? 0) then
        (* Token needs an argument *)
        let at_ := if arg_type e =? TARG_TOKEN hdr then subtokens e else arg_tokens w in
        (Some (mk_walk (done w) (arg_type e) at_ (token_stack w)
                 (cur_tp w) (cur_bufsize w)), tl)
      else
        match subtokens e with
        | Some sub =>
            (Some (mk_walk (done w) (arg_needed w) (arg_tokens w)
                     (sub :: token_stack w) (cur_tp w) (cur_bufsize w)), tl)
        | None =>
            (* Not expecting any more arguments or tokens. *)
            (Some (mk_walk true (arg_needed w) (arg_tokens w) (token_stack w)
                     (cur_tp w) (cur_bufsize w)), tl)
        end
    else (None, tokenize_error completing (str "Invalid command." ++ NL) tl)
  else
    (* Parse word as the type in arg_needed *)
    let clear w := mk_walk (done w) 0 (arg_tokens w) (token_stack w)
                     (cur_tp w) (cur_bufsize w) in
    if arg_needed w =? TARG_INT hdr then
      let '(v, suffix) := strtol word in
      let arg_int := int_of_long v in
      if negb (strlen suffix =? 0) then
        (None, tokenize_error completing (str "Invalid value." ++ NL) tl)
      else
        let tl := set_tokens (cur_tp w) (TARG_INT hdr) tl in
        let tl := set_tokens (cur_tp w + 1) (cur_bufsize w) tl in
        let tl := set_p_buf (memcpy (p_buf (parsed tl)) (cur_bufsize w)
                               (int_bytes arg_int)) tl in
        (Some (clear (mk_walk (done w) (arg_needed w) (arg_tokens w) (token_stack w)
                        (cur_tp w + 2) (cur_bufsize w + sizeof_int))), tl)
    else if arg_needed w =? TARG_FLOAT hdr then
      let '(arg_float, suffix) := strtof word in
      if negb (strlen suffix =? 0) then
        (None, tokenize_error completing (str "Invalid value." ++ NL) tl)
      else
        let tl := set_tokens (cur_tp w) (TARG_FLOAT hdr) tl in
        let tl := set_tokens (cur_tp w + 1) (cur_bufsize w) tl in
        let tl := set_p_buf (memcpy (p_buf (parsed tl)) (cur_bufsize w) arg_float) tl in
        (Some (clear (mk_walk (done w) (arg_needed w) (arg_tokens w) (token_stack w)
                        (cur_tp w + 2) (cur_bufsize w + strlen arg_float))), tl)
    else if arg_needed w =? TARG_STRING hdr then
      let tl := set_tokens (cur_tp w) (TARG_STRING hdr) tl in
      let tl := set_tokens (cur_tp w + 1) (cur_bufsize w) tl in
      let size := strlen word + 1 in
      let tl := set_p_buf (memcpy (p_buf (parsed tl)) (cur_bufsize w) (word ++ [0])) tl in
      let tl := set_p_buf (store (p_buf (parsed tl)) (cur_bufsize w + size) 0) tl in
      (Some (clear (mk_walk (done w) (arg_needed w) (arg_tokens w) (token_stack w)
                      (cur_tp w + 2) (cur_bufsize w + size))), tl)
    else if arg_needed w =? TARG_TOKEN hdr then
      let l := default [] (arg_tokens w) in
      let t_idx := find_token l (token_dict tl) word in
      if t_idx >? -1 then
        let tl := set_tokens (cur_tp w) (token (entry_at l t_idx)) tl in
        let tl := set_last_token_entry (Some (entry_at l t_idx)) tl in
        (Some (clear (mk_walk (done w) (arg_needed w) (arg_tokens w) (token_stack w)
                        (cur_tp w + 1) (cur_bufsize w))), tl)
      else (None, tokenize_error completing (str "Invalid value." ++ NL) tl)
    else (Some (clear w), tl).

(** [for (w = 0; w < num_words; w++)]; the words are read in the line buffer
    at the offsets [words]. *)
Fixpoint tokenize_loop (completing : bool) (words : list Z) (w : t_walk)
  (tl : t_tokenline) : option t_walk * t_tokenline :=
  match words with
  | [] => (Some w, tl)
  | off :: r =>
      match tokenize_word completing (cstr_at (buf tl) off) w tl with
      | (Some w', tl') => tokenize_loop completing r w' tl'
      | (None, tl') => (None, tl')
      end
  end.

(** [tokenize (tl, words, num_words, complete_tokens, complete_arg)].
    [completing] says that [complete_tokens] is not NULL.  The result is the
    return value, the engine, [*complete_tokens] and [*complete_arg]. *)
Definition tokenize (tl : t_tokenline) (words : list Z) (num_words : Z)
  (completing : bool) : bool * t_tokenline * option (list t_token) * Z :=
  let w0 := mk_walk false 0 None
              [default [] (token_levels tl !! Z.to_nat (token_level tl))] 0 0 in
  match tokenize_loop completing (take (Z.to_nat num_words) words) w0 tl with
  | (None, tl) => (false, tl, None, 0)
  | (Some w, tl) =>
      if negb (arg_needed w =? 0) && negb completing then
        (false, print (str "Missing argument." ++ NL) tl, None, 0)
      else
        let tl := set_tokens (cur_tp w) 0 tl in
        let complete_tokens :=
          if done w then (* Nothing to add. *) None
          else if arg_needed w =? TARG_TOKEN hdr then arg_tokens w
          else Some (hd [] (token_stack w)) in
        (true, tl, complete_tokens, arg_needed w)
  end.

(** *** show_help *)

Fixpoint show_help_loop (l : list t_token) (tl : t_tokenline) : t_tokenline :=
  match l with
  | [] => tl
  | e :: r =>
      if token e =? 0 then tl
      else
        let tl := print INDENT tl in
        let tl := print (dict_str (token_dict tl) (token e)) tl in
        let tl :=
          match help e with
          | Some h =>
              let size := strlen (dict_str (token_dict tl) (token e)) in
              let tl := print (repeat 32 (Z.to_nat (15 - size))) tl in
              print h tl
          | None => tl
          end in
        show_help_loop r (print NL tl)
  end.

Definition show_help (tl : t_tokenline) (num_words : Z) : t_tokenline :=
  let last := default null_token (last_token_entry (parsed tl)) in
  let tl := match help last with
            | Some h => print NL (print h tl)
            | None => tl
            end in
  let toks :=
    if num_words =? 1
    then (* Just "help" -- global command overview. *)
      Some (default [] (token_levels tl !! 0%nat))
    else subtokens last in
  let tl := match toks with
            | Some l => show_help_loop l tl
            | None => tl
            end in
  match help last, toks with
  | None, None => print NO_HELP tl
  | _, _ => tl
  end.

(** *** process_line *)

Definition process_line_reset (tl : t_tokenline) : t_tokenline :=
  let tl := set_buf (store (buf tl) 0 0) tl in
  let tl := set_buf_len 0 tl in
  let tl := set_escape_len 0 tl in
  let tl := set_pos 0 tl in
  print (prompt tl) tl.

(** The body of the [do { ... } while (FALSE)] of [process_line]. *)
Definition process_line_body (tl : t_tokenline) : option t_tokenline :=
  if buf_len tl =? 0 then Some tl
  else
    do tl <- history_add tl;
    let '(ok, words, tl) := split_line tl false in
    if negb ok then Some tl
    else if Z.of_nat (length words) =? 0 then Some tl
    else if strcmp (cstr_at (buf tl) (nth 0 words 0)) (str "help") =? 0 then
      (* Tokenize with errors turned off. *)
      let '(_, tl, _, _) := tokenize tl words (Z.of_nat (length words)) true in
      match last_token_entry (parsed tl) with
      | Some _ => Some (show_help tl (Z.of_nat (length words)))
      | None => Some tl
      end
    else if strcmp (cstr_at (buf tl) (nth 0 words 0)) (str "history") =? 0 then
      history_show tl
    else
      let '(ok, tl, _, _) := tokenize tl words (Z.of_nat (length words)) false in
      if negb ok then Some tl
      else if callback tl then Some (set_called (called tl ++ [parsed tl]) tl)
      else Some tl.

Definition process_line (tl : t_tokenline) : option t_tokenline :=
  let tl := print NL tl in
  do tl <- process_line_body tl;
  Some (process_line_reset tl).

(** *** complete *)

Fixpoint complete_list_loop (l : list t_token) (tl : t_tokenline) : t_tokenline :=
  match l with
  | [] => tl
  | e :: r =>
      if token e =? 0 then tl
      else complete_list_loop r
             (print NL (print (dict_str (token_dict tl) (token e)) (print INDENT tl)))
  end.

(** The loop over the candidates of the word being completed; the result is
    [partial], [multiple] and the engine. *)
Fixpoint complete_match_loop (l : list t_token) (word : list Z)
  (partial : Z) (multiple : bool) (tl : t_tokenline) : Z * bool * t_tokenline :=
  match l with
  | [] => (partial, multiple, tl)
  | e :: r =>
      if token e =? 0 then (partial, multiple, tl)
      else if strncmp word (dict_str (token_dict tl) (token e)) (length word) =? 0 then
        if negb (partial =? 0) then
          (* Not the first match, print previous one. *)
          let tl := print NL tl in
          let tl := print INDENT tl in
          let tl := print (dict_str (token_dict tl) partial) tl in
          complete_match_loop r word (token e) true tl
        else complete_match_loop r word (token e) multiple tl
      else complete_match_loop r word partial multiple tl
  end.

Definition complete_finish (reprompt : bool) (tl : t_tokenline) : t_tokenline :=
  let tl := unsplit_line tl in
  if reprompt then print (cstr_at (buf tl) 0) (print (prompt tl) tl) else tl.

Definition complete (tl : t_tokenline) : t_tokenline :=
  if pos tl =? 0 then
    (* Tab on an empty line: show all top-level commmands. *)
    let tl := print NL tl in
    let tl := complete_list_loop (default [] (token_levels tl !! 0%nat)) tl in
    complete_finish true tl
  else if negb (load (buf tl) (pos tl - 1) =? 32) then
    (* Try to complete the current word. *)
    let '(ok, words, tl) := split_line tl true in
    if negb ok || (Z.of_nat (length words) =? 0) then tl
    else
      let num_words := Z.of_nat (length words) in
      let '(ok, tl, toks, _) := tokenize tl words (num_words - 1) true in
      match ok, toks with
      | true, Some l =>
          let word := cstr_at (buf tl) (nth (Z.to_nat (num_words - 1)) words 0) in
          let '(partial, multiple, tl) := complete_match_loop l word 0 false tl in
          if negb (partial =? 0) then
            if multiple then
              (* Last partial match. *)
              let tl := print NL tl in
              let tl := print INDENT tl in
              let tl := print (dict_str (token_dict tl) partial) tl in
              let tl := print NL tl in
              complete_finish true tl
            else
              let tl := fold_left add_char
                          (drop (length word) (dict_str (token_dict tl) partial)) tl in
              let tl := add_char tl 32 in
              complete_finish false tl
          else complete_finish false tl
      | _, _ => complete_finish false tl
      end
  else
    (* List all possible tokens from this point. *)
    let '(ok, words, tl) := split_line tl true in
    if negb ok || (Z.of_nat (length words) =? 0) then tl
    else
      let '(ok, tl, toks, arg) := tokenize tl words (Z.of_nat (length words)) true in
      if negb ok then complete_finish false tl
      else if negb (arg =? 0) && negb (arg =? TARG_TOKEN hdr) then
        let tl :=
          if arg =? TARG_INT hdr then print (INDENT ++ NL ++ str "<integer>" ++ NL) tl
          else if arg =? TARG_FLOAT hdr then print (INDENT ++ NL ++ str "<float>" ++ NL) tl
          else if arg =? TARG_STRING hdr then print (INDENT ++ NL ++ str "<string>" ++ NL) tl
          else tl in
        complete_finish true tl
      else
        match toks with
        | Some l =>
            let tl := print NL tl in
            let tl' := complete_list_loop l tl in
            (* reprompt is set in the loop body *)
            complete_finish (negb (token (hd null_token l) =? 0)) tl'
        | None => complete_finish false tl
        end.

(** *** process_escape *)

(** [!strncmp (tl->escape, seq, n)]. *)
Definition escape_is (tl : t_tokenline) (seq : list Z) (n : nat) : bool :=
  strncmp (cstr (escape tl)) seq n =? 0.

Definition process_escape (tl : t_tokenline) : option (bool * t_tokenline) :=
  if escape_len tl =? 4 then
    if escape_is tl [27; 91; 51; 126] 4 then
      (* Delete *)
      if pos tl <? buf_len tl then
        let tl := set_buf (memcpy (buf tl) (pos tl)
                             (bytes_at (buf tl) (pos tl + 1) (buf_len tl - pos tl))) tl in
        let tl := print (cstr_at (buf tl) (pos tl)) tl in
        let tl := print (str " ") tl in
        let tl := print_n (Z.to_nat (buf_len tl - pos tl)) CUR_LEFT tl in
        Some (true, set_buf_len (buf_len tl - 1) tl)
      else Some (true, tl)
    else Some (true, tl)
  else if escape_len tl =? 3 then
    if escape_is tl [27; 91; 65] 3 then
      (* Up arrow *)
      do tl <- history_up tl; Some (true, tl)
    else if escape_is tl [27; 91; 66] 3 then
      (* Down arrow *)
      do tl <- history_down tl; Some (true, tl)
    else if escape_is tl [27; 91; 68] 3 then
      (* Left arrow *)
      if pos tl >? 0
      then Some (true, print [27; 91; 49; 68] (set_pos (pos tl - 1) tl))
      else Some (true, tl)
    else if escape_is tl [27; 91; 67] 3 then
      (* Right arrow *)
      if pos tl <? buf_len tl
      then Some (true, print [27; 91; 49; 67] (set_pos (pos tl + 1) tl))
      else Some (true, tl)
    else if escape_is tl [27; 79; 72] 3 then
      (* Home *)
      Some (true, cursor_home tl)
    else if escape_is tl [27; 79; 70] 3 then
      (* End *)
      Some (true, cursor_end tl)
    else Some (false, tl)
  else Some (false, tl).

(** *** tl_init, tl_set_prompt, tl_set_callback *)

(** [memset] clears every array of the aggregate; the arrays of
    [t_tokenline_parsed] have the sizes [TL_MAX_WORDS] and [TL_MAX_LINE_LEN]. *)
Definition tl_init (tokens_top : list t_token) (dict : list t_token_dict)
  : t_tokenline :=
  mk_tl [tokens_top] 0 dict []
    (repeat 0 (Z.to_nat (TL_MAX_LINE_LEN hdr))) 0
    (repeat 0 (Z.to_nat (TL_MAX_ESCAPE_LEN hdr))) 0 0
    (repeat 0 (Z.to_nat (TL_MAX_HISTORY_SIZE hdr))) 0 0 (-1)
    false
    (mk_parsed (repeat 0 (Z.to_nat (TL_MAX_WORDS hdr)))
       (repeat 0 (Z.to_nat (TL_MAX_LINE_LEN hdr))) None)
    [] [].

Definition tl_set_prompt (tl : t_tokenline) (p : list Z) : t_tokenline :=
  let tl := set_prompt p tl in
  print (prompt tl) tl.

Definition tl_set_callback (tl : t_tokenline) : t_tokenline :=
  set_callback true tl.

(** *** tl_input *)

(** The two loops of Ctrl-w. *)
Fixpoint kill_spaces_loop (n : nat) (tl : t_tokenline) : t_tokenline :=
  match n with
  | O => tl
  | S n' =>
      if negb (pos tl =? 0) && (load (buf tl) (pos tl - 1) =? 32)
      then kill_spaces_loop n' (backspace tl)
      else tl
  end.

Fixpoint kill_word_loop (n : nat) (tl : t_tokenline) : t_tokenline :=
  match n with
  | O => tl
  | S n' =>
      if negb (pos tl =? 0) && negb (load (buf tl) (pos tl - 1) =? 32)
      then kill_word_loop n' (backspace tl)
      else tl
  end.

(** [tl_input (tl, c)]: the return value and the engine, or [None] when a
    scan of the history ring does not terminate. *)
Definition tl_input (tl : t_tokenline) (c : Z) : option (Z * t_tokenline) :=
  if negb (escape_len tl =? 0) then
    let tl := set_escape (store (escape tl) (escape_len tl) c) tl in
    let tl := set_escape_len (escape_len tl + 1) tl in
    do r <- process_escape tl;
    let '(ok, tl) := r in
    if ok then Some (TRUE, set_escape_len 0 tl)
    else if escape_len tl =? TL_MAX_ESCAPE_LEN hdr then
      (* Not a valid escape sequence, and buffer full. *)
      Some (TRUE, set_escape_len 0 tl)
    else Some (TRUE, tl)
  else if c =? 27 then
    (* Start of escape sequence. *)
    let tl := set_escape (store (escape tl) (escape_len tl) c) tl in
    Some (TRUE, set_escape_len (escape_len tl + 1) tl)
  else if (c =? 13) || (c =? 10) then
    do tl <- process_line tl; Some (TRUE, tl)
  else if c =? 9 then
    if buf_len tl =? pos tl then Some (TRUE, complete tl) else Some (TRUE, tl)
  else if c =? 127 then
    (* Backspace *)
    if negb (pos tl =? 0) then Some (TRUE, backspace tl) else Some (TRUE, tl)
  else if c =? 1 then
    (* Ctrl-a *)
    Some (TRUE, cursor_home tl)
  else if c =? 3 then
    (* Ctrl-c *)
    let tl := print (str "^C") tl in
    let tl := set_buf_len 0 tl in
    do tl <- process_line tl; Some (TRUE, tl)
  else if c =? 5 then
    (* Ctrl-e *)
    Some (TRUE, cursor_end tl)
  else if c =? 11 then
    (* Ctrl-k *)
    if buf_len tl >? pos tl then
      let tl := print_n (Z.to_nat (buf_len tl - pos tl)) (str " ") tl in
      let tl := print_n (Z.to_nat (buf_len tl - pos tl)) CUR_LEFT tl in
      let tl := set_buf_len (pos tl) tl in
      Some (TRUE, set_buf (store (buf tl) (buf_len tl) 0) tl)
    else Some (TRUE, tl)
  else if c =? 12 then
    (* Ctrl-l *)
    let tl := print [27; 91; 50; 74; 27; 91; 72] tl in
    let tl := print (prompt tl) tl in
    Some (TRUE, print (cstr_at (buf tl) 0) tl)
  else if c =? 16 then
    (* Ctrl-p *)
    do tl <- history_up tl; Some (TRUE, tl)
  else if c =? 14 then
    (* Ctrl-n *)
    do tl <- history_down tl; Some (TRUE, tl)
  else if c =? 23 then
    (* Ctrl-w *)
    let tl := kill_spaces_loop (Z.to_nat (pos tl)) tl in
    Some (TRUE, kill_word_loop (Z.to_nat (pos tl)) tl)
  else if c =? 4 then
    (* Ctrl-d on empty line exits. *)
    if buf_len tl =? 0 then Some (FALSE, tl) else Some (TRUE, tl)
  else if (c >=? 32) && (c <=? 126) then
    let tl := if buf_len tl <? TL_MAX_LINE_LEN hdr - 1 then add_char tl c else tl in
    Some (TRUE, set_hist_step (-1) tl)
  else Some (TRUE, tl).

(** Feeding a sequence of bytes; the result is the last return value (or
    [TRUE] for no byte) and the engine.  Feeding goes on after an EXIT, as
    the engine itself does not stop. *)
Fixpoint tl_feed (tl : t_tokenline) (cs : list Z) : option (Z * t_tokenline) :=
  match cs with
  | [] => Some (TRUE, tl)
  | [c] => tl_input tl c
  | c :: r => do x <- tl_input tl c; tl_feed (snd x) r
  end.

End Tokenline.

(** * Properties *)

(** ** Memory lemmas *)

Lemma length_store m i v : length (store m i v) = length m.
Proof. unfold store. destruct (i <? 0); [reflexivity | apply length_insert]. Qed.

Lemma load_store m i v j :
  load (store m i v) j =
  if (j =? i) && (0 <=? j) && (j <? Z.of_nat (length m)) then v else load m j.
Proof.
  unfold load, store.
  destruct (Z.ltb_spec i 0), (Z.ltb_spec j 0), (Z.eqb_spec j i),
    (Z.leb_spec 0 j), (Z.ltb_spec j (Z.of_nat (length m)));
    simpl; try lia; try reflexivity; subst.
  - rewrite list_lookup_insert_eq by lia. reflexivity.
  - rewrite list_insert_ge by lia. reflexivity.
  - rewrite list_lookup_insert_ne by lia. reflexivity.
  - rewrite list_lookup_insert_ne by lia. reflexivity.
Qed.

Lemma load_store_eq m i v :
  0 <= i < Z.of_nat (length m) -> load (store m i v) i = v.
Proof.
  intros. rewrite load_store.
  destruct (Z.eqb_spec i i), (Z.leb_spec 0 i), (Z.ltb_spec i (Z.of_nat (length m)));
    simpl; lia || reflexivity.
Qed.

Lemma load_store_ne m i v j : j <> i -> load (store m i v) j = load m j.
Proof. intros. rewrite load_store. destruct (Z.eqb_spec j i); [lia | reflexivity]. Qed.

Lemma load_out m i : Z.of_nat (length m) <= i -> load m i = 0.
Proof.
  intros. unfold load. destruct (i <? 0); [reflexivity |].
  rewrite lookup_ge_None_2 by lia. reflexivity.
Qed.

Lemma load_neg m i : i < 0 -> load m i = 0.
Proof. intros. unfold load. destruct (Z.ltb_spec i 0); [reflexivity | lia]. Qed.

Lemma load_lookup m i :
  0 <= i < Z.of_nat (length m) -> m !! Z.to_nat i = Some (load m i).
Proof.
  intros. unfold load. destruct (Z.ltb_spec i 0); [lia |].
  destruct (lookup_lt_is_Some_2 m (Z.to_nat i)) as [x Hx]; [lia |].
  rewrite Hx. reflexivity.
Qed.

(** Two arrays of the same size with the same bytes are equal. *)
Lemma list_eq_load (a b : list Z) :
  length a = length b ->
  (forall i, 0 <= i < Z.of_nat (length a) -> load a i = load b i) ->
  a = b.
Proof.
  intros Hl Hi. apply list_eq. intros k.
  destruct (Nat.lt_ge_cases k (length a)) as [Hk | Hk].
  - specialize (Hi (Z.of_nat k) ltac:(lia)).
    pose proof (load_lookup a (Z.of_nat k) ltac:(lia)) as Ha.
    pose proof (load_lookup b (Z.of_nat k) ltac:(lia)) as Hb.
    rewrite Nat2Z.id in Ha, Hb. congruence.
  - rewrite !lookup_ge_None_2 by lia. reflexivity.
Qed.

Lemma length_memcpy src : forall m off, length (memcpy m off src) = length m.
Proof.
  induction src as [| c r IH]; intros; simpl; [reflexivity |].
  rewrite IH. apply length_store.
Qed.

Lemma load_memcpy src : forall m off j,
  load (memcpy m off src) j =
  if (off <=? j) && (j <? off + Z.of_nat (length src))
     && (0 <=? j) && (j <? Z.of_nat (length m))
  then nth (Z.to_nat (j - off)) src 0 else load m j.
Proof.
  induction src as [| c r IH]; intros; simpl memcpy.
  - destruct (Z.leb_spec off j), (Z.ltb_spec j (off + Z.of_nat (length (@nil Z))));
      simpl in *; try reflexivity; lia.
  - rewrite IH, length_store, load_store.
    change (length (c :: r)) with (S (length r)).
    destruct (Z.leb_spec (off + 1) j), (Z.ltb_spec j (off + 1 + Z.of_nat (length r))),
      (Z.leb_spec off j), (Z.ltb_spec j (off + Z.of_nat (S (length r)))),
      (Z.leb_spec 0 j), (Z.ltb_spec j (Z.of_nat (length m))), (Z.eqb_spec j off);
      simpl; try lia; try reflexivity.
    + replace (Z.to_nat (j - off)) with (S (Z.to_nat (j - (off + 1)))) by lia.
      reflexivity.
    + subst. replace (Z.to_nat (off - off)) with O by lia. reflexivity.
Qed.

Lemma length_bytes_at m off n : length (bytes_at m off n) = Z.to_nat n.
Proof. unfold bytes_at. rewrite length_map, length_seq. reflexivity. Qed.

Lemma nth_bytes_at m off n k :
  (k < Z.to_nat n)%nat -> nth k (bytes_at m off n) 0 = load m (off + Z.of_nat k).
Proof.
  intros. unfold bytes_at.
  rewrite (nth_indep _ 0 ((fun k => load m (off + Z.of_nat k)) O))
    by (rewrite length_map, length_seq; lia).
  rewrite (map_nth (fun k => load m (off + Z.of_nat k))), seq_nth by lia.
  reflexivity.
Qed.

(** The bytes of the line: the first [buf_len] bytes of [buf]. *)
Definition line (tl : t_tokenline) : list Z :=
  take (Z.to_nat (buf_len tl)) (buf tl).

Lemma load_take m n i :
  0 <= i < Z.of_nat n -> load (take n m) i = load m i.
Proof.
  intros. unfold load. destruct (i <? 0); [reflexivity |].
  rewrite lookup_take_lt by lia. reflexivity.
Qed.

(** ** Sample configurations *)

(** Modelled from the spec: the example sizes of its data model (a line of
    128 bytes, 8 escape bytes, 16 words, a history ring of 1024 bytes).  The
    values of the argument tags are arbitrary distinct numbers that are not
    token ids. *)
Definition sample_hdr : t_header :=
  mk_header 128 8 16 1024 10000 10001 10002 10003 10004.

(** The same with the history ring of 32 bytes of the spec's history
    scenario. *)
Definition small_hdr : t_header :=
  mk_header 128 8 16 32 10000 10001 10002 10003 10004.

(** A [strtof] that rejects every word. *)
Definition no_strtof (s : list Z) : list Z * list Z := ([0; 0; 0; 0], s ++ [1]).

(** A grammar with the commands [show], [shutdown] and [set <integer>]. *)
Definition sample_dict : list t_token_dict :=
  [mk_dict 0 []; mk_dict 1 (str "show"); mk_dict 2 (str "shutdown");
   mk_dict 3 (str "set")].

Definition sample_tokens : list t_token :=
  [mk_token 1 0 None (Some (str "print version"));
   mk_token 2 0 None None;
   mk_token 3 (TARG_INT sample_hdr) None None;
   mk_token 0 0 None None].

(** An engine after [tl_init], [tl_set_prompt] and [tl_set_callback]. *)
Definition sample_tl (hdr : t_header) : t_tokenline :=
  tl_set_callback (tl_set_prompt (tl_init hdr sample_tokens sample_dict) (str "> ")).

(** The engine after the bytes [cs]; the initial engine when a history scan
    does not terminate on the way (which does not happen below). *)
Definition sample_after (hdr : t_header) (cs : list Z) : t_tokenline :=
  match tl_feed hdr no_strtof (sample_tl hdr) cs with
  | Some (_, tl) => tl
  | None => sample_tl hdr
  end.

(** ** Ctrl-D *)

(** C5: with no escape sequence in progress, byte 0x04 returns EXIT (FALSE)
    exactly when the line is empty, returns CONTINUE (TRUE) otherwise, and in
    both cases leaves the whole engine, the print log included, as it was. *)
Theorem ctrl_d_exit_iff_empty (hdr : t_header) strtof (tl : t_tokenline) :
  escape_len tl = 0 ->
  exists r, tl_input hdr strtof tl 4 = Some (r, tl) /\
    (r = FALSE <-> buf_len tl = 0) /\
    (buf_len tl <> 0 -> r = TRUE).
Proof.
  intros He. unfold tl_input. rewrite He. simpl.
  destruct (Z.eqb_spec (buf_len tl) 0) as [Hz | Hz].
  - exists FALSE. repeat split; auto; intros; congruence.
  - exists TRUE. repeat split; auto; unfold TRUE, FALSE; intros; lia.
Qed.

Lemma ctrl_d_exit_iff_empty_witness :
  escape_len (sample_after sample_hdr (str "ab")) = 0 /\
  exists r, tl_input sample_hdr no_strtof (sample_after sample_hdr (str "ab")) 4
            = Some (r, sample_after sample_hdr (str "ab")) /\
    (r = FALSE <-> buf_len (sample_after sample_hdr (str "ab")) = 0) /\
    (buf_len (sample_after sample_hdr (str "ab")) <> 0 -> r = TRUE).
Proof.
  split; [reflexivity |].
  apply (ctrl_d_exit_iff_empty sample_hdr no_strtof
           (sample_after sample_hdr (str "ab"))).
  reflexivity.
Defined.

Lemma load_app a b i :
  load (a ++ b) i =
  if i <? Z.of_nat (length a) then load a i else load b (i - Z.of_nat (length a)).
Proof.
  unfold load.
  destruct (Z.ltb_spec i 0), (Z.ltb_spec i (Z.of_nat (length a))),
    (Z.ltb_spec (i - Z.of_nat (length a)) 0); try lia; try reflexivity.
  - rewrite lookup_app_l by lia. reflexivity.
  - rewrite lookup_app_r by lia.
    replace (Z.to_nat i - length a)%nat with (Z.to_nat (i - Z.of_nat (length a))) by lia.
    reflexivity.
Qed.

Lemma load_drop m n i :
  0 <= i -> load (drop n m) i = load m (Z.of_nat n + i).
Proof.
  intros. unfold load.
  destruct (Z.ltb_spec i 0), (Z.ltb_spec (Z.of_nat n + i) 0); try lia.
  rewrite lookup_drop. replace (n + Z.to_nat i)%nat with (Z.to_nat (Z.of_nat n + i)) by lia.
  reflexivity.
Qed.

(** ** Backspace *)

(** What [backspace] does to the line when the cursor is inside it or at its
    end: the byte left of the cursor goes, the tail moves left. *)
Lemma backspace_line (tl : t_tokenline) :
  0 < pos tl <= buf_len tl -> buf_len tl < Z.of_nat (length (buf tl)) ->
  buf_len (backspace tl) = buf_len tl - 1 /\
  pos (backspace tl) = pos tl - 1 /\
  line (backspace tl) =
    take (Z.to_nat (pos tl - 1)) (line tl) ++ drop (Z.to_nat (pos tl)) (line tl).
Proof.
  intros Hp Hl. unfold backspace, line.
  destruct (Z.eqb_spec (pos tl) (buf_len tl)) as [He | He]; simpl.
  - split; [reflexivity |]. split; [reflexivity |].
    rewrite He, take_take, drop_ge, app_nil_r by (rewrite length_take; lia).
    unfold store. destruct (Z.ltb_spec (buf_len tl - 1) 0); [lia |].
    rewrite take_insert_ge by lia. f_equal. lia.
  - set (n := Z.to_nat (buf_len tl - pos tl + 1)).
    assert (Hfr : forall k t, buf (print_n k CUR_LEFT t) = buf t
                         /\ buf_len (print_n k CUR_LEFT t) = buf_len t
                         /\ pos (print_n k CUR_LEFT t) = pos t).
    { induction k as [| k IH]; intros t; simpl; [auto |].
      destruct (IH (print CUR_LEFT t)) as (-> & -> & ->). auto. }
    destruct (Hfr n (print (str " ")
      (print (cstr_at (memcpy (buf tl) (pos tl - 1)
                (bytes_at (buf tl) (pos tl) (buf_len tl - pos tl + 1))) (pos tl - 1))
         (print CUR_LEFT
            (set_buf (memcpy (buf tl) (pos tl - 1)
                (bytes_at (buf tl) (pos tl) (buf_len tl - pos tl + 1))) tl)))))
      as (Hb & Hbl & Hps).
    simpl in Hb, Hbl, Hps. rewrite Hb, Hbl, Hps.
    split; [reflexivity |]. split; [reflexivity |].
    apply list_eq_load.
    + rewrite length_app, !length_take, length_drop, length_take, length_memcpy. lia.
    + intros i Hi. rewrite length_take, length_memcpy in Hi.
      rewrite load_take by lia. rewrite load_memcpy, length_bytes_at, load_app.
      rewrite length_take, length_take.
      destruct (Z.leb_spec (pos tl - 1) i),
        (Z.ltb_spec i (pos tl - 1 + Z.of_nat (Z.to_nat (buf_len tl - pos tl + 1)))),
        (Z.leb_spec 0 i), (Z.ltb_spec i (Z.of_nat (length (buf tl)))),
        (Z.ltb_spec i (Z.of_nat (Z.to_nat (pos tl - 1)
                         `min` (Z.to_nat (buf_len tl) `min` length (buf tl)))));
        simpl; try lia.
      * rewrite nth_bytes_at by lia. rewrite load_drop by lia.
        rewrite load_take by lia. f_equal. lia.
      * rewrite !load_take by lia. reflexivity.
Qed.

(** C2 (as amended): with the cursor past the start of the line and no
    escape sequence in progress, byte 0x7F deletes the byte left of the
    cursor: [buf_len] and [pos] go down by one and the tail moves left.
    Byte 0x08 is not bound to anything: it is dropped and the engine stays
    as it was. *)
Theorem backspace_0x7f_deletes_0x08_dropped (hdr : t_header) strtof
  (tl : t_tokenline) :
  escape_len tl = 0 ->
  0 < pos tl <= buf_len tl ->
  buf_len tl < Z.of_nat (length (buf tl)) ->
  (exists tl', tl_input hdr strtof tl 127 = Some (TRUE, tl') /\
     buf_len tl' = buf_len tl - 1 /\
     pos tl' = pos tl - 1 /\
     line tl' =
       take (Z.to_nat (pos tl - 1)) (line tl) ++ drop (Z.to_nat (pos tl)) (line tl)) /\
  tl_input hdr strtof tl 8 = Some (TRUE, tl).
Proof.
  intros He Hp Hl. unfold tl_input. rewrite He. simpl.
  destruct (Z.eqb_spec (pos tl) 0) as [Hz | Hz]; [lia |]. simpl.
  split; [| reflexivity].
  exists (backspace tl). split; [reflexivity |].
  apply backspace_line; assumption.
Qed.

Lemma backspace_0x7f_deletes_0x08_dropped_witness :
  let tl := set_pos 2 (sample_after sample_hdr (str "abc")) in
  escape_len tl = 0 /\ 0 < pos tl <= buf_len tl /\
  buf_len tl < Z.of_nat (length (buf tl)) /\
  (exists tl', tl_input sample_hdr no_strtof tl 127 = Some (TRUE, tl') /\
     buf_len tl' = buf_len tl - 1 /\
     pos tl' = pos tl - 1 /\
     line tl' =
       take (Z.to_nat (pos tl - 1)) (line tl) ++ drop (Z.to_nat (pos tl)) (line tl)) /\
  tl_input sample_hdr no_strtof tl 8 = Some (TRUE, tl).
Proof.
  intros tl.
  assert (H1 : escape_len tl = 0) by reflexivity.
  assert (H2 : 0 < pos tl <= buf_len tl) by (vm_compute; split; congruence).
  assert (H3 : buf_len tl < Z.of_nat (length (buf tl))) by (vm_compute; reflexivity).
  split; [exact H1 |]. split; [exact H2 |]. split; [exact H3 |].
  exact (backspace_0x7f_deletes_0x08_dropped sample_hdr no_strtof tl H1 H2 H3).
Defined.

(** C2 as stated fails for byte 0x08: after the bytes [ab], with the cursor
    at 2, feeding 0x08 returns with the same engine, so nothing is deleted. *)
Lemma backspace_0x08_counterexample :
  let tl := sample_after sample_hdr (str "ab") in
  escape_len tl = 0 /\ pos tl = 2 /\ buf_len tl = 2 /\
  tl_input sample_hdr no_strtof tl 8 = Some (TRUE, tl) /\
  ~ (exists r tl', tl_input sample_hdr no_strtof tl 8 = Some (r, tl') /\
       buf_len tl' = buf_len tl - 1 /\ pos tl' = pos tl - 1).
Proof.
  intros tl.
  assert (H8 : tl_input sample_hdr no_strtof tl 8 = Some (TRUE, tl)) by reflexivity.
  repeat split; try reflexivity.
  intros (r & tl' & Hin & Hlen & _).
  rewrite H8 in Hin. injection Hin as _ <-.
  vm_compute in Hlen. discriminate.
Qed.

(** ** C strings *)

(** A C string holds no NUL byte. *)
Definition cstring (s : list Z) : Prop := Forall (fun c => c <> 0) s.

Lemma cstring_cstr m : cstring (cstr m).
Proof.
  induction m as [| c r IH]; simpl; [constructor |].
  destruct (Z.eqb_spec c 0); constructor; assumption.
Qed.

Lemma cstring_cstr_at m off : cstring (cstr_at m off).
Proof. unfold cstr_at. destruct (off <? 0); [constructor | apply cstring_cstr]. Qed.

Lemma cstring_dict_str dict t : cstring (dict_str dict t).
Proof.
  unfold dict_str. destruct (t <? 0); [constructor |].
  destruct (dict !! Z.to_nat t); [apply cstring_cstr | constructor].
Qed.

Lemma cstr_cstring s : cstring s -> cstr s = s.
Proof.
  induction 1 as [| c r Hc _ IH]; simpl; [reflexivity |].
  destruct (Z.eqb_spec c 0); [contradiction | congruence].
Qed.

Lemma strcmp_refl a : strcmp a a = 0.
Proof. induction a as [| x a IH]; simpl; [reflexivity |]. rewrite Z.eqb_refl. exact IH. Qed.

Lemma strcmp_eq a : forall b, cstring a -> cstring b -> strcmp a b = 0 -> a = b.
Proof.
  induction a as [| x a IH]; intros [| y b] Ha Hb Hc; simpl in Hc.
  - reflexivity.
  - inversion Hb; subst. lia.
  - inversion Ha; subst. lia.
  - inversion Ha; inversion Hb; subst.
    destruct (Z.eqb_spec x y); [| lia]. subst. f_equal. apply IH; assumption.
Qed.

Lemma strcmp_iff a b : cstring a -> cstring b -> (strcmp a b =? 0) = true <-> a = b.
Proof.
  intros Ha Hb. rewrite Z.eqb_eq. split.
  - apply strcmp_eq; assumption.
  - intros ->. apply strcmp_refl.
Qed.

Lemma strncmp_prefix a : forall b,
  cstring a -> cstring b ->
  strncmp a b (length a) = 0 <-> exists k, b = a ++ k.
Proof.
  induction a as [| x a IH]; intros b Ha Hb; simpl.
  - split; [intros _; exists b; reflexivity | reflexivity].
  - inversion Ha as [| ? ? Hx Ha']; subst. destruct b as [| y b].
    + split; [lia | intros [k Hk]; discriminate].
    + inversion Hb as [| ? ? Hy Hb']; subst.
      destruct (Z.eqb_spec x y) as [-> | Hne].
      * rewrite (IH b Ha' Hb'). split; intros [k Hk]; exists k; congruence.
      * split; [lia | intros [k Hk]; congruence].
Qed.

(** ** The token matcher *)

(** The entries of a token list: those before the sentinel. *)
Fixpoint entries (l : list t_token) : list t_token :=
  match l with
  | [] => []
  | e :: r => if token e =? 0 then [] else e :: entries r
  end.

(** The display string of an entry. *)
Definition display (dict : list t_token_dict) (e : t_token) : list Z :=
  dict_str dict (token e).

(** [d] strictly extends [w]. *)
Definition strict_prefix (w d : list Z) : Prop :=
  exists k, k <> [] /\ d = w ++ k.

(** The test of the second loop of [find_token]. *)
Definition is_partial (w d : list Z) : bool :=
  negb (strlen w >=? strlen d) && (strncmp w d (length w) =? 0).

Lemma is_partial_iff w d :
  cstring w -> cstring d -> is_partial w d = true <-> strict_prefix w d.
Proof.
  intros Hw Hd. unfold is_partial, strict_prefix, strlen.
  rewrite andb_true_iff, negb_true_iff, Z.eqb_eq, (strncmp_prefix w d Hw Hd).
  destruct (Z.geb_spec (Z.of_nat (length w)) (Z.of_nat (length d))) as [Hge | Hlt].
  - split; [intros [? _]; discriminate |].
    intros (k & Hk & ->). rewrite length_app in Hge.
    destruct k; [contradiction | simpl in Hge; lia].
  - split.
    + intros [_ [k ->]]. exists k. split; [| reflexivity].
      intros ->. rewrite app_nil_r in Hlt. lia.
    + intros (k & _ & ->). split; [reflexivity | exists k; reflexivity].
Qed.

(** The indices, counted from [i], of the entries that strictly extend [w]. *)
Fixpoint pmatches (dict : list t_token_dict) (l : list t_token) (i : Z)
  (w : list Z) : list Z :=
  match l with
  | [] => []
  | e :: r =>
      if token e =? 0 then []
      else if is_partial w (display dict e)
      then i :: pmatches dict r (i + 1) w
      else pmatches dict r (i + 1) w
  end.

Lemma find_partial_pmatches dict w l : forall i p,
  0 <= i ->
  find_partial dict l i p w =
  match pmatches dict l i w with
  | [] => p
  | [j] => if p =? -1 then j else -1
  | _ :: _ :: _ => -1
  end.
Proof.
  induction l as [| e r IH]; intros i p Hi; simpl; [reflexivity |].
  destruct (token e =? 0); [reflexivity |].
  unfold is_partial, display.
  destruct (strlen w >=? strlen (dict_str dict (token e))); simpl.
  - apply IH. lia.
  - destruct (strncmp w (dict_str dict (token e)) (length w) =? 0).
    + destruct (Z.eqb_spec p (-1)) as [-> | Hp]; simpl.
      * rewrite IH by lia.
        destruct (pmatches dict r (i + 1) w) as [| j [| j' t]]; try reflexivity.
        destruct (Z.eqb_spec i (-1)); [lia | reflexivity].
      * destruct (pmatches dict r (i + 1) w) as [| j t]; reflexivity.
    + apply IH. lia.
Qed.

Lemma in_pmatches dict w l : forall i j,
  In j (pmatches dict l i w) <->
  exists (k : nat) e, j = i + Z.of_nat k /\ entries l !! k = Some e
                      /\ is_partial w (display dict e) = true.
Proof.
  induction l as [| e r IH]; intros i j; simpl.
  - split; [contradiction | intros (k & e & _ & Hk & _); discriminate].
  - destruct (token e =? 0).
    + split; [contradiction | intros (k & e' & _ & Hk & _); discriminate].
    + assert (Hrec : In j (pmatches dict r (i + 1) w) <->
                exists (k : nat) e', j = i + Z.of_nat (S k)
                  /\ (e :: entries r) !! S k = Some e'
                  /\ is_partial w (display dict e') = true).
      { rewrite IH. split; intros (k & e' & Hj & Hk & Hp); exists k, e';
          (split; [lia | split; assumption]). }
      destruct (is_partial w (display dict e)) eqn:Hpe; simpl; rewrite ?Hrec.
      * split.
        -- intros [<- | (k & e' & Hj & Hk & Hp)].
           ++ exists O, e. split; [lia | split; [reflexivity | assumption]].
           ++ exists (S k), e'. auto.
        -- intros ([| k] & e' & Hj & Hk & Hp).
           ++ left. lia.
           ++ right. exists k, e'. auto.
      * split.
        -- intros (k & e' & Hj & Hk & Hp). exists (S k), e'. auto.
        -- intros ([| k] & e' & Hj & Hk & Hp).
           ++ simpl in Hk. injection Hk as <-. congruence.
           ++ exists k, e'. auto.
Qed.

Lemma pmatches_hd_lt dict w l : forall i j t,
  pmatches dict l i w = j :: t -> i <= j /\ forall j', In j' t -> j < j'.
Proof.
  induction l as [| e r IH]; intros i j t; simpl; [discriminate |].
  destruct (token e =? 0); [discriminate |].
  destruct (is_partial w (display dict e)).
  - intros [= <- <-]. split; [lia |].
    intros j' Hj'. apply in_pmatches in Hj' as (k & _ & -> & _). lia.
  - intros Hp. destruct (IH _ _ _ Hp) as [Hle Hlt]. split; [lia | exact Hlt].
Qed.

Lemma find_exact_some dict w l : cstring w -> forall i j,
  find_exact dict l i w = Some j ->
  exists (k : nat) e, j = i + Z.of_nat k /\ entries l !! k = Some e
    /\ display dict e = w
    /\ forall (k' : nat) e', (k' < k)%nat -> entries l !! k' = Some e' ->
         display dict e' <> w.
Proof.
  intros Hw. induction l as [| e r IH]; intros i j; simpl; [discriminate |].
  destruct (token e =? 0); [discriminate |].
  destruct (Z.eqb_spec (strcmp w (dict_str dict (token e))) 0) as [Hc | Hc].
  - intros [= <-]. exists O, e. split; [lia |]. split; [reflexivity |].
    split; [| intros; lia].
    symmetry. apply strcmp_eq; [exact Hw | apply cstring_dict_str | exact Hc].
  - intros Hf. destruct (IH _ _ Hf) as (k & e' & Hj & Hk & Hd & Hfirst).
    exists (S k), e'. split; [lia |]. split; [exact Hk |]. split; [exact Hd |].
    intros [| k'] e'' Hlt Hk'; simpl in Hk'.
    + injection Hk' as <-. intros Heq. apply Hc. unfold display in Heq.
      rewrite Heq. apply strcmp_refl.
    + apply (Hfirst k'); [lia | exact Hk'].
Qed.

Lemma find_exact_none dict w l : forall i,
  find_exact dict l i w = None ->
  forall (k : nat) e, entries l !! k = Some e -> display dict e <> w.
Proof.
  induction l as [| e r IH]; intros i; simpl; [intros _ k e Hk; discriminate |].
  destruct (token e =? 0); [intros _ k e' Hk; discriminate |].
  destruct (Z.eqb_spec (strcmp w (dict_str dict (token e))) 0) as [Hc | Hc];
    [discriminate |].
  intros Hf [| k] e' Hk; simpl in Hk.
  - injection Hk as <-. intros Heq. apply Hc. unfold display in Heq.
    rewrite Heq. apply strcmp_refl.
  - exact (IH _ Hf k e' Hk).
Qed.

Lemma find_exact_first dict w l : cstring w -> forall i (k : nat) e,
  entries l !! k = Some e -> display dict e = w ->
  (forall (k' : nat) e', (k' < k)%nat -> entries l !! k' = Some e' ->
     display dict e' <> w) ->
  find_exact dict l i w = Some (i + Z.of_nat k).
Proof.
  intros Hw i k e Hk Hd Hfirst.
  destruct (find_exact dict l i w) as [j |] eqn:Hf.
  - destruct (find_exact_some dict w l Hw i j Hf) as (k0 & e0 & -> & Hk0 & Hd0 & Hf0).
    destruct (Nat.lt_trichotomy k0 k) as [Hlt | [-> | Hgt]].
    + exfalso. exact (Hfirst k0 e0 Hlt Hk0 Hd0).
    + reflexivity.
    + exfalso. exact (Hf0 k e Hgt Hk Hd).
  - exfalso. exact (find_exact_none dict w l i Hf k e Hk Hd).
Qed.

(** C3: [find_token] on a token list [l] and a word [w].
    - If exactly one entry has the display string [w], its index is
      returned, wherever it stands and whatever other entries [w] is a
      prefix of.
    - If no entry has the display string [w] and exactly one entry strictly
      extends [w], the index of that entry is returned.
    - If no entry has the display string [w] and the entries that strictly
      extend [w] are none or several, the result is -1.
    - A result other than -1 is the index of an entry that equals [w] or
      strictly extends it. *)
Theorem find_token_exact_or_unique_prefix (dict : list t_token_dict)
  (l : list t_token) (w : list Z) :
  cstring w ->
  (forall (k : nat) e,
     entries l !! k = Some e -> display dict e = w ->
     (forall (k' : nat) e', entries l !! k' = Some e' -> display dict e' = w -> k' = k) ->
     find_token l dict w = Z.of_nat k) /\
  ((forall (k : nat) e, entries l !! k = Some e -> display dict e <> w) ->
   (forall (k : nat) e,
      entries l !! k = Some e -> strict_prefix w (display dict e) ->
      (forall (k' : nat) e', entries l !! k' = Some e' ->
         strict_prefix w (display dict e') -> k' = k) ->
      find_token l dict w = Z.of_nat k) /\
   (~ (exists (k : nat) e,
         entries l !! k = Some e /\ strict_prefix w (display dict e) /\
         forall (k' : nat) e', entries l !! k' = Some e' ->
           strict_prefix w (display dict e') -> k' = k) ->
    find_token l dict w = -1)) /\
  (forall i, find_token l dict w = i -> i <> -1 ->
     exists (k : nat) e, i = Z.of_nat k /\ entries l !! k = Some e /\
       (display dict e = w \/ strict_prefix w (display dict e))).
Proof.
  intros Hw.
  assert (Hpi : forall e, is_partial w (display dict e) = true
                          <-> strict_prefix w (display dict e)).
  { intros e. apply is_partial_iff; [exact Hw | apply cstring_dict_str]. }
  assert (Hnone : (forall (k : nat) e, entries l !! k = Some e -> display dict e <> w) ->
                  find_exact dict l 0 w = None).
  { intros Hno. destruct (find_exact dict l 0 w) as [j |] eqn:Hf; [| reflexivity].
    destruct (find_exact_some dict w l Hw 0 j Hf) as (k & e & _ & Hk & Hd & _).
    exfalso. exact (Hno k e Hk Hd). }
  split; [| split].
  - intros k e Hk Hd Huniq. unfold find_token.
    rewrite (find_exact_first dict w l Hw 0 k e Hk Hd); [lia |].
    intros k' e' Hlt Hk' Hd'. specialize (Huniq k' e' Hk' Hd'). lia.
  - intros Hno. unfold find_token. rewrite (Hnone Hno).
    rewrite find_partial_pmatches by lia. split.
    + intros k e Hk Hsp Huniq.
      assert (Hin : In (Z.of_nat k) (pmatches dict l 0 w)).
      { apply in_pmatches. exists k, e. split; [lia |]. split; [exact Hk |].
        apply Hpi. exact Hsp. }
      assert (Hall : forall j, In j (pmatches dict l 0 w) -> j = Z.of_nat k).
      { intros j Hj. apply in_pmatches in Hj as (k' & e' & -> & Hk' & Hp').
        rewrite (Huniq k' e' Hk' (proj1 (Hpi e') Hp')). lia. }
      destruct (pmatches dict l 0 w) as [| j [| j' t]] eqn:Hpm.
      * contradiction.
      * simpl. apply Hall. left. reflexivity.
      * exfalso. destruct (pmatches_hd_lt _ _ _ _ _ _ Hpm) as [_ Hlt].
        specialize (Hlt j' (or_introl eq_refl)).
        rewrite (Hall j (or_introl eq_refl)) in Hlt.
        rewrite (Hall j' (or_intror (or_introl eq_refl))) in Hlt. lia.
    + intros Hnot.
      destruct (pmatches dict l 0 w) as [| j [| j' t]] eqn:Hpm; try reflexivity.
      exfalso. apply Hnot.
      assert (Hin : In j (pmatches dict l 0 w)) by (rewrite Hpm; left; reflexivity).
      apply in_pmatches in Hin as (k & e & Hj & Hk & Hp).
      exists k, e. split; [exact Hk |]. split; [apply Hpi; exact Hp |].
      intros k' e' Hk' Hsp'.
      assert (Hin' : In (Z.of_nat k') (pmatches dict l 0 w)).
      { apply in_pmatches. exists k', e'. split; [lia |]. split; [exact Hk' |].
        apply Hpi. exact Hsp'. }
      rewrite Hpm in Hin'. destruct Hin' as [Heq | []]. lia.
  - intros i Hi Hne. unfold find_token in Hi.
    destruct (find_exact dict l 0 w) as [j |] eqn:Hf.
    + destruct (find_exact_some dict w l Hw 0 j Hf) as (k & e & Hj & Hk & Hd & _).
      exists k, e. split; [lia |]. split; [exact Hk |]. left. exact Hd.
    + rewrite find_partial_pmatches in Hi by lia.
      destruct (pmatches dict l 0 w) as [| j [| j' t]] eqn:Hpm; simpl in Hi; try lia.
      assert (Hin : In j (pmatches dict l 0 w)) by (rewrite Hpm; left; reflexivity).
      apply in_pmatches in Hin as (k & e & Hj & Hk & Hp).
      exists k, e. split; [lia |]. split; [exact Hk |]. right. apply Hpi. exact Hp.
Qed.

Lemma find_token_exact_or_unique_prefix_witness :
  cstring (str "sho") /\
  forall i, find_token sample_tokens sample_dict (str "sho") = i -> i <> -1 ->
    exists (k : nat) e, i = Z.of_nat k /\ entries sample_tokens !! k = Some e /\
      (display sample_dict e = str "sho"
       \/ strict_prefix (str "sho") (display sample_dict e)).
Proof.
  assert (H : cstring (str "sho")) by (repeat constructor; discriminate).
  split; [exact H |].
  exact (proj2 (proj2
    (find_token_exact_or_unique_prefix sample_dict sample_tokens (str "sho") H))).
Defined.

(** When several entries have the display string [w], the first of them is
    returned. *)
Lemma find_token_first_exact (dict : list t_token_dict) (l : list t_token)
  (w : list Z) (k : nat) e :
  cstring w ->
  entries l !! k = Some e -> display dict e = w ->
  (forall (k' : nat) e', (k' < k)%nat -> entries l !! k' = Some e' ->
     display dict e' <> w) ->
  find_token l dict w = Z.of_nat k.
Proof.
  intros Hw Hk Hd Hfirst. unfold find_token.
  rewrite (find_exact_first dict w l Hw 0 k e Hk Hd Hfirst). lia.
Qed.

(** ** Integer arguments *)

Lemma int_of_long_range v : - 2 ^ 31 <= int_of_long v < 2 ^ 31.
Proof.
  unfold int_of_long.
  pose proof (Z.mod_pos_bound v (2 ^ 32) ltac:(lia)).
  destruct (Z.ltb_spec (v mod 2 ^ 32) (2 ^ 31)); lia.
Qed.

Lemma int_of_long_id v : - 2 ^ 31 <= v < 2 ^ 31 -> int_of_long v = v.
Proof.
  intros Hv. unfold int_of_long.
  destruct (Z.le_gt_cases 0 v).
  - rewrite Z.mod_small by lia. destruct (Z.ltb_spec v (2 ^ 31)); lia.
  - replace (v mod 2 ^ 32) with (v + 2 ^ 32).
    + destruct (Z.ltb_spec (v + 2 ^ 32) (2 ^ 31)); lia.
    + apply (Z.mod_unique _ _ (-1)); lia.
Qed.

(** The bytes of an [int] written to memory are read back as that [int]. *)
Lemma int_at_int_bytes m off v :
  0 <= off -> off + sizeof_int <= Z.of_nat (length m) ->
  - 2 ^ 31 <= v < 2 ^ 31 ->
  int_at (memcpy m off (int_bytes v)) off = v.
Proof.
  intros Ho Hl Hv. unfold int_at, bytes_at, sizeof_int in *.
  change (Z.to_nat 4) with 4%nat. cbn [map seq].
  rewrite !load_memcpy. unfold int_bytes, sizeof_int.
  change (Z.to_nat 4) with 4%nat. cbn [map seq length].
  change (Z.of_nat 0) with 0. change (Z.of_nat 1) with 1.
  change (Z.of_nat 2) with 2. change (Z.of_nat 3) with 3. change (Z.of_nat 4) with 4.
  repeat match goal with
  | |- context [if ?c then _ else _] =>
      let E := fresh in
      destruct c eqn:E;
      [| exfalso; revert E; rewrite !andb_false_iff, !Z.leb_gt, !Z.ltb_ge; lia]
  end.
  replace (Z.to_nat (off + 0 - off)) with 0%nat by lia.
  replace (Z.to_nat (off + 1 - off)) with 1%nat by lia.
  replace (Z.to_nat (off + 2 - off)) with 2%nat by lia.
  replace (Z.to_nat (off + 3 - off)) with 3%nat by lia.
  cbn [nth foldr].
  change 255 with (Z.ones 8). rewrite !Z.land_ones, !Z.shiftr_div_pow2 by lia.
  change (8 * 0) with 0. change (8 * 1) with 8. change (8 * 2) with 16. change (8 * 3) with 24.
  change (2 ^ 0) with 1. rewrite Z.div_1_r.
  assert (Hm : v mod 2 ^ 8 + 256 * ((v / 2 ^ 8) mod 2 ^ 8
                 + 256 * ((v / 2 ^ 16) mod 2 ^ 8
                 + 256 * ((v / 2 ^ 24) mod 2 ^ 8 + 256 * 0))) = v mod 2 ^ 32).
  { change (2 ^ 8) with 256. change (2 ^ 16) with (256 * 256).
    change (2 ^ 24) with (256 * 256 * 256). change (2 ^ 32) with (256 * 256 * 256 * 256).
    rewrite <- !Z.div_div by lia.
    set (q1 := v / 256). set (q2 := q1 / 256). set (q3 := q2 / 256).
    rewrite (Z.mul_comm (256 * 256 * 256) 256).
    rewrite (Z.rem_mul_r v 256 (256 * 256 * 256)) by lia. fold q1.
    rewrite (Z.mul_comm (256 * 256) 256).
    rewrite (Z.rem_mul_r q1 256 (256 * 256)) by lia. fold q2.
    rewrite (Z.rem_mul_r q2 256 256) by lia. fold q3. lia. }
  rewrite Hm. rewrite <- (int_of_long_id v Hv) at 2.
  unfold int_of_long. rewrite Z.mod_mod by lia. reflexivity.
Qed.

(** Six commands [set] with their integer argument on one line: twelve
    words, which [split_line] accepts, and eighteen stream entries before
    the terminating 0. *)
Definition six_sets_line : list Z := str "set 1 set 2 set 3 set 4 set 5 set 6".

(** C6: the line [six_sets_line] is split into twelve words and [tokenize]
    succeeds on it, but the walker ends at stream index 18 while the array
    [tokens] has [TL_MAX_WORDS] = 16 entries: the tag and the offset of the
    sixth argument and the terminating 0 are written at the indices 16, 17
    and 18, past the end of the array.  The callback is invoked once; the
    stream it finds in [tokens] ends with the id of the sixth [set], without
    a tag, an offset or a terminating 0 behind it, although the value 6 was
    stored at offset 20 of the argument storage. *)
Theorem integer_stream_overruns_tokens :
  exists words tl1 w tl2 p,
    split_line sample_hdr (sample_after sample_hdr six_sets_line) false
      = (true, words, tl1) /\
    length words = 12%nat /\
    tokenize_loop sample_hdr no_strtof false words
      (mk_walk false 0 None [sample_tokens] 0 0) tl1 = (Some w, tl2) /\
    cur_tp w = 18 /\
    Z.of_nat (length (tokens (parsed tl2))) = TL_MAX_WORDS sample_hdr /\
    TL_MAX_WORDS sample_hdr = 16 /\
    called (sample_after sample_hdr (six_sets_line ++ [13])) = [p] /\
    tokens p = [3; TARG_INT sample_hdr; 0; 3; TARG_INT sample_hdr; 4;
                3; TARG_INT sample_hdr; 8; 3; TARG_INT sample_hdr; 12;
                3; TARG_INT sample_hdr; 16; 3] /\
    int_at (p_buf p) 20 = 6.
Proof.
  eexists _, _, _, _, _.
  split; [vm_compute; reflexivity |].
  split; [reflexivity |].
  split; [vm_compute; reflexivity |].
  split; [reflexivity |].
  split; [reflexivity |].
  split; [reflexivity |].
  split; [vm_compute; reflexivity |].
  split; [reflexivity | vm_compute; reflexivity].
Qed.

(** The line [set 0x2A] after [split_line]. *)
Definition set_0x2A_split : t_tokenline :=
  set_buf_len 8
    (set_buf (memcpy (buf (sample_tl sample_hdr)) 0
                (str "set" ++ [0] ++ str "0x2A" ++ [0]))
       (sample_tl sample_hdr)).

(** The bytes [set 0x2A] and a carriage return: the callback is invoked once,
    with the token stream [3; TARG_INT; 0; 0] and the [int] 42 at offset 0 of
    the argument storage. *)
Example set_0x2A_submitted :
  exists p,
    called (sample_after sample_hdr (str "set 0x2A" ++ [13])) = [p] /\
    take 4 (tokens p) = [3; TARG_INT sample_hdr; 0; 0] /\
    int_at (p_buf p) 0 = 42.
Proof. eexists. split; [vm_compute; reflexivity |]. split; reflexivity. Qed.

(** ** Split and unsplit on a quote inside a word *)

(** The line [a'b c] with a double quote (byte 34) for the [']: a quote
    in the middle of an unquoted word. *)
Definition stray_quote_line : list Z := [97; 34; 98; 32; 99].

(** C1: [split_line] accepts [stray_quote_line] (two words, the space
    replaced by NUL), and [unsplit_line] then turns the NUL into a double
    quote: the line buffer holds a, quote, b, quote, c and not what it held
    before.  [buf_len] is unchanged. *)
Theorem split_unsplit_stray_quote :
  exists words tl',
    line (sample_after sample_hdr stray_quote_line) = [97; 34; 98; 32; 99] /\
    split_line sample_hdr (sample_after sample_hdr stray_quote_line) true
      = (true, words, tl') /\
    words = [0; 4] /\
    line tl' = [97; 34; 98; 0; 99] /\
    line (unsplit_line tl') = [97; 34; 98; 34; 99] /\
    buf (unsplit_line tl') <> buf (sample_after sample_hdr stray_quote_line) /\
    buf_len tl' = buf_len (sample_after sample_hdr stray_quote_line) /\
    buf_len (unsplit_line tl') = buf_len (sample_after sample_hdr stray_quote_line).
Proof.
  eexists _, _. split; [reflexivity |]. split; [vm_compute; reflexivity |].
  split; [reflexivity |]. split; [reflexivity |]. split; [reflexivity |].
  split; [| split; reflexivity].
  vm_compute. discriminate.
Qed.

(** C10: with the cursor at the end of [stray_quote_line], TAB finds no
    token to complete (the first word is no command) and still changes the
    line buffer: the space becomes a double quote.  Length and cursor are
    unchanged. *)
Theorem tab_changes_stray_quote_line :
  exists tl',
    pos (sample_after sample_hdr stray_quote_line)
      = buf_len (sample_after sample_hdr stray_quote_line) /\
    escape_len (sample_after sample_hdr stray_quote_line) = 0 /\
    line (sample_after sample_hdr stray_quote_line) = [97; 34; 98; 32; 99] /\
    tl_input sample_hdr no_strtof (sample_after sample_hdr stray_quote_line) 9
      = Some (TRUE, tl') /\
    line tl' = [97; 34; 98; 34; 99] /\
    buf_len tl' = buf_len (sample_after sample_hdr stray_quote_line) /\
    pos tl' = pos (sample_after sample_hdr stray_quote_line).
Proof.
  eexists. split; [reflexivity |]. split; [reflexivity |]. split; [reflexivity |].
  split; [vm_compute; reflexivity |]. repeat split; reflexivity.
Qed.

(** ** The line length and tab completion *)

(** 123 spaces and [sho]: a line of 126 bytes, two short of the limit that
    [tl_input] enforces on typed bytes. *)
Definition long_sho_line : list Z := repeat 32 123 ++ str "sho".

(** C4: after [long_sho_line] the line has 126 bytes.  TAB then completes
    [sho] to [show] and appends a space without looking at the room left:
    [buf_len] and [pos] are 128, the size of [buf], and the terminating NUL
    is written past the end of the array.  So [buf_len < TL_MAX_LINE_LEN]
    does not hold after that byte. *)
Theorem tab_completion_overflows_line :
  exists r tl',
    buf_len (sample_after sample_hdr long_sho_line) = 126 /\
    tl_feed sample_hdr no_strtof (sample_tl sample_hdr) (long_sho_line ++ [9])
      = Some (r, tl') /\
    buf_len tl' = 128 /\ pos tl' = 128 /\
    Z.of_nat (length (buf tl')) = TL_MAX_LINE_LEN sample_hdr /\
    ~ buf_len tl' < TL_MAX_LINE_LEN sample_hdr.
Proof.
  eexists _, _. split; [reflexivity |]. split; [vm_compute; reflexivity |].
  split; [reflexivity |]. split; [reflexivity |]. split; [reflexivity |].
  vm_compute. discriminate.
Qed.

(** * Further properties of the editor *)

(** ** What the line editing functions leave alone *)

(** [line_frame tl tl']: [tl'] differs from [tl] at most in the line buffer,
    its length, the cursor and the print log. *)
Definition line_frame (tl tl' : t_tokenline) : Prop :=
  set_printed (printed tl) (set_pos (pos tl) (set_buf_len (buf_len tl)
    (set_buf (buf tl) tl'))) = tl.

Lemma line_frame_refl tl : line_frame tl tl.
Proof. destruct tl; reflexivity. Qed.

Lemma line_frame_trans a b c : line_frame a b -> line_frame b c -> line_frame a c.
Proof.
  unfold line_frame. intros Hab Hbc. rewrite <- Hab at 5. rewrite <- Hbc at 1.
  destruct c; reflexivity.
Qed.

Lemma line_frame_fields tl tl' :
  line_frame tl tl' ->
  hist_buf tl' = hist_buf tl /\ hist_begin tl' = hist_begin tl /\
  hist_end tl' = hist_end tl /\ hist_step tl' = hist_step tl /\
  escape tl' = escape tl /\ escape_len tl' = escape_len tl /\
  called tl' = called tl /\ parsed tl' = parsed tl /\ prompt tl' = prompt tl /\
  callback tl' = callback tl /\ token_dict tl' = token_dict tl /\
  token_levels tl' = token_levels tl /\ token_level tl' = token_level tl.
Proof.
  unfold line_frame. intros H. rewrite <- H. destruct tl'; simpl.
  repeat split; reflexivity.
Qed.

Lemma line_frame_print s tl : line_frame tl (print s tl).
Proof. destruct tl; reflexivity. Qed.

Lemma line_frame_set_buf b tl : line_frame tl (set_buf b tl).
Proof. destruct tl; reflexivity. Qed.

Lemma line_frame_set_buf_len n tl : line_frame tl (set_buf_len n tl).
Proof. destruct tl; reflexivity. Qed.

Lemma line_frame_set_pos n tl : line_frame tl (set_pos n tl).
Proof. destruct tl; reflexivity. Qed.

Lemma print_n_fields n s : forall tl,
  line_frame tl (print_n n s tl) /\ buf (print_n n s tl) = buf tl /\
  buf_len (print_n n s tl) = buf_len tl /\ pos (print_n n s tl) = pos tl.
Proof.
  induction n as [| n IH]; intros tl; simpl.
  - repeat split. apply line_frame_refl.
  - destruct (IH (print s tl)) as (Hf & -> & -> & ->). repeat split.
    eapply line_frame_trans; [apply line_frame_print | exact Hf].
Qed.

Lemma line_frame_print_n n s tl : line_frame tl (print_n n s tl).
Proof. apply print_n_fields. Qed.

(** Peels the setters and prints off the engine on the right. *)
Ltac frame :=
  cbv zeta;
  repeat match goal with
  | |- line_frame ?a ?a => apply line_frame_refl
  | |- line_frame _ (print_n _ _ _) =>
      eapply line_frame_trans; [| apply line_frame_print_n]
  | |- line_frame _ (print _ _) =>
      eapply line_frame_trans; [| apply line_frame_print]
  | |- line_frame _ (set_buf _ _) =>
      eapply line_frame_trans; [| apply line_frame_set_buf]
  | |- line_frame _ (set_buf_len _ _) =>
      eapply line_frame_trans; [| apply line_frame_set_buf_len]
  | |- line_frame _ (set_pos _ _) =>
      eapply line_frame_trans; [| apply line_frame_set_pos]
  end.

Lemma line_frame_backspace tl : line_frame tl (backspace tl).
Proof. unfold backspace. destruct (pos tl =? buf_len tl); frame. Qed.

Lemma line_frame_add_char tl c : line_frame tl (add_char tl c).
Proof. unfold add_char. destruct (pos tl =? buf_len tl); frame. Qed.

Lemma line_frame_set_line hdr tl l : line_frame tl (set_line hdr tl l).
Proof.
  unfold set_line. destruct (strlen l >? TL_MAX_LINE_LEN hdr - 1).
  - apply line_frame_add_char.
  - destruct (pos tl =? buf_len tl); frame.
Qed.

Lemma line_frame_cursor_end_loop n : forall tl, line_frame tl (cursor_end_loop n tl).
Proof.
  induction n as [| n IH]; intros tl; simpl; [frame |].
  destruct (pos tl <? buf_len tl); [| frame].
  eapply line_frame_trans; [| apply IH]. frame.
Qed.

Lemma line_frame_backspace_loop n : forall tl, line_frame tl (backspace_loop n tl).
Proof.
  induction n as [| n IH]; intros tl; simpl; [frame |].
  destruct (pos tl =? 0); [frame |].
  eapply line_frame_trans; [apply line_frame_backspace | apply IH].
Qed.

Lemma line_frame_delete_line tl : line_frame tl (delete_line tl).
Proof.
  unfold delete_line, cursor_end.
  eapply line_frame_trans; [apply line_frame_cursor_end_loop |].
  apply line_frame_backspace_loop.
Qed.

(** The line buffer is well formed: the cursor is inside the line and the
    line leaves room for its terminating NUL. *)
Definition line_ok (tl : t_tokenline) : Prop :=
  0 <= pos tl <= buf_len tl /\ buf_len tl < Z.of_nat (length (buf tl)).

Lemma cursor_end_loop_fields n : forall tl,
  n = Z.to_nat (buf_len tl - pos tl) ->
  pos tl <= buf_len tl ->
  pos (cursor_end_loop n tl) = buf_len tl /\
  buf_len (cursor_end_loop n tl) = buf_len tl /\
  buf (cursor_end_loop n tl) = buf tl.
Proof.
  induction n as [| n IH]; intros tl Hn Hp; simpl.
  - repeat split. lia.
  - destruct (Z.ltb_spec (pos tl) (buf_len tl)); [| lia].
    destruct (IH (print CUR_RIGHT (set_pos (pos tl + 1) tl))) as (H1 & H2 & H3);
      simpl; try lia.
    simpl in H1, H2, H3. auto.
Qed.

Lemma backspace_loop_empties n : forall tl,
  n = Z.to_nat (pos tl) -> pos tl = buf_len tl -> 0 <= pos tl ->
  pos (backspace_loop n tl) = 0 /\ buf_len (backspace_loop n tl) = 0 /\
  length (buf (backspace_loop n tl)) = length (buf tl).
Proof.
  induction n as [| n IH]; intros tl Hn Hp H0; simpl.
  - repeat split; lia.
  - destruct (Z.eqb_spec (pos tl) 0); [lia |].
    assert (Hb : pos (backspace tl) = pos tl - 1
                 /\ buf_len (backspace tl) = buf_len tl - 1
                 /\ length (buf (backspace tl)) = length (buf tl)).
    { unfold backspace. rewrite Hp, Z.eqb_refl. simpl.
      split; [lia |]. split; [reflexivity |]. apply length_store. }
    destruct Hb as (Hb1 & Hb2 & Hb3).
    destruct (IH (backspace tl)) as (H1 & H2 & H3); lia.
Qed.

(** [delete_line] empties a well-formed line. *)
Lemma delete_line_empties tl :
  line_ok tl ->
  pos (delete_line tl) = 0 /\ buf_len (delete_line tl) = 0 /\
  length (buf (delete_line tl)) = length (buf tl) /\
  line_frame tl (delete_line tl).
Proof.
  intros [Hp Hl]. unfold delete_line, cursor_end.
  destruct (cursor_end_loop_fields _ tl eq_refl ltac:(lia)) as (H1 & H2 & H3).
  destruct (backspace_loop_empties _ (cursor_end_loop (Z.to_nat (buf_len tl - pos tl)) tl)
              eq_refl ltac:(lia) ltac:(lia)) as (H4 & H5 & H6).
  rewrite H4, H5, H6, H3. repeat split.
  apply line_frame_delete_line.
Qed.

(** ** Reading arrays that were built from others *)

Lemma load_take_if m n i :
  load (take n m) i = if i <? Z.of_nat n then load m i else 0.
Proof.
  destruct (Z.ltb_spec i (Z.of_nat n)).
  - destruct (Z.le_gt_cases 0 i); [apply load_take; lia |].
    rewrite !load_neg by lia. reflexivity.
  - apply load_out. rewrite length_take. lia.
Qed.

Lemma load_drop_if m n i :
  load (drop n m) i = if i <? 0 then 0 else load m (Z.of_nat n + i).
Proof.
  destruct (Z.ltb_spec i 0); [apply load_neg; lia | apply load_drop; lia].
Qed.

Lemma load_cons c r i : load (c :: r) i = if i =? 0 then c else load r (i - 1).
Proof.
  destruct (Z.eqb_spec i 0) as [-> | Hi]; [reflexivity |].
  destruct (Z.le_gt_cases 0 i).
  - unfold load. destruct (Z.ltb_spec i 0), (Z.ltb_spec (i - 1) 0); try lia.
    replace (Z.to_nat i) with (S (Z.to_nat (i - 1))) by lia. reflexivity.
  - rewrite !load_neg by lia. reflexivity.
Qed.

Lemma load_nil i : load [] i = 0.
Proof. unfold load. destruct (i <? 0); reflexivity. Qed.

Lemma nth_load (m : list Z) k : nth k m 0 = load m (Z.of_nat k).
Proof.
  unfold load. destruct (Z.of_nat k <? 0) eqn:E; [apply Z.ltb_lt in E; lia |].
  rewrite Nat2Z.id. clear E. revert k.
  induction m as [| c r IH]; intros [| k]; simpl; auto.
Qed.

Lemma load_bytes_at m off n i :
  load (bytes_at m off n) i = if (0 <=? i) && (i <? n) then load m (off + i) else 0.
Proof.
  destruct (Z.leb_spec 0 i), (Z.ltb_spec i n); cbn.
  - rewrite <- (Z2Nat.id i) at 1 by lia. rewrite <- nth_load, nth_bytes_at by lia.
    f_equal. lia.
  - apply load_out. rewrite length_bytes_at. lia.
  - apply load_neg. lia.
  - apply load_neg. lia.
Qed.

Lemma load_memcpy_if src m off j :
  load (memcpy m off src) j =
  if (off <=? j) && (j <? off + Z.of_nat (length src))
     && (0 <=? j) && (j <? Z.of_nat (length m))
  then load src (j - off) else load m j.
Proof.
  rewrite load_memcpy.
  destruct (Z.leb_spec off j); cbn; [| reflexivity].
  destruct (Z.ltb_spec j (off + Z.of_nat (length src))); cbn; [| reflexivity].
  destruct (Z.leb_spec 0 j); cbn; [| reflexivity].
  destruct (Z.ltb_spec j (Z.of_nat (length m))); cbn; [| reflexivity].
  rewrite nth_load. f_equal. lia.
Qed.

(** Lengths and reads of composed arrays, then a case for every test. *)
Ltac lens :=
  repeat (rewrite ?length_app, ?length_take, ?length_drop, ?length_store,
            ?length_memcpy, ?length_bytes_at, ?length_cons, ?length_nil).

Ltac loads :=
  repeat (rewrite ?load_store, ?load_memcpy_if, ?load_app, ?load_take_if,
            ?load_drop_if, ?load_cons, ?load_nil, ?load_bytes_at; lens).

Ltac tests :=
  repeat match goal with
  | |- context [?a <? ?b] => destruct (Z.ltb_spec a b)
  | |- context [?a <=? ?b] => destruct (Z.leb_spec a b)
  | |- context [?a =? ?b] => destruct (Z.eqb_spec a b)
  end; cbn [andb orb negb].

Ltac same_load :=
  first [ reflexivity | lia | (f_equal; lia) | (symmetry; apply load_out; lens; lia)
        | (apply load_out; lens; lia) ].

Ltac arrays_eq :=
  apply list_eq_load;
  [ lens; cbn [length]; lia
  | let i := fresh "i" in let Hi := fresh "Hi" in
    intros i Hi; revert Hi; lens; cbn [length]; intros Hi;
    loads; tests; try same_load ].

Lemma buf_print_n n s tl : buf (print_n n s tl) = buf tl.
Proof. apply print_n_fields. Qed.

Lemma buf_len_print_n n s tl : buf_len (print_n n s tl) = buf_len tl.
Proof. apply print_n_fields. Qed.

Lemma pos_print_n n s tl : pos (print_n n s tl) = pos tl.
Proof. apply print_n_fields. Qed.

(** The line is well formed and terminated by a NUL. *)
Definition line_wf (tl : t_tokenline) : Prop :=
  line_ok tl /\ load (buf tl) (buf_len tl) = 0.

Lemma length_line tl : line_ok tl -> length (line tl) = Z.to_nat (buf_len tl).
Proof. intros [_ Hl]. unfold line. rewrite length_take. lia. Qed.

(** [add_char] inserts the byte at the cursor. *)
Lemma add_char_inserts (tl : t_tokenline) (c : Z) :
  line_wf tl -> buf_len tl + 1 < Z.of_nat (length (buf tl)) ->
  line (add_char tl c) =
    take (Z.to_nat (pos tl)) (line tl) ++ c :: drop (Z.to_nat (pos tl)) (line tl) /\
  buf_len (add_char tl c) = buf_len tl + 1 /\
  pos (add_char tl c) = pos tl + 1 /\
  load (buf (add_char tl c)) (buf_len tl + 1) = 0 /\
  length (buf (add_char tl c)) = length (buf tl).
Proof.
  intros [[Hp Hl] Hz] Hroom. unfold add_char, line.
  destruct (Z.eqb_spec (pos tl) (buf_len tl)) as [He | He]; cbn.
  - repeat split.
    + arrays_eq.
    + loads. tests; try same_load.
    + lens. reflexivity.
  - rewrite !buf_print_n, !buf_len_print_n, !pos_print_n. cbn.
    repeat split.
    + arrays_eq.
    + loads. tests; try same_load; rewrite <- Hz; f_equal; lia.
    + lens. reflexivity.
Qed.

Lemma backspace_terminated (tl : t_tokenline) :
  line_wf tl -> 0 < pos tl ->
  load (buf (backspace tl)) (buf_len tl - 1) = 0 /\
  length (buf (backspace tl)) = length (buf tl).
Proof.
  intros [[Hp Hl] Hz] Hpos. unfold backspace.
  destruct (Z.eqb_spec (pos tl) (buf_len tl)) as [He | He]; cbn.
  - split; [| lens; reflexivity]. loads. tests; try same_load.
  - rewrite !buf_print_n. cbn. split; [| lens; reflexivity].
    loads. tests; try same_load; rewrite <- Hz; f_equal; lia.
Qed.

Lemma backspace_wf (tl : t_tokenline) :
  line_wf tl -> 0 < pos tl -> line_wf (backspace tl).
Proof.
  intros Hwf Hpos.
  destruct (backspace_terminated tl Hwf Hpos) as [Hz Hlen].
  destruct Hwf as [[Hp Hl] _].
  destruct (backspace_line tl ltac:(lia) Hl) as (Hbl & Hps & _).
  unfold line_wf, line_ok. rewrite Hbl, Hps, Hlen. repeat split; first [lia | exact Hz].
Qed.

Lemma add_char_wf (tl : t_tokenline) (c : Z) :
  line_wf tl -> buf_len tl + 1 < Z.of_nat (length (buf tl)) ->
  line_wf (add_char tl c).
Proof.
  intros Hwf Hroom.
  destruct (add_char_inserts tl c Hwf Hroom) as (_ & Hbl & Hps & Hz & Hlen).
  destruct Hwf as [[Hp Hl] _].
  unfold line_wf, line_ok. rewrite Hbl, Hps, Hlen. repeat split; first [lia | exact Hz].
Qed.

Lemma take_drop_inserted (l : list Z) (n : nat) (c : Z) :
  (n <= length l)%nat ->
  take n (take n l ++ c :: drop n l) ++ drop (S n) (take n l ++ c :: drop n l) = l.
Proof.
  intros Hn.
  assert (Hl : length (take n l) = n) by (rewrite length_take; lia).
  rewrite take_app_length' by (symmetry; exact Hl).
  replace (S n) with (n + 1)%nat by lia.
  rewrite (drop_app_add' (take n l) (c :: drop n l) n 1) by (symmetry; exact Hl).
  cbn [drop]. rewrite drop_0. apply take_drop.
Qed.

(** ** The dispatcher on printable bytes *)

Lemma tl_input_printable hdr strtof (tl : t_tokenline) (c : Z) :
  escape_len tl = 0 -> 32 <= c <= 126 ->
  tl_input hdr strtof tl c =
    Some (TRUE, set_hist_step (-1)
                  (if buf_len tl <? TL_MAX_LINE_LEN hdr - 1 then add_char tl c else tl)).
Proof.
  intros He Hc. unfold tl_input. rewrite He. cbn [Z.eqb negb].
  repeat match goal with
  | |- context [c =? ?k] => destruct (Z.eqb_spec c k); [lia |]
  end.
  cbn [orb].
  destruct (Z.geb_spec c 32); [| lia]. destruct (Z.leb_spec c 126); [| lia].
  reflexivity.
Qed.

(** A printable byte is inserted at the cursor and ends a history walk; when
    the line is full the byte is dropped (the history walk still ends). *)
Theorem printable_byte_inserted hdr strtof (tl : t_tokenline) (c : Z) :
  escape_len tl = 0 -> line_wf tl ->
  Z.of_nat (length (buf tl)) = TL_MAX_LINE_LEN hdr ->
  32 <= c <= 126 ->
  exists tl', tl_input hdr strtof tl c = Some (TRUE, tl') /\
    hist_step tl' = -1 /\ line_wf tl' /\
    (buf_len tl < TL_MAX_LINE_LEN hdr - 1 ->
       line tl' = take (Z.to_nat (pos tl)) (line tl)
                    ++ c :: drop (Z.to_nat (pos tl)) (line tl) /\
       buf_len tl' = buf_len tl + 1 /\ pos tl' = pos tl + 1) /\
    (TL_MAX_LINE_LEN hdr - 1 <= buf_len tl -> tl' = set_hist_step (-1) tl).
Proof.
  intros He Hwf Hlen Hc. rewrite (tl_input_printable hdr strtof tl c He Hc).
  eexists. split; [reflexivity |].
  destruct (Z.ltb_spec (buf_len tl) (TL_MAX_LINE_LEN hdr - 1)) as [Hroom | Hfull].
  - destruct (add_char_inserts tl c Hwf ltac:(lia)) as (Hline & Hbl & Hps & Hz & Hl).
    split; [reflexivity |]. split; [exact (add_char_wf tl c Hwf ltac:(lia)) |].
    split; [intros _; auto | intros; lia].
  - split; [reflexivity |]. split; [exact Hwf |].
    split; [intros; lia | reflexivity].
Qed.

(** Typing a printable byte and then the backspace key restores the line
    and the cursor, provided the line had room for the byte.  On a full
    line the byte is dropped, and the backspace key then removes the byte
    left of the cursor: the line is not restored. *)
Theorem insert_then_backspace hdr strtof (tl : t_tokenline) (c : Z) :
  escape_len tl = 0 -> line_wf tl ->
  Z.of_nat (length (buf tl)) = TL_MAX_LINE_LEN hdr ->
  32 <= c <= 126 ->
  (buf_len tl < TL_MAX_LINE_LEN hdr - 1 ->
   exists tl', tl_feed hdr strtof tl [c; 127] = Some (TRUE, tl') /\
     line tl' = line tl /\ buf_len tl' = buf_len tl /\ pos tl' = pos tl /\
     load (buf tl') (buf_len tl') = 0) /\
  (buf_len tl = TL_MAX_LINE_LEN hdr - 1 -> 0 < pos tl ->
   exists tl', tl_feed hdr strtof tl [c; 127] = Some (TRUE, tl') /\
     line tl' = take (Z.to_nat (pos tl - 1)) (line tl)
                  ++ drop (Z.to_nat (pos tl)) (line tl) /\
     buf_len tl' = buf_len tl - 1 /\ pos tl' = pos tl - 1 /\
     load (buf tl') (buf_len tl') = 0).
Proof.
  intros He Hwf Hlen Hc. split; [intros Hroom | intros Hfull Hpos]; cbn [tl_feed].
  2: { rewrite (tl_input_printable hdr strtof tl c He Hc).
       destruct (Z.ltb_spec (buf_len tl) (TL_MAX_LINE_LEN hdr - 1)); [lia |].
       cbn [bind snd]. unfold tl_input.
       change (escape_len (set_hist_step (-1) tl)) with (escape_len tl). rewrite He.
       cbn [Z.eqb negb orb].
       change (pos (set_hist_step (-1) tl)) with (pos tl).
       destruct (Z.eqb_spec (pos tl) 0); [lia |].
       cbn [negb]. eexists. split; [reflexivity |].
       assert (Hwf1 : line_wf (set_hist_step (-1) tl)) by exact Hwf.
       pose proof Hwf as [[Hp Hl] _].
       destruct (backspace_line (set_hist_step (-1) tl) ltac:(cbn; lia) Hl)
         as (B1 & B2 & B3).
       destruct (backspace_terminated (set_hist_step (-1) tl) Hwf1 Hpos) as [Hz2 _].
       split; [exact B3 |]. split; [exact B1 |]. split; [exact B2 |].
       rewrite B1. exact Hz2. }
  rewrite (tl_input_printable hdr strtof tl c He Hc).
  destruct (Z.ltb_spec (buf_len tl) (TL_MAX_LINE_LEN hdr - 1)); [| lia].
  cbn [bind snd].
  destruct (add_char_inserts tl c Hwf ltac:(lia)) as (Hline & Hbl & Hps & Hz & Hl).
  pose proof (add_char_wf tl c Hwf ltac:(lia)) as Hwf1.
  destruct (line_frame_fields _ _ (line_frame_add_char tl c)) as (_ & _ & _ & _ & _ & He1 & _).
  set (tl1 := set_hist_step (-1) (add_char tl c)).
  assert (Hwf1' : line_wf tl1) by exact Hwf1.
  unfold tl_input.
  replace (escape_len tl1) with 0 by (symmetry; rewrite <- He; exact He1).
  cbn [Z.eqb negb orb].
  replace (pos tl1) with (pos tl + 1) by (symmetry; exact Hps).
  destruct (Z.eqb_spec (pos tl + 1) 0); [destruct Hwf as [[? ?] _]; lia |].
  cbn [negb]. eexists. split; [reflexivity |].
  assert (Hpos1 : 0 < pos tl1).
  { change (pos tl1) with (pos (add_char tl c)). destruct Hwf as [[? ?] _]. lia. }
  destruct (backspace_line tl1 ltac:(destruct Hwf1' as [[? ?] _]; lia)
              ltac:(destruct Hwf1' as [[? ?] _]; assumption)) as (Hbl2 & Hps2 & Hline2).
  destruct (backspace_terminated tl1 Hwf1' Hpos1) as [Hz2 _].
  change (buf_len tl1) with (buf_len (add_char tl c)) in *.
  change (pos tl1) with (pos (add_char tl c)) in *.
  change (line tl1) with (line (add_char tl c)) in *.
  rewrite Hbl2, Hps2, Hline2, Hline, Hbl, Hps.
  split; [| split; [lia | split; [lia |]]].
  - destruct Hwf as [[Hp Hll] _].
    replace (Z.to_nat (pos tl + 1 - 1)) with (Z.to_nat (pos tl)) by lia.
    replace (Z.to_nat (pos tl + 1)) with (S (Z.to_nat (pos tl))) by lia.
    apply take_drop_inserted. rewrite length_line by (split; assumption). lia.
  - rewrite Hbl in Hz2. exact Hz2.
Qed.

(** The engine after the bytes [ab]. *)
Definition ab_typed : t_tokenline := sample_after sample_hdr (str "ab").

(** Closes the facts about a concrete engine by evaluation. *)
Ltac by_eval :=
  unfold line_wf, line_ok; repeat split;
  vm_compute; first [ reflexivity | discriminate | congruence ].

Lemma printable_byte_inserted_witness :
  escape_len ab_typed = 0 /\ line_wf ab_typed /\
  Z.of_nat (length (buf ab_typed)) = TL_MAX_LINE_LEN sample_hdr /\
  32 <= 99 <= 126 /\
  exists tl', tl_input sample_hdr no_strtof ab_typed 99 = Some (TRUE, tl') /\
    hist_step tl' = -1 /\ line_wf tl' /\
    (buf_len ab_typed < TL_MAX_LINE_LEN sample_hdr - 1 ->
       line tl' = take (Z.to_nat (pos ab_typed)) (line ab_typed)
                    ++ 99 :: drop (Z.to_nat (pos ab_typed)) (line ab_typed) /\
       buf_len tl' = buf_len ab_typed + 1 /\ pos tl' = pos ab_typed + 1) /\
    (TL_MAX_LINE_LEN sample_hdr - 1 <= buf_len ab_typed ->
       tl' = set_hist_step (-1) ab_typed).
Proof.
  assert (H1 : escape_len ab_typed = 0) by reflexivity.
  assert (H2 : line_wf ab_typed) by by_eval.
  assert (H3 : Z.of_nat (length (buf ab_typed)) = TL_MAX_LINE_LEN sample_hdr)
    by reflexivity.
  assert (H4 : 32 <= 99 <= 126) by lia.
  split; [exact H1 |]. split; [exact H2 |]. split; [exact H3 |]. split; [exact H4 |].
  exact (printable_byte_inserted sample_hdr no_strtof ab_typed 99 H1 H2 H3 H4).
Defined.

Lemma insert_then_backspace_witness :
  escape_len ab_typed = 0 /\ line_wf ab_typed /\
  Z.of_nat (length (buf ab_typed)) = TL_MAX_LINE_LEN sample_hdr /\
  32 <= 99 <= 126 /\
  buf_len ab_typed < TL_MAX_LINE_LEN sample_hdr - 1 /\
  exists tl', tl_feed sample_hdr no_strtof ab_typed [99; 127] = Some (TRUE, tl') /\
    line tl' = line ab_typed /\ buf_len tl' = buf_len ab_typed /\
    pos tl' = pos ab_typed /\ load (buf tl') (buf_len tl') = 0.
Proof.
  assert (H1 : escape_len ab_typed = 0) by reflexivity.
  assert (H2 : line_wf ab_typed) by by_eval.
  assert (H3 : Z.of_nat (length (buf ab_typed)) = TL_MAX_LINE_LEN sample_hdr)
    by reflexivity.
  assert (H4 : 32 <= 99 <= 126) by lia.
  assert (H5 : buf_len ab_typed < TL_MAX_LINE_LEN sample_hdr - 1) by reflexivity.
  split; [exact H1 |]. split; [exact H2 |]. split; [exact H3 |]. split; [exact H4 |].
  split; [exact H5 |].
  exact (proj1 (insert_then_backspace sample_hdr no_strtof ab_typed 99 H1 H2 H3 H4) H5).
Defined.

(** ** Bytes without effect *)

(** With no escape sequence in progress, a byte that is neither printable
    nor bound to a key is dropped: the engine stays as it was.  So is TAB
    when the cursor is not at the end of the line. *)
Theorem unbound_bytes_dropped hdr strtof (tl : t_tokenline) (c : Z) :
  escape_len tl = 0 ->
  (c = 9 /\ buf_len tl <> pos tl) \/
  (~ In c [27; 13; 10; 9; 127; 1; 3; 5; 11; 12; 16; 14; 23; 4]
   /\ ~ 32 <= c <= 126) ->
  tl_input hdr strtof tl c = Some (TRUE, tl).
Proof.
  intros He [[-> Hne] | [Hnot Hnp]]; unfold tl_input; rewrite He; cbn [Z.eqb negb orb].
  - destruct (Z.eqb_spec (buf_len tl) (pos tl)); [contradiction | reflexivity].
  - repeat match goal with
    | |- context [c =? ?k] =>
        destruct (Z.eqb_spec c k); [exfalso; apply Hnot; subst; cbn; tauto |]
    end.
    cbn [orb].
    destruct (Z.geb_spec c 32), (Z.leb_spec c 126); cbn [andb]; try reflexivity.
    lia.
Qed.

(** ** Lines that are not submitted *)

(** Ctrl-C, and a carriage return or line feed on an empty line, start a
    fresh line: a newline and the prompt are printed (after [^C] for
    Ctrl-C), line length, cursor and escape length are 0, and the line is
    neither added to the history nor parsed, so the callback is not
    invoked, whatever the line held. *)
Theorem abort_and_empty_submit hdr strtof (tl : t_tokenline) :
  escape_len tl = 0 ->
  (exists tl', tl_input hdr strtof tl 3 = Some (TRUE, tl') /\
     buf_len tl' = 0 /\ pos tl' = 0 /\ escape_len tl' = 0 /\
     buf tl' = store (buf tl) 0 0 /\
     printed tl' = printed tl ++ [str "^C"; NL; prompt tl] /\
     called tl' = called tl /\ parsed tl' = parsed tl /\
     hist_buf tl' = hist_buf tl /\ hist_begin tl' = hist_begin tl /\
     hist_end tl' = hist_end tl /\ hist_step tl' = hist_step tl) /\
  (forall c, c = 13 \/ c = 10 -> buf_len tl = 0 ->
   exists tl', tl_input hdr strtof tl c = Some (TRUE, tl') /\
     buf_len tl' = 0 /\ pos tl' = 0 /\ escape_len tl' = 0 /\
     buf tl' = store (buf tl) 0 0 /\
     printed tl' = printed tl ++ [NL; prompt tl] /\
     called tl' = called tl /\ parsed tl' = parsed tl /\
     hist_buf tl' = hist_buf tl /\ hist_begin tl' = hist_begin tl /\
     hist_end tl' = hist_end tl /\ hist_step tl' = hist_step tl).
Proof.
  intros He. split.
  - unfold tl_input, process_line, process_line_body. rewrite He.
    cbn. eexists. split; [reflexivity |]. cbn.
    repeat split. rewrite <- !app_assoc. reflexivity.
  - intros c Hc Hz. unfold tl_input, process_line, process_line_body. rewrite He.
    destruct Hc as [-> | ->]; cbn; rewrite Hz; cbn;
      (eexists; split; [reflexivity |]); cbn;
      repeat split; rewrite <- !app_assoc; reflexivity.
Qed.

(** ** Kill to the end of the line *)

(** Ctrl-K cuts the line at the cursor: the bytes before the cursor stay,
    the cursor does not move and the line is terminated there. *)
Theorem ctrl_k_kills_to_end hdr strtof (tl : t_tokenline) :
  escape_len tl = 0 -> line_wf tl ->
  exists tl', tl_input hdr strtof tl 11 = Some (TRUE, tl') /\
    buf_len tl' = pos tl /\ pos tl' = pos tl /\
    line tl' = take (Z.to_nat (pos tl)) (line tl) /\
    load (buf tl') (buf_len tl') = 0 /\
    length (buf tl') = length (buf tl) /\ line_frame tl tl'.
Proof.
  intros He [[Hp Hl] Hz]. unfold tl_input. rewrite He. cbn [Z.eqb negb orb].
  destruct (Z.gtb_spec (buf_len tl) (pos tl)) as [Hgt | Hle].
  - eexists. split; [reflexivity |]. cbn.
    unfold line. cbn. rewrite ?buf_print_n, ?pos_print_n, ?buf_len_print_n. cbn.
    rewrite ?buf_print_n, ?pos_print_n, ?buf_len_print_n.
    split; [reflexivity |]. split; [reflexivity |].
    split; [arrays_eq |]. split; [loads; tests; same_load |].
    split; [lens; reflexivity |]. frame.
  - exists tl. split; [reflexivity |].
    assert (pos tl = buf_len tl) by lia.
    split; [lia |]. split; [reflexivity |].
    split; [unfold line; rewrite take_take; f_equal; lia |].
    split; [exact Hz |]. split; [reflexivity | apply line_frame_refl].
Qed.

(** ** Cursor keys *)

Lemma cursor_home_loop_fields n : forall tl,
  n = Z.to_nat (pos tl) -> 0 <= pos tl ->
  pos (cursor_home_loop n tl) = 0 /\
  buf_len (cursor_home_loop n tl) = buf_len tl /\
  buf (cursor_home_loop n tl) = buf tl /\
  line_frame tl (cursor_home_loop n tl).
Proof.
  induction n as [| n IH]; intros tl Hn Hp; simpl.
  - repeat split; [lia | apply line_frame_refl].
  - destruct (Z.eqb_spec (pos tl) 0); [lia |].
    destruct (IH (print CUR_LEFT (set_pos (pos tl - 1) tl))) as (H1 & H2 & H3 & H4);
      cbn; try lia.
    cbn in H1, H2, H3. repeat split; try assumption.
    eapply line_frame_trans; [| exact H4]. frame.
Qed.

Lemma cursor_end_fields tl :
  pos tl <= buf_len tl ->
  pos (cursor_end tl) = buf_len tl /\ buf_len (cursor_end tl) = buf_len tl /\
  buf (cursor_end tl) = buf tl /\ line_frame tl (cursor_end tl).
Proof.
  intros Hp. unfold cursor_end.
  destruct (cursor_end_loop_fields _ tl eq_refl Hp) as (H1 & H2 & H3).
  repeat split; try assumption. apply line_frame_cursor_end_loop.
Qed.

(** [tl'] is [tl] with the cursor at [p]: line, history, parse result and
    callback log are those of [tl], and no escape sequence is in progress. *)
Definition cursor_at (tl tl' : t_tokenline) (p : Z) : Prop :=
  pos tl' = p /\ buf tl' = buf tl /\ buf_len tl' = buf_len tl /\
  escape_len tl' = 0 /\
  hist_buf tl' = hist_buf tl /\ hist_begin tl' = hist_begin tl /\
  hist_end tl' = hist_end tl /\ hist_step tl' = hist_step tl /\
  parsed tl' = parsed tl /\ called tl' = called tl.

Lemma cursor_at_frame tl tl' p :
  line_frame tl tl' -> escape_len tl = 0 ->
  pos tl' = p -> buf tl' = buf tl -> buf_len tl' = buf_len tl ->
  cursor_at tl tl' p.
Proof.
  intros Hf He Hp Hb Hl.
  destruct (line_frame_fields _ _ Hf)
    as (H1 & H2 & H3 & H4 & _ & H6 & H7 & H8 & _).
  unfold cursor_at. rewrite H1, H2, H3, H4, H6, H7, H8. repeat split; assumption.
Qed.

(** [tl->escape[tl->escape_len++] = c]. *)
Definition escape_push (tl : t_tokenline) (c : Z) : t_tokenline :=
  set_escape_len (escape_len tl + 1)
    (set_escape (store (escape tl) (escape_len tl) c) tl).

Lemma tl_input_esc hdr strtof (tl : t_tokenline) :
  escape_len tl = 0 ->
  tl_input hdr strtof tl 27 = Some (TRUE, escape_push tl 27).
Proof.
  intros He. unfold tl_input.
  destruct (Z.eqb_spec (escape_len tl) 0); [reflexivity | contradiction].
Qed.

Lemma tl_input_pending hdr strtof (tl : t_tokenline) (c : Z) :
  escape_len tl <> 0 ->
  tl_input hdr strtof tl c =
  (do r <- process_escape hdr (escape_push tl c);
   let '(ok, tl) := r in
   if ok then Some (TRUE, set_escape_len 0 tl)
   else if escape_len tl =? TL_MAX_ESCAPE_LEN hdr
        then Some (TRUE, set_escape_len 0 tl)
        else Some (TRUE, tl)).
Proof.
  intros He. unfold tl_input.
  destruct (Z.eqb_spec (escape_len tl) 0); [contradiction | reflexivity].
Qed.

Lemma process_escape_short hdr (tl : t_tokenline) :
  escape_len tl <> 4 -> escape_len tl <> 3 ->
  process_escape hdr tl = Some (false, tl).
Proof.
  intros H4 H3. unfold process_escape.
  destruct (Z.eqb_spec (escape_len tl) 4); [contradiction |].
  destruct (Z.eqb_spec (escape_len tl) 3); [contradiction | reflexivity].
Qed.

(** The engine after ESC and a second byte. *)
Lemma escape_two hdr strtof (tl : t_tokenline) (a : Z) :
  escape_len tl = 0 -> TL_MAX_ESCAPE_LEN hdr <> 2 ->
  tl_feed hdr strtof tl [27; a] =
    Some (TRUE, escape_push (escape_push tl 27) a).
Proof.
  intros He Hm. cbn [tl_feed]. rewrite tl_input_esc by exact He. cbn [bind snd].
  assert (H1 : escape_len (escape_push tl 27) = 1) by (cbn; lia).
  rewrite tl_input_pending by lia.
  assert (H2 : escape_len (escape_push (escape_push tl 27) a) = 2) by (cbn; lia).
  rewrite process_escape_short by lia. cbn [bind].
  rewrite H2. destruct (Z.eqb_spec 2 (TL_MAX_ESCAPE_LEN hdr)); [congruence | reflexivity].
Qed.

(** The escape array after three bytes were pushed on an empty one. *)
Lemma escape_pushed3 (tl : t_tokenline) (a b : Z) :
  escape_len tl = 0 -> (3 <= length (escape tl))%nat -> a <> 0 -> b <> 0 ->
  escape_len (escape_push (escape_push (escape_push tl 27) a) b) = 3 /\
  exists r, cstr (escape (escape_push (escape_push (escape_push tl 27) a) b))
            = 27 :: a :: b :: r.
Proof.
  intros He Hl Ha Hb. split; [cbn; lia |].
  cbn. rewrite He.
  destruct (escape tl) as [| e0 [| e1 [| e2 r]]]; cbn in Hl; try lia.
  unfold store. simpl.
  destruct (Z.eqb_spec a 0); [contradiction |].
  destruct (Z.eqb_spec b 0); [contradiction |]. eexists. reflexivity.
Qed.

Lemma escape_is3 (tl : t_tokenline) (a b : Z) (r : list Z) (y z : Z) :
  cstr (escape tl) = 27 :: a :: b :: r ->
  escape_is tl [27; y; z] 3 = (a =? y) && (b =? z).
Proof.
  intros Hc. unfold escape_is. rewrite Hc. cbn [strncmp].
  change (27 =? 27) with true. cbv iota.
  destruct (Z.eqb_spec a y), (Z.eqb_spec b z); cbn [andb];
    try (apply Z.eqb_neq; lia).
  destruct r; reflexivity.
Qed.

(** The dispatch of a complete three-byte sequence. *)
Lemma process_escape_three hdr (tl : t_tokenline) (a b : Z) (r : list Z) :
  escape_len tl = 3 -> cstr (escape tl) = 27 :: a :: b :: r ->
  process_escape hdr tl =
  if (a =? 91) && (b =? 65) then do tl <- history_up hdr tl; Some (true, tl)
  else if (a =? 91) && (b =? 66) then do tl <- history_down hdr tl; Some (true, tl)
  else if (a =? 91) && (b =? 68) then
    if pos tl >? 0
    then Some (true, print [27; 91; 49; 68] (set_pos (pos tl - 1) tl))
    else Some (true, tl)
  else if (a =? 91) && (b =? 67) then
    if pos tl <? buf_len tl
    then Some (true, print [27; 91; 49; 67] (set_pos (pos tl + 1) tl))
    else Some (true, tl)
  else if (a =? 79) && (b =? 72) then Some (true, cursor_home tl)
  else if (a =? 79) && (b =? 70) then Some (true, cursor_end tl)
  else Some (false, tl).
Proof.
  intros He Hc. unfold process_escape. rewrite He.
  change (3 =? 4) with false. change (3 =? 3) with true. cbv iota.
  rewrite !(escape_is3 tl a b r _ _ Hc). reflexivity.
Qed.

(** The engine in which a complete three-byte sequence is dispatched. *)
Lemma escape_three hdr strtof (tl : t_tokenline) (a b : Z) :
  escape_len tl = 0 -> TL_MAX_ESCAPE_LEN hdr <> 2 ->
  tl_feed hdr strtof tl [27; a; b] =
  (do r <- process_escape hdr (escape_push (escape_push (escape_push tl 27) a) b);
   let '(ok, tl) := r in
   if ok then Some (TRUE, set_escape_len 0 tl)
   else if escape_len tl =? TL_MAX_ESCAPE_LEN hdr
        then Some (TRUE, set_escape_len 0 tl)
        else Some (TRUE, tl)).
Proof.
  intros He Hm.
  change (tl_feed hdr strtof tl [27; a; b])
    with (do x <- tl_input hdr strtof tl 27;
          do y <- tl_input hdr strtof (snd x) a; tl_input hdr strtof (snd y) b).
  pose proof (escape_two hdr strtof tl a He Hm) as H2. cbn [tl_feed] in H2.
  rewrite tl_input_esc in * by exact He. cbn [bind snd] in *.
  rewrite H2. cbn [bind snd].
  apply tl_input_pending. cbn. lia.
Qed.

(** The cursor keys: the arrows move the cursor by one byte and stop at the
    ends of the line, Home and Ctrl-A move it to the start, End and Ctrl-E to
    the end.  None of them changes the line, the history or the parse
    result, and the escape sequence is finished. *)
Theorem cursor_keys_move_cursor hdr strtof (tl : t_tokenline) :
  escape_len tl = 0 -> line_ok tl ->
  (3 <= length (escape tl))%nat -> TL_MAX_ESCAPE_LEN hdr <> 2 ->
  (exists tl', tl_feed hdr strtof tl [27; 91; 68] = Some (TRUE, tl') /\
     cursor_at tl tl' (Z.max 0 (pos tl - 1))) /\
  (exists tl', tl_feed hdr strtof tl [27; 91; 67] = Some (TRUE, tl') /\
     cursor_at tl tl' (Z.min (buf_len tl) (pos tl + 1))) /\
  (exists tl', tl_feed hdr strtof tl [27; 79; 72] = Some (TRUE, tl') /\
     cursor_at tl tl' 0) /\
  (exists tl', tl_feed hdr strtof tl [27; 79; 70] = Some (TRUE, tl') /\
     cursor_at tl tl' (buf_len tl)) /\
  (exists tl', tl_input hdr strtof tl 1 = Some (TRUE, tl') /\ cursor_at tl tl' 0) /\
  (exists tl', tl_input hdr strtof tl 5 = Some (TRUE, tl') /\
     cursor_at tl tl' (buf_len tl)).
Proof.
  intros He [Hp Hl] Hesc Hm.
  assert (Hseq : forall a b, a <> 0 -> b <> 0 ->
            exists r, let tl3 := escape_push (escape_push (escape_push tl 27) a) b in
              escape_len tl3 = 3 /\ cstr (escape tl3) = 27 :: a :: b :: r /\
              pos tl3 = pos tl /\ buf tl3 = buf tl /\ buf_len tl3 = buf_len tl /\
              hist_buf tl3 = hist_buf tl /\ hist_begin tl3 = hist_begin tl /\
              hist_end tl3 = hist_end tl /\ hist_step tl3 = hist_step tl /\
              parsed tl3 = parsed tl /\ called tl3 = called tl).
  { intros a b Ha Hb. destruct (escape_pushed3 tl a b He Hesc Ha Hb) as [H3 [r Hr]].
    exists r. cbv zeta. split; [exact H3 |]. split; [exact Hr |]. repeat split. }
  split; [| split; [| split; [| split; [| split]]]].
  - destruct (Hseq 91 68 ltac:(lia) ltac:(lia))
      as (r & H3 & Hr & Hps & Hb & Hbl & Hh1 & Hh2 & Hh3 & Hh4 & Hpa & Hca).
    rewrite escape_three by assumption.
    rewrite (process_escape_three hdr _ 91 68 r H3 Hr). cbn [Z.eqb Pos.eqb andb].
    rewrite Hps. destruct (Z.gtb_spec (pos tl) 0); cbn [bind];
      (eexists; split; [reflexivity |]); unfold cursor_at; cbn;
      repeat split; lia.
  - destruct (Hseq 91 67 ltac:(lia) ltac:(lia))
      as (r & H3 & Hr & Hps & Hb & Hbl & Hh1 & Hh2 & Hh3 & Hh4 & Hpa & Hca).
    rewrite escape_three by assumption.
    rewrite (process_escape_three hdr _ 91 67 r H3 Hr). cbn [Z.eqb Pos.eqb andb].
    rewrite Hps, Hbl. destruct (Z.ltb_spec (pos tl) (buf_len tl)); cbn [bind];
      (eexists; split; [reflexivity |]); unfold cursor_at; cbn;
      repeat split; lia.
  - destruct (Hseq 79 72 ltac:(lia) ltac:(lia))
      as (r & H3 & Hr & Hps & Hb & Hbl & Hh1 & Hh2 & Hh3 & Hh4 & Hpa & Hca).
    rewrite escape_three by assumption.
    rewrite (process_escape_three hdr _ 79 72 r H3 Hr). cbn [Z.eqb Pos.eqb andb bind].
    eexists. split; [reflexivity |].
    set (tl3 := escape_push (escape_push (escape_push tl 27) 79) 72) in *.
    destruct (cursor_home_loop_fields _ tl3 eq_refl ltac:(lia)) as (H1 & H2 & H4 & H5).
    fold (cursor_home tl3) in H1, H2, H4, H5.
    destruct (line_frame_fields _ _ H5)
      as (F1 & F2 & F3 & F4 & _ & _ & F7 & F8 & _).
    unfold cursor_at. cbn.
    rewrite H1, H2, H4, F1, F2, F3, F4, F7, F8. repeat split; assumption.
  - destruct (Hseq 79 70 ltac:(lia) ltac:(lia))
      as (r & H3 & Hr & Hps & Hb & Hbl & Hh1 & Hh2 & Hh3 & Hh4 & Hpa & Hca).
    rewrite escape_three by assumption.
    rewrite (process_escape_three hdr _ 79 70 r H3 Hr). cbn [Z.eqb Pos.eqb andb bind].
    eexists. split; [reflexivity |].
    set (tl3 := escape_push (escape_push (escape_push tl 27) 79) 70) in *.
    destruct (cursor_end_fields tl3 ltac:(lia)) as (H1 & H2 & H4 & H5).
    destruct (line_frame_fields _ _ H5)
      as (F1 & F2 & F3 & F4 & _ & _ & F7 & F8 & _).
    unfold cursor_at. cbn.
    rewrite H1, H2, H4, F1, F2, F3, F4, F7, F8. repeat split; assumption.
  - unfold tl_input. rewrite He. cbn [Z.eqb negb orb].
    eexists. split; [reflexivity |].
    destruct (cursor_home_loop_fields _ tl eq_refl ltac:(lia)) as (H1 & H2 & H4 & H5).
    apply cursor_at_frame; assumption.
  - unfold tl_input. rewrite He. cbn [Z.eqb negb orb].
    eexists. split; [reflexivity |].
    destruct (cursor_end_fields tl ltac:(lia)) as (H1 & H2 & H4 & H5).
    apply cursor_at_frame; assumption.
Qed.

(** ** The end of an escape sequence *)

(** The fourth byte always ends an escape sequence: [escape_len] is 0
    afterwards, and unless the four bytes are ESC [ 3 ~ nothing but the
    escape buffer has changed. *)
Theorem escape_ends_at_four hdr strtof (tl : t_tokenline) (c : Z) :
  escape_len tl = 3 ->
  exists tl', tl_input hdr strtof tl c = Some (TRUE, tl') /\
    escape_len tl' = 0 /\
    (escape_is (escape_push tl c) [27; 91; 51; 126] 4 = false ->
     tl' = set_escape_len 0 (set_escape (store (escape tl) 3 c) tl)).
Proof.
  intros He. rewrite tl_input_pending by lia.
  unfold process_escape.
  assert (H4 : escape_len (escape_push tl c) = 4) by (cbn; lia).
  rewrite H4. change (4 =? 4) with true. cbv iota.
  destruct (escape_is (escape_push tl c) [27; 91; 51; 126] 4).
  - destruct (pos (escape_push tl c) <? buf_len (escape_push tl c)); cbn [bind];
      (eexists; split; [reflexivity |]); split; [reflexivity | discriminate |
        reflexivity | discriminate].
  - cbn [bind]. eexists. split; [reflexivity |]. split; [reflexivity |].
    intros _. unfold escape_push. rewrite He. destruct tl; reflexivity.
Qed.

(** ** Delete forward *)

Lemma escape_pushed4 (tl : t_tokenline) (a b c : Z) :
  escape_len tl = 0 -> (4 <= length (escape tl))%nat ->
  a <> 0 -> b <> 0 -> c <> 0 ->
  exists r,
    cstr (escape (escape_push (escape_push (escape_push (escape_push tl 27) a) b) c))
    = 27 :: a :: b :: c :: r.
Proof.
  intros He Hl Ha Hb Hc. cbn. rewrite He.
  destruct (escape tl) as [| e0 [| e1 [| e2 [| e3 r]]]]; cbn in Hl; try lia.
  unfold store. simpl.
  destruct (Z.eqb_spec a 0); [contradiction |].
  destruct (Z.eqb_spec b 0); [contradiction |].
  destruct (Z.eqb_spec c 0); [contradiction |]. eexists. reflexivity.
Qed.

(** The four bytes ESC [ 3 ~ delete the byte under the cursor: the tail of
    the line moves left by one, the cursor stays.  With the cursor at the end
    of the line nothing is deleted. *)
Theorem delete_key_removes_byte hdr strtof (tl : t_tokenline) :
  escape_len tl = 0 -> line_wf tl ->
  (4 <= length (escape tl))%nat ->
  TL_MAX_ESCAPE_LEN hdr <> 2 -> TL_MAX_ESCAPE_LEN hdr <> 3 ->
  exists tl', tl_feed hdr strtof tl [27; 91; 51; 126] = Some (TRUE, tl') /\
    pos tl' = pos tl /\ escape_len tl' = 0 /\
    line tl' = take (Z.to_nat (pos tl)) (line tl)
                 ++ drop (Z.to_nat (pos tl + 1)) (line tl) /\
    buf_len tl' = (if pos tl <? buf_len tl then buf_len tl - 1 else buf_len tl) /\
    load (buf tl') (buf_len tl') = 0 /\
    hist_buf tl' = hist_buf tl /\ hist_step tl' = hist_step tl /\
    called tl' = called tl.
Proof.
  intros He [[Hp Hl] Hz] Hesc Hm2 Hm3.
  change (tl_feed hdr strtof tl [27; 91; 51; 126])
    with (do x <- tl_input hdr strtof tl 27;
          do y <- tl_input hdr strtof (snd x) 91;
          do z <- tl_input hdr strtof (snd y) 51; tl_input hdr strtof (snd z) 126).
  pose proof (escape_three hdr strtof tl 91 51 He Hm2) as H3.
  change (tl_feed hdr strtof tl [27; 91; 51])
    with (do x <- tl_input hdr strtof tl 27;
          do y <- tl_input hdr strtof (snd x) 91; tl_input hdr strtof (snd y) 51) in H3.
  destruct (escape_pushed3 tl 91 51 He ltac:(lia) ltac:(lia) ltac:(lia)) as [Hl3 [r3 Hr3]].
  rewrite (process_escape_three hdr _ 91 51 r3 Hl3 Hr3) in H3.
  cbn [Z.eqb Pos.eqb andb bind] in H3. rewrite Hl3 in H3.
  destruct (Z.eqb_spec 3 (TL_MAX_ESCAPE_LEN hdr)); [congruence |].
  destruct (tl_input hdr strtof tl 27) as [x |]; [| discriminate].
  cbn [bind] in *.
  destruct (tl_input hdr strtof (snd x) 91) as [y |]; [| discriminate].
  cbn [bind] in *. rewrite H3. cbn [bind snd].
  set (tl3 := escape_push (escape_push (escape_push tl 27) 91) 51) in *.
  rewrite tl_input_pending by lia.
  destruct (escape_pushed4 tl 91 51 126 He Hesc ltac:(lia) ltac:(lia) ltac:(lia))
    as [r4 Hr4]. fold tl3 in Hr4.
  unfold process_escape.
  assert (H4 : escape_len (escape_push tl3 126) = 4) by (cbn; lia).
  rewrite H4. change (4 =? 4) with true. cbv iota.
  assert (His : escape_is (escape_push tl3 126) [27; 91; 51; 126] 4 = true).
  { unfold escape_is. rewrite Hr4. destruct r4; reflexivity. }
  rewrite His.
  change (pos (escape_push tl3 126)) with (pos tl).
  change (buf_len (escape_push tl3 126)) with (buf_len tl).
  change (buf (escape_push tl3 126)) with (buf tl).
  destruct (Z.ltb_spec (pos tl) (buf_len tl)) as [Hlt | Hge]; cbn [bind].
  - eexists. split; [reflexivity |]. unfold line. cbn.
    rewrite ?buf_print_n, ?pos_print_n, ?buf_len_print_n. cbn.
    split; [reflexivity |]. split; [reflexivity |].
    split; [arrays_eq |]. split; [reflexivity |].
    split; [loads; tests; try same_load; rewrite <- Hz; f_equal; lia |].
    repeat split;
      match goal with
      | |- _ (print_n ?n ?s ?x) = _ =>
          destruct (line_frame_fields _ _ (line_frame_print_n n s x))
            as (F1 & _ & _ & F4 & _ & _ & F7 & _);
          first [rewrite F1 | rewrite F4 | rewrite F7]; reflexivity
      end.
  - eexists. split; [reflexivity |]. unfold line. cbn.
    split; [reflexivity |]. split; [reflexivity |].
    split; [| split; [reflexivity | split; [exact Hz | repeat split]]].
    rewrite (drop_ge (take _ _)) by (rewrite length_take; lia).
    rewrite app_nil_r, take_take. f_equal. lia.
Qed.

(** ** Witnesses on the sample engine *)

(** The engine after [ab] with the cursor between the two bytes. *)
Definition ab_cursor_1 : t_tokenline := set_pos 1 ab_typed.

(** The engine after [ab] and the first three bytes of ESC [ 3 ~. *)
Definition ab_escape_3 : t_tokenline :=
  sample_after sample_hdr (str "ab" ++ [27; 91; 51]).

Lemma unbound_bytes_dropped_witness :
  escape_len ab_cursor_1 = 0 /\
  ((9 = 9 /\ buf_len ab_cursor_1 <> pos ab_cursor_1) \/
   (~ In 9 [27; 13; 10; 9; 127; 1; 3; 5; 11; 12; 16; 14; 23; 4]
    /\ ~ 32 <= 9 <= 126)) /\
  tl_input sample_hdr no_strtof ab_cursor_1 9 = Some (TRUE, ab_cursor_1).
Proof.
  assert (H1 : escape_len ab_cursor_1 = 0) by reflexivity.
  assert (H2 : (9 = 9 /\ buf_len ab_cursor_1 <> pos ab_cursor_1) \/
               (~ In 9 [27; 13; 10; 9; 127; 1; 3; 5; 11; 12; 16; 14; 23; 4]
                /\ ~ 32 <= 9 <= 126)).
  { left. split; [reflexivity | vm_compute; discriminate]. }
  split; [exact H1 |]. split; [exact H2 |].
  exact (unbound_bytes_dropped sample_hdr no_strtof ab_cursor_1 9 H1 H2).
Defined.

Lemma abort_and_empty_submit_witness :
  escape_len ab_typed = 0 /\
  exists tl', tl_input sample_hdr no_strtof ab_typed 3 = Some (TRUE, tl') /\
     buf_len tl' = 0 /\ pos tl' = 0 /\ escape_len tl' = 0 /\
     buf tl' = store (buf ab_typed) 0 0 /\
     printed tl' = printed ab_typed ++ [str "^C"; NL; prompt ab_typed] /\
     called tl' = called ab_typed /\ parsed tl' = parsed ab_typed /\
     hist_buf tl' = hist_buf ab_typed /\ hist_begin tl' = hist_begin ab_typed /\
     hist_end tl' = hist_end ab_typed /\ hist_step tl' = hist_step ab_typed.
Proof.
  assert (H1 : escape_len ab_typed = 0) by reflexivity.
  split; [exact H1 |].
  exact (proj1 (abort_and_empty_submit sample_hdr no_strtof ab_typed H1)).
Defined.

Lemma ctrl_k_kills_to_end_witness :
  escape_len ab_cursor_1 = 0 /\ line_wf ab_cursor_1 /\
  exists tl', tl_input sample_hdr no_strtof ab_cursor_1 11 = Some (TRUE, tl') /\
    buf_len tl' = pos ab_cursor_1 /\ pos tl' = pos ab_cursor_1 /\
    line tl' = take (Z.to_nat (pos ab_cursor_1)) (line ab_cursor_1) /\
    load (buf tl') (buf_len tl') = 0 /\
    length (buf tl') = length (buf ab_cursor_1) /\ line_frame ab_cursor_1 tl'.
Proof.
  assert (H1 : escape_len ab_cursor_1 = 0) by reflexivity.
  assert (H2 : line_wf ab_cursor_1) by by_eval.
  split; [exact H1 |]. split; [exact H2 |].
  exact (ctrl_k_kills_to_end sample_hdr no_strtof ab_cursor_1 H1 H2).
Defined.

Lemma cursor_keys_move_cursor_witness :
  escape_len ab_cursor_1 = 0 /\ line_ok ab_cursor_1 /\
  (3 <= length (escape ab_cursor_1))%nat /\ TL_MAX_ESCAPE_LEN sample_hdr <> 2 /\
  exists tl', tl_feed sample_hdr no_strtof ab_cursor_1 [27; 91; 68] = Some (TRUE, tl') /\
     cursor_at ab_cursor_1 tl' (Z.max 0 (pos ab_cursor_1 - 1)).
Proof.
  assert (H1 : escape_len ab_cursor_1 = 0) by reflexivity.
  assert (H2 : line_ok ab_cursor_1) by by_eval.
  assert (H3 : (3 <= length (escape ab_cursor_1))%nat) by (vm_compute; lia).
  assert (H4 : TL_MAX_ESCAPE_LEN sample_hdr <> 2) by discriminate.
  split; [exact H1 |]. split; [exact H2 |]. split; [exact H3 |]. split; [exact H4 |].
  exact (proj1 (cursor_keys_move_cursor sample_hdr no_strtof ab_cursor_1 H1 H2 H3 H4)).
Defined.

Lemma escape_ends_at_four_witness :
  escape_len ab_escape_3 = 3 /\
  exists tl', tl_input sample_hdr no_strtof ab_escape_3 65 = Some (TRUE, tl') /\
    escape_len tl' = 0 /\
    (escape_is (escape_push ab_escape_3 65) [27; 91; 51; 126] 4 = false ->
     tl' = set_escape_len 0 (set_escape (store (escape ab_escape_3) 3 65) ab_escape_3)).
Proof.
  assert (H1 : escape_len ab_escape_3 = 3) by reflexivity.
  split; [exact H1 |].
  exact (escape_ends_at_four sample_hdr no_strtof ab_escape_3 65 H1).
Defined.

Lemma delete_key_removes_byte_witness :
  escape_len ab_cursor_1 = 0 /\ line_wf ab_cursor_1 /\
  (4 <= length (escape ab_cursor_1))%nat /\
  TL_MAX_ESCAPE_LEN sample_hdr <> 2 /\ TL_MAX_ESCAPE_LEN sample_hdr <> 3 /\
  exists tl', tl_feed sample_hdr no_strtof ab_cursor_1 [27; 91; 51; 126] = Some (TRUE, tl') /\
    pos tl' = pos ab_cursor_1 /\ escape_len tl' = 0 /\
    line tl' = take (Z.to_nat (pos ab_cursor_1)) (line ab_cursor_1)
                 ++ drop (Z.to_nat (pos ab_cursor_1 + 1)) (line ab_cursor_1) /\
    buf_len tl' = (if pos ab_cursor_1 <? buf_len ab_cursor_1
                   then buf_len ab_cursor_1 - 1 else buf_len ab_cursor_1) /\
    load (buf tl') (buf_len tl') = 0 /\
    hist_buf tl' = hist_buf ab_cursor_1 /\ hist_step tl' = hist_step ab_cursor_1 /\
    called tl' = called ab_cursor_1.
Proof.
  assert (H1 : escape_len ab_cursor_1 = 0) by reflexivity.
  assert (H2 : line_wf ab_cursor_1) by by_eval.
  assert (H3 : (4 <= length (escape ab_cursor_1))%nat) by (vm_compute; lia).
  assert (H4 : TL_MAX_ESCAPE_LEN sample_hdr <> 2) by discriminate.
  assert (H5 : TL_MAX_ESCAPE_LEN sample_hdr <> 3) by discriminate.
  split; [exact H1 |]. split; [exact H2 |]. split; [exact H3 |]. split; [exact H4 |].
  split; [exact H5 |].
  exact (delete_key_removes_byte sample_hdr no_strtof ab_cursor_1 H1 H2 H3 H4 H5).
Defined.

(** ** Leaving a history walk *)

Lemma cstr_at_nul m e : 0 <= e -> load m e = 0 -> cstr_at m e = [].
Proof.
  intros He Hz. unfold cstr_at. destruct (Z.ltb_spec e 0); [lia |].
  unfold load in Hz. destruct (Z.ltb_spec e 0); [lia |].
  destruct (drop (Z.to_nat e) m) as [| c r] eqn:Hd; [reflexivity |].
  pose proof (lookup_drop m (Z.to_nat e) 0) as Hc.
  rewrite Hd, Nat.add_0_r in Hc. cbn in Hc. rewrite <- Hc in Hz. cbn in Hz.
  subst c. reflexivity.
Qed.

Lemma history_down_loop_finds hdr hb n : forall s fuel,
  (n < fuel)%nat ->
  (forall k, (k < n)%nat -> load hb (Nat.iter k (hist_inc hdr) s) <> 0) ->
  load hb (Nat.iter n (hist_inc hdr) s) = 0 ->
  history_down_loop hdr fuel hb s = Some (Nat.iter n (hist_inc hdr) s).
Proof.
  induction n as [| n IH]; intros s fuel Hf Hnz Hz;
    (destruct fuel as [| fuel]; [lia |]); cbn [history_down_loop].
  - cbn in Hz. rewrite Hz. reflexivity.
  - pose proof (Hnz O ltac:(lia)) as H0. cbn in H0.
    destruct (Z.eqb_spec (load hb s) 0); [contradiction |].
    rewrite Nat.iter_succ_r. apply IH; [lia | |].
    + intros k Hk. rewrite <- Nat.iter_succ_r. apply Hnz. lia.
    + rewrite <- Nat.iter_succ_r. exact Hz.
Qed.

(** [set_line] with the empty string on an empty line. *)
Lemma set_line_empty hdr (tl : t_tokenline) :
  buf_len tl = 0 -> pos tl = 0 -> 0 < TL_MAX_LINE_LEN hdr ->
  buf_len (set_line hdr tl []) = 0 /\ pos (set_line hdr tl []) = 0 /\
  length (buf (set_line hdr tl [])) = length (buf tl) /\
  line_frame tl (set_line hdr tl []).
Proof.
  intros Hb Hp Hm. unfold set_line. change (strlen []) with 0.
  destruct (Z.gtb_spec 0 (TL_MAX_LINE_LEN hdr - 1)); [lia |].
  destruct (Z.eqb_spec (pos tl) (buf_len tl)); [| lia].
  split; [cbn; lia |]. split; [cbn; lia |].
  split; [cbn; apply length_store | frame].
Qed.

(** Ctrl-N while the newest entry is the walk position (the entry at
    [hist_step] runs up to the byte before [hist_end]): the line is emptied
    and [hist_step] becomes [hist_end], not -1.  A second Ctrl-N then sets
    [hist_step] to -1 and leaves the line empty. *)
Theorem history_down_leaves_walk_in_two_steps hdr strtof (tl : t_tokenline) (n : nat) :
  escape_len tl = 0 -> line_ok tl ->
  Z.of_nat (length (buf tl)) = TL_MAX_LINE_LEN hdr ->
  hist_step tl <> -1 -> hist_step tl <> hist_end tl ->
  (n <= Z.to_nat (TL_MAX_HISTORY_SIZE hdr))%nat ->
  (forall k, (k < n)%nat ->
     load (hist_buf tl) (Nat.iter k (hist_inc hdr) (hist_step tl)) <> 0) ->
  load (hist_buf tl) (Nat.iter n (hist_inc hdr) (hist_step tl)) = 0 ->
  hist_end tl = hist_inc hdr (Nat.iter n (hist_inc hdr) (hist_step tl)) ->
  0 <= hist_end tl -> load (hist_buf tl) (hist_end tl) = 0 ->
  exists tl1 tl2,
    tl_input hdr strtof tl 14 = Some (TRUE, tl1) /\
    hist_step tl1 = hist_end tl /\ hist_step tl1 <> -1 /\
    buf_len tl1 = 0 /\ pos tl1 = 0 /\
    tl_input hdr strtof tl1 14 = Some (TRUE, tl2) /\
    hist_step tl2 = -1 /\ buf_len tl2 = 0 /\ pos tl2 = 0.
Proof.
  intros He Hok Hlen Hs1 Hs2 Hn Hnz Hz Hend Hend0 Hfree.
  destruct (delete_line_empties tl Hok) as (Hdp & Hdl & Hdlen & Hdf).
  destruct (line_frame_fields _ _ Hdf)
    as (F1 & F2 & F3 & F4 & _ & F6 & _).
  assert (Hmax : 0 < TL_MAX_LINE_LEN hdr) by (destruct Hok; lia).
  set (tld := delete_line tl) in *.
  destruct (set_line_empty hdr tld Hdl Hdp Hmax) as (Sl & Sp & Slen & Sf).
  destruct (line_frame_fields _ _ Sf) as (G1 & G2 & G3 & G4 & _ & G6 & _).
  set (tl1 := set_hist_step (hist_end tl) (set_line hdr tld [])).
  assert (Hd1 : history_down hdr tl = Some tl1).
  { unfold history_down. destruct (Z.eqb_spec (hist_step tl) (-1)); [contradiction |].
    fold tld. rewrite F4, F3, F1.
    destruct (Z.eqb_spec (hist_step tl) (hist_end tl)); [contradiction |].
    rewrite (history_down_loop_finds hdr (hist_buf tl) n (hist_step tl));
      [| unfold hist_fuel; lia | exact Hnz | exact Hz].
    cbn [bind]. rewrite <- Hend, (cstr_at_nul _ _ Hend0 Hfree). reflexivity. }
  assert (Hok1 : line_ok tl1).
  { unfold line_ok. change (pos tl1) with (pos (set_line hdr tld [])).
    change (buf_len tl1) with (buf_len (set_line hdr tld [])).
    change (buf tl1) with (buf (set_line hdr tld [])).
    rewrite Sl, Sp, Slen, Hdlen. destruct Hok. lia. }
  destruct (delete_line_empties tl1 Hok1) as (Ddp & Ddl & _ & Ddf).
  destruct (line_frame_fields _ _ Ddf) as (D1 & D2 & D3 & D4 & _ & D6 & _).
  exists tl1, (set_hist_step (-1) (delete_line tl1)).
  unfold tl_input. rewrite He. cbn [Z.eqb Pos.eqb negb orb]. rewrite Hd1. cbn [bind].
  split; [reflexivity |]. split; [reflexivity |].
  split; [change (hist_step tl1) with (hist_end tl); lia |].
  split; [exact Sl |]. split; [exact Sp |].
  assert (He1 : escape_len tl1 = 0).
  { change (escape_len tl1) with (escape_len (set_line hdr tld [])). rewrite G6, F6. exact He. }
  rewrite He1. cbn [Z.eqb Pos.eqb negb orb].
  unfold history_down. change (hist_step tl1) with (hist_end tl).
  destruct (Z.eqb_spec (hist_end tl) (-1)); [lia |].
  rewrite D4, D3. change (hist_step tl1) with (hist_end tl).
  change (hist_end tl1) with (hist_end (set_line hdr tld [])). rewrite G3, F3.
  rewrite Z.eqb_refl. cbn [bind].
  split; [reflexivity |]. split; [reflexivity |]. split; assumption.
Qed.

(** The engine after the line [a] was submitted and recalled with Ctrl-P. *)
Definition a_recalled : t_tokenline := sample_after sample_hdr (str "a" ++ [13; 16]).

Lemma history_down_leaves_walk_in_two_steps_witness :
  escape_len a_recalled = 0 /\ hist_step a_recalled = 0 /\ hist_end a_recalled = 2 /\
  exists tl1 tl2,
    tl_input sample_hdr no_strtof a_recalled 14 = Some (TRUE, tl1) /\
    hist_step tl1 = hist_end a_recalled /\ hist_step tl1 <> -1 /\
    buf_len tl1 = 0 /\ pos tl1 = 0 /\
    tl_input sample_hdr no_strtof tl1 14 = Some (TRUE, tl2) /\
    hist_step tl2 = -1 /\ buf_len tl2 = 0 /\ pos tl2 = 0.
Proof.
  split; [reflexivity |]. split; [reflexivity |]. split; [reflexivity |].
  apply (history_down_leaves_walk_in_two_steps sample_hdr no_strtof a_recalled 1).
  - reflexivity.
  - by_eval.
  - reflexivity.
  - vm_compute. discriminate.
  - vm_compute. discriminate.
  - vm_compute. lia.
  - intros k Hk. assert (k = O) by lia. subst k. vm_compute. discriminate.
  - reflexivity.
  - reflexivity.
  - vm_compute. discriminate.
  - reflexivity.
Defined.

(** ** History keys without a walk *)

(** With no walk in progress the down key does nothing, and with an empty
    history the up key does nothing either: the engine stays as it was. *)
Theorem history_keys_idle hdr strtof (tl : t_tokenline) :
  escape_len tl = 0 -> hist_step tl = -1 ->
  tl_input hdr strtof tl 14 = Some (TRUE, tl) /\
  (hist_begin tl = hist_end tl -> tl_input hdr strtof tl 16 = Some (TRUE, tl)).
Proof.
  intros He Hs. unfold tl_input. rewrite He. cbn [Z.eqb Pos.eqb negb orb].
  unfold history_down, history_up, history_previous. rewrite Hs. cbn [Z.eqb Pos.eqb].
  split; [reflexivity |]. intros Hb. rewrite Hb, Z.eqb_refl. reflexivity.
Qed.

Lemma history_keys_idle_witness :
  escape_len ab_typed = 0 /\ hist_step ab_typed = -1 /\
  tl_input sample_hdr no_strtof ab_typed 14 = Some (TRUE, ab_typed) /\
  (hist_begin ab_typed = hist_end ab_typed ->
   tl_input sample_hdr no_strtof ab_typed 16 = Some (TRUE, ab_typed)).
Proof.
  assert (H1 : escape_len ab_typed = 0) by reflexivity.
  assert (H2 : hist_step ab_typed = -1) by reflexivity.
  split; [exact H1 |]. split; [exact H2 |].
  exact (history_keys_idle sample_hdr no_strtof ab_typed H1 H2).
Defined.

(** ** What the tokenizer leaves alone *)

(** [parse_frame tl tl']: [tl'] differs from [tl] at most in the parse
    result and the print log. *)
Definition parse_frame (tl tl' : t_tokenline) : Prop :=
  set_printed (printed tl) (set_parsed (parsed tl) tl') = tl.

Lemma parse_frame_refl tl : parse_frame tl tl.
Proof. destruct tl; reflexivity. Qed.

Lemma parse_frame_trans a b c : parse_frame a b -> parse_frame b c -> parse_frame a c.
Proof.
  unfold parse_frame. intros Hab Hbc. rewrite <- Hab at 3. rewrite <- Hbc at 1.
  destruct c; reflexivity.
Qed.

Lemma parse_frame_fields tl tl' :
  parse_frame tl tl' ->
  buf tl' = buf tl /\ buf_len tl' = buf_len tl /\ pos tl' = pos tl /\
  hist_buf tl' = hist_buf tl /\ hist_begin tl' = hist_begin tl /\
  hist_end tl' = hist_end tl /\ hist_step tl' = hist_step tl /\
  escape tl' = escape tl /\ escape_len tl' = escape_len tl /\
  called tl' = called tl /\ prompt tl' = prompt tl /\
  callback tl' = callback tl /\ token_dict tl' = token_dict tl /\
  token_levels tl' = token_levels tl /\ token_level tl' = token_level tl.
Proof.
  unfold parse_frame. intros H. rewrite <- H. destruct tl'; simpl.
  repeat split; reflexivity.
Qed.

(** What a round of the loop of [tokenize] does to the engine: on success
    nothing is printed; on failure one message is printed, and none when
    the caller is completing. *)
Lemma tokenize_word_frame hdr strtof completing word w tl :
  match tokenize_word hdr strtof completing word w tl with
  | (Some _, tl') => parse_frame tl tl' /\ printed tl' = printed tl
  | (None, tl') =>
      parse_frame tl tl' /\
      if completing then printed tl' = printed tl
      else exists msg, printed tl' = printed tl ++ [msg]
  end.
Proof.
  unfold tokenize_word, tokenize_error.
  destruct (strtol word), (strtof word).
  repeat match goal with
  | |- context [match subtokens ?e with _ => _ end] => destruct (subtokens e)
  | |- context [if ?c then _ else _] => destruct c
  end;
  cbv zeta;
  (split; [destruct tl; reflexivity |]);
  try reflexivity; try (eexists; destruct tl; reflexivity).
Qed.

Lemma tokenize_loop_frame hdr strtof completing words : forall w tl,
  match tokenize_loop hdr strtof completing words w tl with
  | (Some _, tl') => parse_frame tl tl' /\ printed tl' = printed tl
  | (None, tl') =>
      parse_frame tl tl' /\
      if completing then printed tl' = printed tl
      else exists msg, printed tl' = printed tl ++ [msg]
  end.
Proof.
  induction words as [| off r IH]; intros w tl; cbn [tokenize_loop].
  - split; [apply parse_frame_refl | reflexivity].
  - pose proof (tokenize_word_frame hdr strtof completing (cstr_at (buf tl) off) w tl) as Hw.
    destruct (tokenize_word hdr strtof completing (cstr_at (buf tl) off) w tl)
      as [[w' |] tl1]; [| exact Hw].
    destruct Hw as [Hf Hp]. specialize (IH w' tl1).
    destruct (tokenize_loop hdr strtof completing r w' tl1) as [[w'' |] tl2].
    + destruct IH as [Hf2 Hp2]. split; [eapply parse_frame_trans; eassumption | congruence].
    + destruct IH as [Hf2 Hp2]. split; [eapply parse_frame_trans; eassumption |].
      rewrite <- Hp. exact Hp2.
Qed.

(** [tokenize] changes nothing but the parse result and the print log: the
    line buffer, the cursor, the history and the callback log are as
    before.  It prints nothing when it succeeds and nothing when the caller
    asks for the completion tokens; a failure in parse mode prints exactly
    one message. *)
Theorem tokenize_touches_only_parsed hdr strtof (tl : t_tokenline)
  (words : list Z) (num_words : Z) (completing : bool) ok tl' ct arg :
  tokenize hdr strtof tl words num_words completing = (ok, tl', ct, arg) ->
  parse_frame tl tl' /\
  (completing = true -> printed tl' = printed tl) /\
  (ok = true -> printed tl' = printed tl) /\
  (ok = false -> completing = false -> exists msg, printed tl' = printed tl ++ [msg]).
Proof.
  unfold tokenize.
  pose proof (tokenize_loop_frame hdr strtof completing
                (take (Z.to_nat num_words) words)
                (mk_walk false 0 None
                   [default [] (token_levels tl !! Z.to_nat (token_level tl))] 0 0) tl)
    as Hl.
  destruct (tokenize_loop _ _ _ _ _ _) as [[w |] tl1].
  - destruct Hl as [Hf Hp].
    destruct (negb (arg_needed w =? 0) && negb completing) eqn:Hm.
    + intros [= <- <- <- <-].
      apply andb_true_iff in Hm as [_ Hc]. apply negb_true_iff in Hc. subst completing.
      split; [eapply parse_frame_trans; [exact Hf | destruct tl1; reflexivity] |].
      split; [discriminate |]. split; [discriminate |].
      intros _ _. eexists. cbn. rewrite Hp. reflexivity.
    + intros [= <- <- <- <-].
      split; [eapply parse_frame_trans; [exact Hf | destruct tl1; reflexivity] |].
      split; [intros _; exact Hp |]. split; [intros _; exact Hp | discriminate].
  - destruct Hl as [Hf Hp]. intros [= <- <- <- <-].
    split; [exact Hf |]. destruct completing.
    + split; [intros _; exact Hp |]. split; [discriminate | discriminate].
    + split; [discriminate |]. split; [discriminate |]. intros _ _. exact Hp.
Qed.

(** ** Split and unsplit on lines without quotes *)

(** What the loop of [split_line] does to a stretch without quotes: the
    quote flag stays off and the only bytes that change are spaces, which
    become NUL. *)
Lemma split_loop_quote_free hdr n : forall i state words b,
  (forall j, i <= j < i + Z.of_nat n -> load b j <> 34) ->
  match split_loop hdr n i state false words b with
  | (quoted, _, b') =>
      quoted = false /\ length b' = length b /\
      forall j, load b' j = load b j \/
                (load b j = 32 /\ load b' j = 0 /\ i <= j < i + Z.of_nat n)
  end.
Proof.
  induction n as [| n IH]; intros i state words b Hq; cbn [split_loop].
  - repeat split. intros j. left. reflexivity.
  - assert (Hq' : forall b2, (forall j, j <> i -> load b2 j = load b j) ->
              forall j, i + 1 <= j < i + 1 + Z.of_nat n -> load b2 j <> 34).
    { intros b2 Hb2 j Hj. rewrite Hb2 by lia. apply Hq. lia. }
    assert (Hi : load b i <> 34) by (apply Hq; lia).
    assert (Hsame : forall w st,
              match split_loop hdr n (i + 1) st false w b with
              | (quoted, _, b') =>
                  quoted = false /\ length b' = length b /\
                  forall j, load b' j = load b j \/
                    (load b j = 32 /\ load b' j = 0 /\ i <= j < i + Z.of_nat (S n))
              end).
    { intros w st. specialize (IH (i + 1) st w b (Hq' b (fun _ _ => eq_refl))).
      destruct (split_loop hdr n (i + 1) st false w b) as [[q w'] b'].
      destruct IH as (Hq1 & Hl1 & Hj1). repeat split; try assumption.
      intros j. destruct (Hj1 j) as [? | (? & ? & ?)]; [left; assumption |].
      right. repeat split; try assumption; lia. }
    destruct (Z.of_nat (length words) <? TL_MAX_WORDS hdr);
      [| repeat split; intros j; left; reflexivity].
    destruct (state =? 1).
    + destruct (Z.eqb_spec (load b i) 32); [apply Hsame |].
      destruct (Z.eqb_spec (load b i) 34); [contradiction |]. apply Hsame.
    + cbn [andb negb].
      destruct (Z.eqb_spec (load b i) 32) as [H32 | H32]; [| apply Hsame].
      specialize (IH (i + 1) 1 words (store b i 0)
                    (Hq' _ (fun j Hj => load_store_ne b i 0 j Hj))).
      destruct (split_loop hdr n (i + 1) 1 false words (store b i 0)) as [[q w'] b'].
      destruct IH as (Hq1 & Hl1 & Hj1). rewrite length_store in Hl1.
      repeat split; try assumption.
      intros j. destruct (Z.eq_dec j i) as [-> | Hne].
      * destruct (Hj1 i) as [Hs | (_ & _ & ?)]; [| lia].
        rewrite load_store in Hs.
        destruct (Z.eqb_spec i i); [| lia]. cbn [andb] in Hs.
        destruct (Z.leb_spec 0 i), (Z.ltb_spec i (Z.of_nat (length b)));
          cbn [andb] in Hs.
        -- right. repeat split; [assumption | assumption | lia | lia].
        -- left. assumption.
        -- left. assumption.
        -- left. assumption.
      * destruct (Hj1 j) as [Hs | (Hs1 & Hs2 & Hs3)];
          rewrite ?load_store_ne in * by assumption.
        -- left. assumption.
        -- right. repeat split; try assumption; lia.
Qed.

(** What the loop of [unsplit_line] does to a stretch without quotes: every
    NUL becomes a space. *)
Lemma unsplit_loop_quote_free n : forall i b,
  (forall j, i <= j < i + Z.of_nat n -> load b j <> 34) ->
  length (unsplit_loop n i false b) = length b /\
  forall j, load (unsplit_loop n i false b) j =
    if (i <=? j) && (j <? i + Z.of_nat n) && (load b j =? 0)
       && (0 <=? j) && (j <? Z.of_nat (length b))
    then 32 else load b j.
Proof.
  induction n as [| n IH]; intros i b Hq; cbn [unsplit_loop].
  - split; [reflexivity |]. intros j.
    destruct (Z.leb_spec i j), (Z.ltb_spec j (i + Z.of_nat 0)); cbn [andb];
      try reflexivity; lia.
  - assert (Hi : load b i <> 34) by (apply Hq; lia).
    destruct (Z.eqb_spec (load b i) 34); [contradiction |].
    destruct (Z.eqb_spec (load b i) 0) as [H0 | H0].
    + destruct (IH (i + 1) (store b i 32)) as [Hl Hj].
      { intros j Hj. rewrite load_store_ne by lia. apply Hq. lia. }
      rewrite length_store in Hl, Hj. split; [exact Hl |].
      intros j. rewrite Hj. rewrite load_store.
      destruct (Z.eq_dec j i) as [-> | Hne].
      * rewrite H0. tests; try reflexivity; try lia.
      * destruct (Z.eqb_spec j i); [contradiction |]. cbn [andb].
        tests; try reflexivity; lia.
    + destruct (IH (i + 1) b) as [Hl Hj].
      { intros j Hj. apply Hq. lia. }
      split; [exact Hl |]. intros j. rewrite Hj.
      destruct (Z.eq_dec j i) as [-> | Hne].
      * destruct (Z.eqb_spec (load b i) 0); [contradiction |].
        tests; try reflexivity; lia.
      * tests; try reflexivity; lia.
Qed.

(** On a well-formed line without double quotes and NUL bytes, [split_line]
    followed by [unsplit_line] gives back the line buffer, and a
    [split_line] that fails (too many words) has restored it itself; the
    line length is never changed. *)
Theorem split_unsplit_quote_free hdr (tl : t_tokenline) (silent : bool) :
  line_wf tl ->
  (forall j, 0 <= j < buf_len tl -> load (buf tl) j <> 34 /\ load (buf tl) j <> 0) ->
  exists ok words tl',
    split_line hdr tl silent = (ok, words, tl') /\
    buf_len tl' = buf_len tl /\
    (ok = true -> buf (unsplit_line tl') = buf tl
                  /\ buf_len (unsplit_line tl') = buf_len tl) /\
    (ok = false -> buf tl' = buf tl).
Proof.
  intros [[Hp Hl] Hz] Hline. unfold split_line.
  pose proof (split_loop_quote_free hdr (Z.to_nat (buf_len tl)) 0 1 [] (buf tl)) as Hs.
  destruct (split_loop hdr (Z.to_nat (buf_len tl)) 0 1 false [] (buf tl))
    as [[quoted words] b'].
  destruct Hs as (-> & Hlen & Hb').
  { intros j Hj. apply Hline. lia. }
  assert (Hnq : forall j, 0 <= j < 0 + Z.of_nat (Z.to_nat (buf_len tl)) -> load b' j <> 34).
  { intros j Hj. destruct (Hb' j) as [-> | (_ & -> & _)]; [apply Hline; lia | lia]. }
  assert (Hback : store (unsplit_loop (Z.to_nat (buf_len tl)) 0 false b')
                    (buf_len tl) 0 = buf tl).
  { destruct (unsplit_loop_quote_free _ 0 b' Hnq) as [Hul Huj].
    apply list_eq_load; [rewrite length_store; congruence |].
    intros i Hi. rewrite length_store, Hul, Hlen in Hi.
    rewrite load_store, Huj, Hul, Hlen.
    destruct (Z.eqb_spec i (buf_len tl)) as [-> | Hne].
    - destruct (Z.leb_spec 0 (buf_len tl)), (Z.ltb_spec (buf_len tl) (Z.of_nat (length (buf tl))));
        cbn [andb]; lia.
    - cbn [andb].
      destruct (Z.leb_spec 0 i); [| lia].
      destruct (Z.ltb_spec i (0 + Z.of_nat (Z.to_nat (buf_len tl)))); cbn [andb].
      + destruct (Hline i ltac:(lia)) as [H34 Hnz].
        destruct (Hb' i) as [He | (H32 & He & _)]; rewrite He.
        * destruct (Z.eqb_spec (load (buf tl) i) 0); [contradiction | reflexivity].
        * cbn [Z.eqb andb]. destruct (Z.ltb_spec i (Z.of_nat (length (buf tl)))); [| lia].
          symmetry. exact H32.
      + destruct (Hb' i) as [He | (_ & _ & ?)]; [exact He | lia]. }
  cbn [negb]. destruct (Z.of_nat (length words) =? TL_MAX_WORDS hdr).
  - eexists false, words, _. split; [reflexivity |].
    split; [destruct silent; reflexivity |].
    split; [discriminate |]. intros _.
    destruct silent; cbn; exact Hback.
  - eexists true, words, _. split; [reflexivity |].
    split; [reflexivity |]. split; [| discriminate]. intros _.
    split; [exact Hback | reflexivity].
Qed.

Lemma tokenize_touches_only_parsed_witness :
  exists tl' ct,
    tokenize sample_hdr no_strtof set_0x2A_split [0; 4] 2 false = (true, tl', ct, 0) /\
    parse_frame set_0x2A_split tl' /\
    (false = true -> printed tl' = printed set_0x2A_split) /\
    (true = true -> printed tl' = printed set_0x2A_split) /\
    (true = false -> false = false ->
     exists msg, printed tl' = printed set_0x2A_split ++ [msg]).
Proof.
  pose (r := tokenize sample_hdr no_strtof set_0x2A_split [0; 4] 2 false).
  assert (E : tokenize sample_hdr no_strtof set_0x2A_split [0; 4] 2 false
              = (true, snd (fst (fst r)), snd (fst r), 0))
    by (vm_compute; reflexivity).
  exists (snd (fst (fst r))), (snd (fst r)). split; [exact E |].
  exact (tokenize_touches_only_parsed sample_hdr no_strtof set_0x2A_split
           [0; 4] 2 false true _ _ 0 E).
Defined.

(** The engine after the bytes [ab cd]. *)
Definition ab_cd_typed : t_tokenline := sample_after sample_hdr (str "ab cd").

Lemma split_unsplit_quote_free_witness :
  line_wf ab_cd_typed /\
  (forall j, 0 <= j < buf_len ab_cd_typed ->
     load (buf ab_cd_typed) j <> 34 /\ load (buf ab_cd_typed) j <> 0) /\
  exists ok words tl',
    split_line sample_hdr ab_cd_typed true = (ok, words, tl') /\
    buf_len tl' = buf_len ab_cd_typed /\
    (ok = true -> buf (unsplit_line tl') = buf ab_cd_typed
                  /\ buf_len (unsplit_line tl') = buf_len ab_cd_typed) /\
    (ok = false -> buf tl' = buf ab_cd_typed).
Proof.
  assert (H1 : line_wf ab_cd_typed) by by_eval.
  assert (H2 : forall j, 0 <= j < buf_len ab_cd_typed ->
                 load (buf ab_cd_typed) j <> 34 /\ load (buf ab_cd_typed) j <> 0).
  { intros j Hj. change (buf_len ab_cd_typed) with 5 in Hj.
    assert (Hc : j = 0 \/ j = 1 \/ j = 2 \/ j = 3 \/ j = 4) by lia.
    destruct Hc as [-> | [-> | [-> | [-> | ->]]]]; vm_compute; split; discriminate. }
  split; [exact H1 |]. split; [exact H2 |].
  exact (split_unsplit_quote_free sample_hdr ab_cd_typed true H1 H2).
Defined.

(** ** The history ring before it wraps *)

(** The bytes of the entries, oldest first, each with its terminating NUL. *)
Definition ring_bytes (ls : list (list Z)) : list Z :=
  concat (map (fun l => l ++ [0]) ls).

(** The ring holds the lines [ls], oldest first, from offset 0 on and has
    not wrapped: the entries are followed by zero bytes up to the end of the
    ring, of which there is at least one. *)
Definition ring_holds (hdr : t_header) (tl : t_tokenline) (ls : list (list Z)) : Prop :=
  hist_begin tl = 0 /\
  hist_end tl = Z.of_nat (length (ring_bytes ls)) /\
  Z.of_nat (length (ring_bytes ls)) < TL_MAX_HISTORY_SIZE hdr /\
  hist_buf tl = ring_bytes ls
                ++ repeat 0 (Z.to_nat (TL_MAX_HISTORY_SIZE hdr) - length (ring_bytes ls)) /\
  Forall (fun l => l <> [] /\ cstring l) ls.

Lemma ring_bytes_app a b : ring_bytes (a ++ b) = ring_bytes a ++ ring_bytes b.
Proof. unfold ring_bytes. rewrite map_app, concat_app. reflexivity. Qed.

Lemma ring_bytes_snoc a l : ring_bytes (a ++ [l]) = ring_bytes a ++ l ++ [0].
Proof. rewrite ring_bytes_app. unfold ring_bytes. cbn. rewrite app_nil_r. reflexivity. Qed.

Lemma load_repeat n i : load (repeat 0 n) i = 0.
Proof.
  unfold load. destruct (i <? 0); [reflexivity |].
  destruct (repeat 0 n !! Z.to_nat i) as [x |] eqn:E; [| reflexivity].
  apply list_elem_of_lookup_2, list_elem_of_In, repeat_spec in E. exact E.
Qed.

Lemma cstr_app_nul l r : cstring l -> cstr (l ++ 0 :: r) = l.
Proof.
  induction 1 as [| c l Hc _ IH]; cbn; [reflexivity |].
  destruct (Z.eqb_spec c 0); [contradiction | congruence].
Qed.

Lemma load_cstr m : forall i,
  0 <= i <= Z.of_nat (length (cstr m)) -> load m i = load (cstr m ++ [0]) i.
Proof.
  induction m as [| c m IH]; intros i Hi; cbn [cstr] in *.
  - cbn in Hi. assert (i = 0) by lia. subst. reflexivity.
  - destruct (Z.eqb_spec c 0) as [-> | Hc].
    + cbn in Hi. assert (i = 0) by lia. subst. reflexivity.
    + cbn [app]. rewrite !load_cons. destruct (Z.eqb_spec i 0); [reflexivity |].
      apply IH. cbn [length] in Hi. lia.
Qed.

(** The [strlen + 1] bytes that [memcpy] reads at a C string. *)
Lemma bytes_at_cstr m : bytes_at m 0 (strlen (cstr m) + 1) = cstr m ++ [0].
Proof.
  apply list_eq_load.
  - rewrite length_bytes_at, length_app. unfold strlen. cbn. lia.
  - intros i Hi. rewrite length_bytes_at in Hi. unfold strlen in *.
    rewrite load_bytes_at, Z.add_0_l.
    destruct (Z.leb_spec 0 i), (Z.ltb_spec i (Z.of_nat (length (cstr m)) + 1));
      cbn [andb]; try lia.
    apply load_cstr. lia.
Qed.

(** Writing an entry behind the entries of a ring that has room. *)
Lemma memcpy_behind (a src : list Z) (n : nat) :
  (length src <= n)%nat ->
  memcpy (a ++ repeat 0 n) (Z.of_nat (length a)) src
  = (a ++ src) ++ repeat 0 (n - length src).
Proof.
  intros Hn. apply list_eq_load.
  - rewrite length_memcpy, !length_app, !repeat_length. lia.
  - intros i Hi. rewrite length_memcpy, length_app, repeat_length in Hi.
    rewrite load_memcpy_if, !load_app, !length_app, !repeat_length, !load_repeat.
    tests; try reflexivity; try lia.
Qed.

(** While the ring has room behind its entries for a line and one more
    byte, [history_add] appends the line of the line buffer as the newest
    entry, evicts nothing and changes nothing in the engine but the ring and
    [hist_end]. *)
Lemma history_add_appends hdr (tl : t_tokenline) (ls : list (list Z)) :
  ring_holds hdr tl ls ->
  cstr (buf tl) <> [] ->
  Z.of_nat (length (ring_bytes ls)) + strlen (cstr (buf tl)) + 1
    < TL_MAX_HISTORY_SIZE hdr ->
  exists tl', history_add hdr tl = Some tl' /\
    ring_holds hdr tl' (ls ++ [cstr (buf tl)]) /\
    set_hist_end (hist_end tl) (set_hist_buf (hist_buf tl) tl') = tl.
Proof.
  intros (Hb & He & Hlt & Hhb & Hall) Hne Hroom.
  remember (cstr (buf tl)) as l eqn:El.
  remember (length (ring_bytes ls)) as T eqn:ET.
  remember (TL_MAX_HISTORY_SIZE hdr) as H eqn:EH.
  unfold strlen in *.
  assert (Hsrc : bytes_at (buf tl) 0 (Z.of_nat (length l) + 1) = l ++ [0]) by (subst l; apply bytes_at_cstr).
  assert (Hlen : length (l ++ [0]) = S (length l)) by (rewrite length_app; cbn; lia).
  assert (Hcopy : memcpy (hist_buf tl) (hist_end tl) (l ++ [0])
                  = ring_bytes (ls ++ [l])
                    ++ repeat 0 (Z.to_nat H - length (ring_bytes (ls ++ [l])))).
  { rewrite Hhb, He, ET. rewrite memcpy_behind by (rewrite Hlen; lia).
    rewrite ring_bytes_snoc. f_equal. f_equal. rewrite !length_app. lia. }
  assert (Hnew : ring_holds hdr
            (set_hist_end (hist_end tl + (Z.of_nat (length l) + 1))
               (set_hist_buf (memcpy (hist_buf tl) (hist_end tl) (l ++ [0])) tl))
            (ls ++ [l])).
  { unfold ring_holds. cbn [hist_begin hist_end hist_buf set_hist_end set_hist_buf].
    rewrite Hcopy, ring_bytes_snoc, length_app, Hlen, <- ET, <- EH.
    split; [exact Hb |]. split; [lia |]. split; [lia |].
    split; [reflexivity |].
    apply Forall_app. split; [exact Hall |]. constructor; [| constructor].
    split; [exact Hne | subst l; apply cstring_cstr]. }
  unfold history_add. unfold strlen. rewrite <- El, <- EH, Hsrc.
  assert (Hend : (hist_end tl + (Z.of_nat (length l) + 1) >=? H) = false).
  { destruct (Z.geb_spec (hist_end tl + (Z.of_nat (length l) + 1)) H); [lia | reflexivity]. }
  assert (Hne0 : (0 =? hist_end tl + (Z.of_nat (length l) + 1)) = false)
    by (apply Z.eqb_neq; lia).
  destruct (Z.eqb_spec (hist_begin tl) (hist_end tl)) as [Hbe | Hbe].
  - cbn [bind]. cbn [hist_end hist_begin set_hist_end set_hist_buf].
    rewrite Hend. cbn [hist_end hist_begin set_hist_end set_hist_buf].
    rewrite Hb, Hne0.
    assert (He0 : hist_end tl = 0) by lia.
    eexists. split; [reflexivity |].
    rewrite He0 in Hnew. rewrite He0 at 1. split; [exact Hnew |].
    destruct tl; reflexivity.
  - destruct (Z.ltb_spec (hist_begin tl) (hist_end tl)); [| lia].
    destruct (Z.geb_spec (H - hist_end tl) (Z.of_nat (length l) + 1)); [| lia].
    cbn [bind]. cbn [hist_end hist_begin set_hist_end set_hist_buf].
    rewrite Hend. cbn [hist_end hist_begin set_hist_end set_hist_buf].
    rewrite Hb, Hne0.
    eexists. split; [reflexivity |]. split; [exact Hnew |].
    destruct tl; reflexivity.
Qed.

Lemma ring_bytes_cons l b : ring_bytes (l :: b) = l ++ 0 :: ring_bytes b.
Proof. unfold ring_bytes. cbn. rewrite <- app_assoc. reflexivity. Qed.

Lemma ring_bytes_mid a l b :
  ring_bytes (a ++ l :: b) = ring_bytes a ++ l ++ 0 :: ring_bytes b.
Proof. rewrite ring_bytes_app, ring_bytes_cons. reflexivity. Qed.

Lemma load_cstring l k :
  cstring l -> 0 <= k < Z.of_nat (length l) -> load l k <> 0.
Proof.
  intros Hl Hk. unfold load. destruct (Z.ltb_spec k 0); [lia |].
  destruct (l !! Z.to_nat k) as [c |] eqn:E.
  - cbn. unfold cstring in Hl. rewrite Forall_forall in Hl.
    apply Hl. eapply list_elem_of_lookup_2. exact E.
  - apply lookup_ge_None in E. lia.
Qed.

(** What the ring holds at and around the entry [l]. *)
Section Entry.
Variables (hdr : t_header) (tl : t_tokenline).
Variables (a : list (list Z)) (l : list Z) (b : list (list Z)).
Hypothesis Hring : ring_holds hdr tl (a ++ l :: b).

Let start := Z.of_nat (length (ring_bytes a)).

Lemma ring_entry_cstring : l <> [] /\ cstring l.
Proof.
  destruct Hring as (_ & _ & _ & _ & Hall).
  apply Forall_app in Hall. destruct Hall as [_ Hall].
  inversion Hall; subst. assumption.
Qed.

Lemma ring_entry_fits :
  start + Z.of_nat (length l) < TL_MAX_HISTORY_SIZE hdr /\
  start + Z.of_nat (length l) + 1 <= hist_end tl.
Proof.
  destruct Hring as (_ & He & Hlt & _ & _).
  rewrite ring_bytes_mid in He, Hlt. rewrite !length_app in He, Hlt.
  cbn [length] in He, Hlt. subst start. lia.
Qed.

Lemma ring_entry_byte k :
  0 <= k < Z.of_nat (length l) -> load (hist_buf tl) (start + k) <> 0.
Proof.
  intros Hk. destruct Hring as (_ & _ & _ & Hhb & _).
  rewrite Hhb, ring_bytes_mid, <- !app_assoc, load_app.
  destruct (Z.ltb_spec (start + k) (Z.of_nat (length (ring_bytes a))));
    [subst start; lia |].
  rewrite load_app.
  destruct (Z.ltb_spec (start + k - Z.of_nat (length (ring_bytes a)))
              (Z.of_nat (length l))); [| subst start; lia].
  apply load_cstring; [apply ring_entry_cstring | subst start; lia].
Qed.

Lemma ring_entry_nul : load (hist_buf tl) (start + Z.of_nat (length l)) = 0.
Proof.
  destruct Hring as (_ & _ & _ & Hhb & _).
  rewrite Hhb, ring_bytes_mid, <- !app_assoc, load_app.
  destruct (Z.ltb_spec (start + Z.of_nat (length l))
              (Z.of_nat (length (ring_bytes a)))); [subst start; lia |].
  rewrite load_app.
  destruct (Z.ltb_spec (start + Z.of_nat (length l) - Z.of_nat (length (ring_bytes a)))
              (Z.of_nat (length l))); [subst start; lia |].
  rewrite <- app_comm_cons, load_cons.
  destruct (Z.eqb_spec (start + Z.of_nat (length l) - Z.of_nat (length (ring_bytes a))
                        - Z.of_nat (length l)) 0); [reflexivity | subst start; lia].
Qed.

Lemma ring_entry_cstr : cstr_at (hist_buf tl) start = l.
Proof.
  destruct Hring as (_ & _ & _ & Hhb & _).
  unfold cstr_at. destruct (Z.ltb_spec start 0); [subst start; lia |].
  rewrite Hhb, ring_bytes_mid, <- !app_assoc.
  subst start. rewrite Nat2Z.id, drop_app_length.
  cbn [app]. apply cstr_app_nul. apply ring_entry_cstring.
Qed.
End Entry.

(** The byte before an entry is free: it is the NUL of the entry before it,
    or, for the oldest entry, the last byte of the ring. *)
Lemma ring_before hdr tl a b :
  ring_holds hdr tl (a ++ b) ->
  load (hist_buf tl) (hist_dec hdr (Z.of_nat (length (ring_bytes a)))) = 0.
Proof.
  intros Hring. unfold hist_dec.
  destruct (Z.ltb_spec (Z.of_nat (length (ring_bytes a)) - 1) 0) as [H0 | H0].
  - destruct Hring as (_ & _ & Hlt & Hhb & _).
    rewrite Hhb, load_app.
    destruct (Z.ltb_spec (TL_MAX_HISTORY_SIZE hdr - 1)
                (Z.of_nat (length (ring_bytes (a ++ b))))); [lia |].
    apply load_repeat.
  - induction a as [| x a' _] using rev_ind; [cbn in H0; lia |].
    rewrite <- app_assoc in Hring. cbn [app] in Hring.
    rewrite ring_bytes_snoc, !length_app. cbn [length].
    replace (Z.of_nat (length (ring_bytes a') + (length x + 1)) - 1)
      with (Z.of_nat (length (ring_bytes a')) + Z.of_nat (length x)) by lia.
    exact (ring_entry_nul hdr tl a' x b Hring).
Qed.

(** The scan of [history_previous] from the last byte of an entry back to
    its first. *)
Lemma history_previous_loop_back hdr hb start : forall (k fuel : nat),
  (k + 1 < fuel)%nat -> 0 <= start ->
  (forall j, 0 <= j <= Z.of_nat k -> load hb (start + j) <> 0) ->
  load hb (hist_dec hdr start) = 0 ->
  history_previous_loop hdr fuel hb (start + Z.of_nat k + 1) (start + Z.of_nat k)
  = Some start.
Proof.
  induction k as [| k IH]; intros fuel Hf Hs Hnz Hz;
    (destruct fuel as [| fuel]; [lia |]); cbn [history_previous_loop].
  - change (Z.of_nat 0) with 0. rewrite Z.add_0_r.
    pose proof (Hnz 0 ltac:(lia)) as H0. rewrite Z.add_0_r in H0.
    destruct (Z.eqb_spec (load hb start) 0); [contradiction |].
    destruct fuel as [| fuel]; [lia |]. cbn [history_previous_loop].
    rewrite Hz. reflexivity.
  - pose proof (Hnz (Z.of_nat (S k)) ltac:(lia)) as H0.
    destruct (Z.eqb_spec (load hb (start + Z.of_nat (S k))) 0); [contradiction |].
    replace (hist_dec hdr (start + Z.of_nat (S k))) with (start + Z.of_nat k)
      by (unfold hist_dec; destruct (Z.ltb_spec (start + Z.of_nat (S k) - 1) 0); lia).
    replace (start + Z.of_nat (S k)) with (start + Z.of_nat k + 1) by lia.
    apply IH; [lia | lia | | exact Hz].
    intros j Hj. apply Hnz. lia.
Qed.

(** [history_previous] from the offset behind an entry gives the offset of
    the entry. *)
Lemma history_previous_entry hdr tl a l b :
  ring_holds hdr tl (a ++ l :: b) ->
  history_previous hdr tl (Z.of_nat (length (ring_bytes (a ++ [l]))))
  = Some (Z.of_nat (length (ring_bytes a))).
Proof.
  intros Hring.
  destruct (ring_entry_cstring hdr tl a l b Hring) as [Hne Hcs].
  destruct (ring_entry_fits hdr tl a l b Hring) as [Hfit _].
  assert (Hl : (0 < length l)%nat) by (destruct l; [congruence | cbn; lia]).
  rewrite ring_bytes_snoc, !length_app. cbn [length].
  unfold history_previous.
  destruct Hring as (Hb & He & Hlt & Hhb & Hall) eqn:Er. clear Er.
  rewrite Hb.
  destruct (Z.eqb_spec (Z.of_nat (length (ring_bytes a) + (length l + 1))) 0); [lia |].
  cbv zeta.
  set (start := Z.of_nat (length (ring_bytes a))) in *.
  replace (hist_dec hdr (Z.of_nat (length (ring_bytes a) + (length l + 1))))
    with (start + Z.of_nat (length l - 1) + 1)
    by (unfold hist_dec, start;
        destruct (Z.ltb_spec (Z.of_nat (length (ring_bytes a) + (length l + 1)) - 1) 0); lia).
  replace (hist_dec hdr (start + Z.of_nat (length l - 1) + 1))
    with (start + Z.of_nat (length l - 1))
    by (unfold hist_dec, start;
        destruct (Z.ltb_spec (Z.of_nat (length (ring_bytes a))
                                + Z.of_nat (length l - 1) + 1 - 1) 0); lia).
  apply history_previous_loop_back.
  - unfold hist_fuel. lia.
  - unfold start. lia.
  - intros j Hj. apply (ring_entry_byte hdr tl a l b); [| lia].
    unfold ring_holds. auto.
  - apply (ring_before hdr tl a (l :: b)). unfold ring_holds. auto.
Qed.

(** [set_line] on an empty line makes the string the line. *)
Lemma set_line_fills hdr (tl : t_tokenline) (l : list Z) :
  buf_len tl = 0 -> pos tl = 0 ->
  strlen l < TL_MAX_LINE_LEN hdr ->
  Z.of_nat (length (buf tl)) = TL_MAX_LINE_LEN hdr ->
  line (set_line hdr tl l) = l /\
  buf_len (set_line hdr tl l) = strlen l /\ pos (set_line hdr tl l) = strlen l /\
  load (buf (set_line hdr tl l)) (strlen l) = 0 /\
  length (buf (set_line hdr tl l)) = length (buf tl) /\
  line_frame tl (set_line hdr tl l).
Proof.
  intros Hb Hp Hl Hlen. unfold set_line, strlen in *.
  destruct (Z.gtb_spec (Z.of_nat (length l)) (TL_MAX_LINE_LEN hdr - 1)); [lia |].
  destruct (Z.eqb_spec (pos tl) (buf_len tl)); [| lia].
  cbv zeta. unfold line.
  cbn [buf buf_len pos set_buf set_buf_len set_pos print set_printed].
  rewrite Hb, Hp, !Z.add_0_l.
  split; [| split; [reflexivity | split; [reflexivity | split; [| split]]]].
  - rewrite Nat2Z.id. arrays_eq.
  - rewrite load_store_eq; [reflexivity |]. rewrite length_memcpy. lia.
  - rewrite length_store, length_memcpy. reflexivity.
  - frame.
Qed.

(** A walk position set on top of a change of the line. *)
Lemma line_frame_hist_step tl tl' s :
  line_frame tl tl' ->
  line_frame tl (set_hist_step (hist_step tl) (set_hist_step s tl')).
Proof.
  unfold line_frame. intros H. destruct tl, tl'. cbn in *.
  inversion H; subst. reflexivity.
Qed.

Lemma iter_hist_inc hdr s : forall k : nat,
  0 <= s -> s + Z.of_nat k < TL_MAX_HISTORY_SIZE hdr ->
  Nat.iter k (hist_inc hdr) s = s + Z.of_nat k.
Proof.
  induction k as [| k IH]; intros Hs Hk; [cbn; lia |].
  rewrite Nat.iter_succ, IH by lia. unfold hist_inc.
  destruct (Z.eqb_spec (s + Z.of_nat k + 1) (TL_MAX_HISTORY_SIZE hdr)); lia.
Qed.

(** Ctrl-P replaces the line with the entry before the walk position: the
    newest entry when no walk is in progress. *)
Theorem ctrl_p_recalls_previous hdr strtof (tl : t_tokenline)
    (a : list (list Z)) (l : list Z) (b : list (list Z)) :
  escape_len tl = 0 -> line_ok tl ->
  Z.of_nat (length (buf tl)) = TL_MAX_LINE_LEN hdr ->
  ring_holds hdr tl (a ++ l :: b) ->
  strlen l < TL_MAX_LINE_LEN hdr ->
  (hist_step tl = -1 /\ b = []) \/
    hist_step tl = Z.of_nat (length (ring_bytes (a ++ [l]))) ->
  exists tl', tl_input hdr strtof tl 16 = Some (TRUE, tl') /\
    line tl' = l /\ buf_len tl' = strlen l /\ pos tl' = strlen l /\
    load (buf tl') (buf_len tl') = 0 /\
    hist_step tl' = Z.of_nat (length (ring_bytes a)) /\
    line_frame tl (set_hist_step (hist_step tl) tl').
Proof.
  intros He Hok Hlen Hring Hl Hstep.
  pose proof (history_previous_entry hdr tl a l b Hring) as Hprev.
  destruct (delete_line_empties tl Hok) as (Hdp & Hdl & Hdlen & Hdf).
  destruct (line_frame_fields _ _ Hdf) as (F1 & F2 & F3 & F4 & _).
  set (tld := delete_line tl) in *.
  assert (Hlen' : Z.of_nat (length (buf tld)) = TL_MAX_LINE_LEN hdr) by lia.
  destruct (set_line_fills hdr tld l Hdl Hdp Hl Hlen') as (S1 & S2 & S3 & S4 & S5 & S6).
  assert (Hup : history_up hdr tl
                = Some (set_hist_step (Z.of_nat (length (ring_bytes a)))
                          (set_line hdr tld l))).
  { unfold history_up.
    assert (Hentry : (if hist_step tl =? -1
                      then history_previous hdr tl (hist_end tl)
                      else history_previous hdr tl (hist_step tl))
                     = Some (Z.of_nat (length (ring_bytes a)))).
    { destruct Hstep as [[Hs ->] | Hs].
      - rewrite Hs. cbn [Z.eqb Pos.eqb].
        destruct Hring as (_ & Hend & _). rewrite Hend. exact Hprev.
      - rewrite Hs.
        destruct (Z.eqb_spec (Z.of_nat (length (ring_bytes (a ++ [l])))) (-1)); [lia |].
        exact Hprev. }
    rewrite Hentry. cbn [bind].
    destruct (Z.eqb_spec (Z.of_nat (length (ring_bytes a))) (-1)); [lia |].
    cbv zeta. fold tld. rewrite F1.
    rewrite (ring_entry_cstr hdr tl a l b Hring). reflexivity. }
  eexists. unfold tl_input. rewrite He. cbn [Z.eqb Pos.eqb negb orb].
  rewrite Hup. cbn [bind]. split; [reflexivity |].
  split; [exact S1 |]. split; [exact S2 |]. split; [exact S3 |].
  split; [cbn [buf buf_len set_hist_step]; rewrite S2; exact S4 |].
  split; [reflexivity |].
  apply line_frame_hist_step. exact (line_frame_trans _ _ _ Hdf S6).
Qed.

(** Ctrl-N during a walk replaces the line with the entry after the walk
    position. *)
Theorem ctrl_n_recalls_next hdr strtof (tl : t_tokenline)
    (a : list (list Z)) (l l' : list Z) (b : list (list Z)) :
  escape_len tl = 0 -> line_ok tl ->
  Z.of_nat (length (buf tl)) = TL_MAX_LINE_LEN hdr ->
  ring_holds hdr tl (a ++ l :: l' :: b) ->
  strlen l' < TL_MAX_LINE_LEN hdr ->
  hist_step tl = Z.of_nat (length (ring_bytes a)) ->
  exists tl', tl_input hdr strtof tl 14 = Some (TRUE, tl') /\
    line tl' = l' /\ buf_len tl' = strlen l' /\ pos tl' = strlen l' /\
    load (buf tl') (buf_len tl') = 0 /\
    hist_step tl' = Z.of_nat (length (ring_bytes (a ++ [l]))) /\
    line_frame tl (set_hist_step (hist_step tl) tl').
Proof.
  intros He Hok Hlen Hring Hl Hstep.
  assert (Hring' : ring_holds hdr tl ((a ++ [l]) ++ l' :: b))
    by (rewrite <- app_assoc; exact Hring).
  destruct (ring_entry_fits hdr tl a l (l' :: b) Hring) as [Hfit Hfit'].
  destruct (ring_entry_fits hdr tl (a ++ [l]) l' b Hring') as [Hfit2 _].
  rewrite ring_bytes_snoc, !length_app in Hfit2. cbn [length] in Hfit2.
  destruct (delete_line_empties tl Hok) as (Hdp & Hdl & Hdlen & Hdf).
  destruct (line_frame_fields _ _ Hdf) as (F1 & F2 & F3 & F4 & _).
  set (tld := delete_line tl) in *.
  assert (Hlen' : Z.of_nat (length (buf tld)) = TL_MAX_LINE_LEN hdr) by lia.
  destruct (set_line_fills hdr tld l' Hdl Hdp Hl Hlen') as (S1 & S2 & S3 & S4 & S5 & S6).
  set (start := Z.of_nat (length (ring_bytes a))) in *.
  assert (Hnext : Z.of_nat (length (ring_bytes (a ++ [l]))) = start + Z.of_nat (length l) + 1)
    by (rewrite ring_bytes_snoc, !length_app; cbn [length]; unfold start; lia).
  assert (Hdown : history_down hdr tl
                  = Some (set_hist_step (Z.of_nat (length (ring_bytes (a ++ [l]))))
                            (set_line hdr tld l'))).
  { unfold history_down. rewrite Hstep.
    destruct (Z.eqb_spec start (-1)); [unfold start in *; lia |].
    cbv zeta. fold tld. rewrite F4, F3, F1, Hstep.
    destruct (Z.eqb_spec start (hist_end tl)); [lia |].
    rewrite (history_down_loop_finds hdr (hist_buf tl) (length l) start).
    - cbn [bind]. rewrite iter_hist_inc by (unfold start; lia).
      replace (hist_inc hdr (start + Z.of_nat (length l)))
        with (Z.of_nat (length (ring_bytes (a ++ [l]))))
        by (unfold hist_inc;
            destruct (Z.eqb_spec (start + Z.of_nat (length l) + 1)
                        (TL_MAX_HISTORY_SIZE hdr)); lia).
      rewrite (ring_entry_cstr hdr tl (a ++ [l]) l' b Hring'). reflexivity.
    - unfold hist_fuel. lia.
    - intros k Hk. rewrite iter_hist_inc by (unfold start; lia).
      apply (ring_entry_byte hdr tl a l (l' :: b) Hring). lia.
    - rewrite iter_hist_inc by (unfold start; lia).
      apply (ring_entry_nul hdr tl a l (l' :: b) Hring). }
  eexists. unfold tl_input. rewrite He. cbn [Z.eqb Pos.eqb negb orb].
  rewrite Hdown. cbn [bind]. split; [reflexivity |].
  split; [exact S1 |]. split; [exact S2 |]. split; [exact S3 |].
  split; [cbn [buf buf_len set_hist_step]; rewrite S2; exact S4 |].
  split; [reflexivity |].
  apply line_frame_hist_step. exact (line_frame_trans _ _ _ Hdf S6).
Qed.

(** ** Listing the history *)

(** The inner scan of [history_show] stops before the end of the ring when
    there is a free byte ahead. *)
Lemma history_show_scan_stops hb : forall (n : nat) i z,
  i <= z < i + Z.of_nat n -> load hb z = 0 ->
  history_show_scan n hb i < i + Z.of_nat n.
Proof.
  induction n as [| n IH]; intros i z Hz H0; [lia |].
  cbn [history_show_scan].
  destruct (Z.eqb_spec (load hb i) 0) as [E | E]; [lia |].
  assert (z <> i) by congruence.
  pose proof (IH (i + 1) z ltac:(lia) H0). lia.
Qed.

(** The offset of the last entry of [a], or -1 when there is none: what
    [history_previous] answers at the offset behind [a]. *)
Definition last_start (a : list (list Z)) : Z :=
  match a with
  | [] => -1
  | _ => Z.of_nat (length (ring_bytes (removelast a)))
  end.

Lemma last_start_snoc a e : last_start (a ++ [e]) = Z.of_nat (length (ring_bytes a)).
Proof.
  unfold last_start. rewrite removelast_last.
  destruct a; reflexivity.
Qed.

Lemma history_previous_last_start hdr tl a rest :
  ring_holds hdr tl (a ++ rest) ->
  history_previous hdr tl (Z.of_nat (length (ring_bytes a))) = Some (last_start a).
Proof.
  intros Hring. induction a as [| e a' _] using rev_ind.
  - unfold history_previous. destruct Hring as (-> & _). reflexivity.
  - rewrite last_start_snoc. rewrite <- app_assoc in Hring.
    exact (history_previous_entry hdr tl a' e rest Hring).
Qed.

Lemma ring_holds_print hdr s tl ls :
  ring_holds hdr tl ls -> ring_holds hdr (print s tl) ls.
Proof. intros H. exact H. Qed.

Lemma history_show_loop_lists hdr : forall a rest tl (fuel : nat),
  ring_holds hdr tl (a ++ rest) -> (length a < fuel)%nat ->
  history_show_loop hdr fuel tl (last_start a)
  = Some (fold_left (fun tl e => print NL (print e tl)) (rev a) tl).
Proof.
  induction a as [| e a IH] using rev_ind; intros rest tl fuel Hring Hf;
    (destruct fuel as [| fuel]; [cbn in Hf; lia |]).
  - reflexivity.
  - rewrite last_start_snoc, rev_app_distr. cbn [rev app fold_left].
    rewrite <- app_assoc in Hring. cbn [app] in Hring.
    destruct (ring_entry_fits hdr tl a e rest Hring) as [Hfit _].
    cbn [history_show_loop].
    destruct (Z.eqb_spec (Z.of_nat (length (ring_bytes a))) (-1)); [lia |].
    cbv zeta. change (hist_buf (print _ tl)) with (hist_buf tl).
    rewrite (ring_entry_cstr hdr tl a e rest Hring).
    pose proof (history_show_scan_stops (hist_buf tl)
                  (Z.to_nat (TL_MAX_HISTORY_SIZE hdr - Z.of_nat (length (ring_bytes a))))
                  (Z.of_nat (length (ring_bytes a)))
                  (Z.of_nat (length (ring_bytes a)) + Z.of_nat (length e))
                  ltac:(lia) (ring_entry_nul hdr tl a e rest Hring)) as Hscan.
    destruct (Z.eqb_spec (history_show_scan
                (Z.to_nat (TL_MAX_HISTORY_SIZE hdr - Z.of_nat (length (ring_bytes a))))
                (hist_buf tl) (Z.of_nat (length (ring_bytes a))))
              (TL_MAX_HISTORY_SIZE hdr)); [lia |].
    assert (Hring2 : ring_holds hdr (print NL (print e tl)) (a ++ e :: rest)) by exact Hring.
    rewrite (history_previous_last_start hdr _ a (e :: rest) Hring2). cbn [bind].
    apply (IH (e :: rest)); [exact Hring2 |].
    rewrite length_app in Hf. cbn [length] in Hf. lia.
Qed.

Lemma length_ring_bytes ls :
  Forall (fun l => l <> [] /\ cstring l) ls ->
  (length ls <= length (ring_bytes ls))%nat.
Proof.
  induction 1 as [| l ls _ _ IH]; [cbn; lia |].
  rewrite ring_bytes_cons, length_app. cbn [length]. lia.
Qed.

Lemma fold_prints (es : list (list Z)) : forall tl,
  printed (fold_left (fun tl e => print NL (print e tl)) es tl)
    = printed tl ++ concat (map (fun e => [e; NL]) es) /\
  set_printed (printed tl) (fold_left (fun tl e => print NL (print e tl)) es tl) = tl.
Proof.
  induction es as [| e es IH]; intros tl; cbn [fold_left map concat].
  - rewrite app_nil_r. split; [reflexivity | destruct tl; reflexivity].
  - destruct (IH (print NL (print e tl))) as [H1 H2]. split.
    + rewrite H1. cbn [print printed set_printed]. rewrite <- !app_assoc. reflexivity.
    + transitivity (set_printed (printed tl)
                      (set_printed (printed (print NL (print e tl)))
                         (fold_left (fun tl e => print NL (print e tl)) es
                            (print NL (print e tl))))).
      * destruct (fold_left _ es _); reflexivity.
      * rewrite H2. destruct tl; reflexivity.
Qed.

Lemma history_show_runs hdr (tl : t_tokenline) (ls : list (list Z)) (l : list Z) :
  ring_holds hdr tl (ls ++ [l]) ->
  history_show hdr tl
  = Some (fold_left (fun tl e => print NL (print e tl)) (rev ls) tl).
Proof.
  intros Hring. unfold history_show.
  pose proof (history_previous_entry hdr tl ls l [] Hring) as Hp.
  destruct Hring as (Hb & He & Hlt & Hhb & Hall) eqn:Er. clear Er.
  rewrite He, Hp. cbn [bind].
  rewrite (history_previous_last_start hdr tl ls [l]) by (unfold ring_holds; auto).
  cbn [bind].
  apply (history_show_loop_lists hdr ls [l]); [unfold ring_holds; auto |].
  apply Forall_app in Hall. destruct Hall as [Hall _].
  pose proof (length_ring_bytes ls Hall).
  rewrite ring_bytes_app, length_app in Hlt. unfold hist_fuel. lia.
Qed.

(** [history_show] on a ring that has not wrapped: it skips the newest
    entry (the history command itself) and prints the others from the
    newest to the oldest, each followed by a newline; it changes nothing
    but the print log. *)
Theorem history_show_lists_newest_first hdr (tl : t_tokenline)
    (ls : list (list Z)) (l : list Z) :
  ring_holds hdr tl (ls ++ [l]) ->
  exists tl', history_show hdr tl = Some tl' /\
    printed tl' = printed tl ++ concat (map (fun e => [e; NL]) (rev ls)) /\
    set_printed (printed tl) tl' = tl.
Proof.
  intros Hring. eexists. split; [apply (history_show_runs hdr tl ls l Hring) |].
  apply fold_prints.
Qed.

(** ** Submitting a line *)

Lemma length_unsplit_loop n : forall i q b, length (unsplit_loop n i q b) = length b.
Proof.
  induction n as [| n IH]; intros i q b; cbn [unsplit_loop]; [reflexivity |].
  destruct (load b i =? 34); [apply IH |].
  destruct (load b i =? 0); [| apply IH].
  destruct q; rewrite IH; apply length_store.
Qed.

Lemma length_split_loop hdr n : forall i state q words b,
  length (snd (split_loop hdr n i state q words b)) = length b.
Proof.
  induction n as [| n IH]; intros i state q words b; cbn [split_loop]; [reflexivity |].
  destruct (Z.of_nat (length words) <? TL_MAX_WORDS hdr); [| reflexivity].
  destruct (state =? 1).
  - destruct (load b i =? 32); apply IH.
  - destruct (q && (load b i =? 34)); [rewrite IH; apply length_store |].
    destruct (negb q && (load b i =? 32)); [rewrite IH; apply length_store | apply IH].
Qed.

Lemma line_frame_unsplit_line tl : line_frame tl (unsplit_line tl).
Proof. unfold unsplit_line. frame. Qed.

(** [split_line] changes nothing but the line buffer and the print log, and
    the buffer keeps its size. *)
Lemma split_line_keeps hdr tl silent :
  line_frame tl (snd (split_line hdr tl silent)) /\
  length (buf (snd (split_line hdr tl silent))) = length (buf tl).
Proof.
  unfold split_line.
  pose proof (length_split_loop hdr (Z.to_nat (buf_len tl)) 0 1 false [] (buf tl)) as Hlen.
  destruct (split_loop hdr (Z.to_nat (buf_len tl)) 0 1 false [] (buf tl))
    as [[quoted words] b']. cbn [snd] in Hlen.
  destruct quoted, silent, (Z.of_nat (length words) =? TL_MAX_WORDS hdr); cbn [snd];
    (split;
     [ try (eapply line_frame_trans; [| apply line_frame_unsplit_line]); frame
     | unfold unsplit_line; cbn [buf set_buf print set_printed buf_len];
       rewrite ?length_store, ?length_unsplit_loop; exact Hlen ]).
Qed.

Lemma parse_frame_print s tl : parse_frame tl (print s tl).
Proof. destruct tl; reflexivity. Qed.

Lemma show_help_loop_frame l : forall tl, parse_frame tl (show_help_loop l tl).
Proof.
  induction l as [| e r IH]; intros tl; cbn [show_help_loop]; [apply parse_frame_refl |].
  destruct (token e =? 0); [apply parse_frame_refl |].
  eapply parse_frame_trans; [| apply IH].
  destruct (help e); cbv zeta;
    repeat (eapply parse_frame_trans; [| apply parse_frame_print]);
    apply parse_frame_refl.
Qed.

(** [show_help] only prints. *)
Lemma show_help_frame tl n : parse_frame tl (show_help tl n).
Proof.
  unfold show_help.
  destruct (help (default null_token (last_token_entry (parsed tl)))) as [h |];
    destruct (n =? 1);
    try destruct (subtokens (default null_token (last_token_entry (parsed tl))));
    cbv zeta;
    repeat first
      [ apply parse_frame_refl
      | eapply parse_frame_trans; [| apply parse_frame_print]
      | eapply parse_frame_trans; [| apply show_help_loop_frame] ].
Qed.

Lemma tokenize_frame hdr strtof tl words n completing :
  parse_frame tl (snd (fst (fst (tokenize hdr strtof tl words n completing)))).
Proof.
  unfold tokenize.
  pose proof (tokenize_loop_frame hdr strtof completing (take (Z.to_nat n) words)
                (mk_walk false 0 None
                   [default [] (token_levels tl !! Z.to_nat (token_level tl))] 0 0) tl)
    as Hl.
  destruct (tokenize_loop _ _ _ _ _ _) as [[w |] tl1]; destruct Hl as [Hf _].
  - destruct (negb (arg_needed w =? 0) && negb completing); cbn [fst snd];
      (eapply parse_frame_trans; [exact Hf | destruct tl1; reflexivity]).
  - exact Hf.
Qed.

(** What the part of [process_line] behind [history_add] keeps. *)
Definition kept (tl tl' : t_tokenline) : Prop :=
  hist_buf tl' = hist_buf tl /\ hist_begin tl' = hist_begin tl /\
  hist_end tl' = hist_end tl /\ hist_step tl' = hist_step tl /\
  prompt tl' = prompt tl /\ length (buf tl') = length (buf tl).

Lemma kept_trans a b c : kept a b -> kept b c -> kept a c.
Proof. unfold kept. intros (?&?&?&?&?&?) (?&?&?&?&?&?). repeat split; congruence. Qed.

Lemma kept_line_frame tl tl' :
  line_frame tl tl' -> length (buf tl') = length (buf tl) -> kept tl tl'.
Proof.
  intros Hf Hl. destruct (line_frame_fields _ _ Hf) as (?&?&?&?&_&_&_&_&?&_).
  unfold kept. repeat split; assumption.
Qed.

Lemma kept_parse_frame tl tl' : parse_frame tl tl' -> kept tl tl'.
Proof.
  intros Hf. destruct (parse_frame_fields _ _ Hf) as (E&_&_&?&?&?&?&_&_&_&?&_).
  unfold kept. rewrite E. repeat split; assumption.
Qed.

Lemma kept_printed p tl tl' :
  set_printed p tl' = tl -> kept tl tl' /\ called tl' = called tl.
Proof. intros <-. unfold kept. destruct tl'; cbn. repeat split. Qed.

Lemma ring_holds_kept hdr tl tl' ls : kept tl tl' -> ring_holds hdr tl ls -> ring_holds hdr tl' ls.
Proof.
  unfold kept, ring_holds. intros (->&->&->&_) H. exact H.
Qed.

(** Behind a [history_add] that left the ring unwrapped, the rest of
    [process_line] terminates, keeps the ring and invokes the callback at
    most once, with the parse result of the line. *)
Lemma process_line_body_total hdr strtof tl tl1 ls l :
  buf_len tl <> 0 ->
  history_add hdr tl = Some tl1 ->
  ring_holds hdr tl1 (ls ++ [l]) ->
  exists tl3, process_line_body hdr strtof tl = Some tl3 /\ kept tl1 tl3 /\
    (called tl3 = called tl1 \/ called tl3 = called tl1 ++ [parsed tl3]).
Proof.
  intros Hn Hadd Hring. unfold process_line_body.
  destruct (Z.eqb_spec (buf_len tl) 0); [contradiction |].
  rewrite Hadd. cbn [bind].
  destruct (split_line_keeps hdr tl1 false) as [Hsf Hsl].
  pose proof (kept_line_frame _ _ Hsf Hsl) as Hk2.
  destruct (line_frame_fields _ _ Hsf) as (_&_&_&_&_&_&Hc2&_).
  destruct (split_line hdr tl1 false) as [[ok words] tl2]. cbn [snd] in *.
  destruct ok; cbn [negb]; [| eexists; split; [reflexivity | split; [exact Hk2 | left; exact Hc2]]].
  destruct (Z.of_nat (length words) =? 0);
    [eexists; split; [reflexivity | split; [exact Hk2 | left; exact Hc2]] |].
  destruct (strcmp (cstr_at (buf tl2) (nth 0 words 0)) (str "help") =? 0).
  - pose proof (tokenize_frame hdr strtof tl2 words (Z.of_nat (length words)) true) as Ht.
    destruct (tokenize hdr strtof tl2 words (Z.of_nat (length words)) true)
      as [[[ok3 tl3] ct] arg]. cbn [fst snd] in Ht.
    destruct (parse_frame_fields _ _ Ht) as (_&_&_&_&_&_&_&_&_&Hc3&_).
    destruct (last_token_entry (parsed tl3)).
    + pose proof (show_help_frame tl3 (Z.of_nat (length words))) as Hh.
      destruct (parse_frame_fields _ _ Hh) as (_&_&_&_&_&_&_&_&_&Hc4&_).
      eexists. split; [reflexivity |]. split.
      * eapply kept_trans; [exact Hk2 |]. eapply kept_trans; apply kept_parse_frame; eassumption.
      * left. congruence.
    + eexists. split; [reflexivity |]. split.
      * eapply kept_trans; [exact Hk2 |]. apply kept_parse_frame; eassumption.
      * left. congruence.
  - destruct (strcmp (cstr_at (buf tl2) (nth 0 words 0)) (str "history") =? 0).
    + pose proof (history_show_runs hdr tl2 ls l (ring_holds_kept _ _ _ _ Hk2 Hring)) as Hs.
      destruct (fold_prints (rev ls) tl2) as [_ Hfr].
      eexists. split; [exact Hs |]. split.
      * eapply kept_trans; [exact Hk2 |]. apply (kept_printed _ _ _ Hfr).
      * left. rewrite <- Hc2. apply (kept_printed _ _ _ Hfr).
    + pose proof (tokenize_frame hdr strtof tl2 words (Z.of_nat (length words)) false) as Ht.
      destruct (tokenize hdr strtof tl2 words (Z.of_nat (length words)) false)
        as [[[ok3 tl3] ct] arg]. cbn [fst snd] in Ht.
      destruct (parse_frame_fields _ _ Ht) as (_&_&_&_&_&_&_&_&_&Hc3&_).
      pose proof (kept_trans _ _ _ Hk2 (kept_parse_frame _ _ Ht)) as Hk3.
      destruct ok3; cbn [negb];
        [| eexists; split; [reflexivity | split; [exact Hk3 | left; congruence]]].
      destruct (callback tl3);
        [| eexists; split; [reflexivity | split; [exact Hk3 | left; congruence]]].
      eexists. split; [reflexivity |]. split; [exact Hk3 |].
      right. cbn [called parsed set_called]. congruence.
Qed.

(** A well-formed line without NUL bytes is the C string in the buffer. *)
Lemma cstr_buf_line tl : line_wf tl -> cstring (line tl) -> cstr (buf tl) = line tl.
Proof.
  intros [[Hp Hl] Hz] Hc. unfold line in *.
  rewrite <- (take_drop (Z.to_nat (buf_len tl)) (buf tl)) at 1.
  destruct (drop (Z.to_nat (buf_len tl)) (buf tl)) as [| c r] eqn:Hd.
  - apply (f_equal length) in Hd. rewrite length_drop in Hd. cbn in Hd. lia.
  - assert (c = 0); [| subst c; apply cstr_app_nul; exact Hc].
    pose proof (load_drop (buf tl) (Z.to_nat (buf_len tl)) 0 ltac:(lia)) as Hc0.
    rewrite Hd in Hc0. change (load (c :: r) 0) with c in Hc0.
    replace (Z.of_nat (Z.to_nat (buf_len tl)) + 0) with (buf_len tl) in Hc0 by lia.
    congruence.
Qed.

(** What [history_add] leaves alone when the ring has room. *)
Lemma history_add_kept tl tl1 :
  set_hist_end (hist_end tl) (set_hist_buf (hist_buf tl) tl1) = tl ->
  hist_step tl1 = hist_step tl /\ prompt tl1 = prompt tl /\ buf tl1 = buf tl /\
  called tl1 = called tl /\ printed tl1 = printed tl.
Proof. intros <-. destruct tl1; cbn. repeat split. Qed.

(** A carriage return or line feed on a line that is not empty, with a
    history ring that has room behind its entries: the line becomes the
    newest history entry, whether or not it parses; the walk position is
    not reset; the line is emptied and the prompt printed last; the
    callback is invoked at most once, with the parse result. *)
Theorem submit_appends_to_history hdr strtof (tl : t_tokenline)
    (ls : list (list Z)) (c : Z) :
  escape_len tl = 0 -> c = 13 \/ c = 10 ->
  line_wf tl -> buf_len tl <> 0 -> cstring (line tl) ->
  ring_holds hdr tl ls ->
  Z.of_nat (length (ring_bytes ls)) + buf_len tl + 1 < TL_MAX_HISTORY_SIZE hdr ->
  exists tl', tl_input hdr strtof tl c = Some (TRUE, tl') /\
    ring_holds hdr tl' (ls ++ [line tl]) /\ hist_step tl' = hist_step tl /\
    buf_len tl' = 0 /\ pos tl' = 0 /\ escape_len tl' = 0 /\ load (buf tl') 0 = 0 /\
    last (printed tl') = Some (prompt tl) /\
    (called tl' = called tl \/ called tl' = called tl ++ [parsed tl']).
Proof.
  intros He Hc Hwf Hn Hcs Hring Hroom.
  pose proof (cstr_buf_line tl Hwf Hcs) as Hline.
  pose proof (length_line tl (proj1 Hwf)) as Hll.
  set (tl0 := print NL tl).
  assert (Hring0 : ring_holds hdr tl0 ls) by exact Hring.
  assert (Hne : cstr (buf tl0) <> []).
  { change (buf tl0) with (buf tl). rewrite Hline. intros E.
    rewrite E in Hll. cbn in Hll. destruct Hwf as [[? ?] ?]. lia. }
  assert (Hroom0 : Z.of_nat (length (ring_bytes ls)) + strlen (cstr (buf tl0)) + 1
                   < TL_MAX_HISTORY_SIZE hdr).
  { change (buf tl0) with (buf tl). rewrite Hline. unfold strlen. rewrite Hll.
    destruct Hwf as [[? ?] ?]. lia. }
  destruct (history_add_appends hdr tl0 ls Hring0 Hne Hroom0) as (tl1 & Hadd & Hring1 & Hfr1).
  destruct (history_add_kept _ _ Hfr1) as (K1 & K2 & K3 & K4 & K5).
  destruct (process_line_body_total hdr strtof tl0 tl1 ls (cstr (buf tl0)) Hn Hadd Hring1)
    as (tl3 & Hbody & Hk & Hcalled).
  exists (process_line_reset tl3).
  assert (Hin : tl_input hdr strtof tl c = Some (TRUE, process_line_reset tl3)).
  { unfold tl_input. rewrite He.
    destruct Hc as [-> | ->]; cbn [Z.eqb Pos.eqb negb orb];
      unfold process_line; fold tl0; rewrite Hbody; reflexivity. }
  split; [exact Hin |].
  pose proof Hk as (Q1 & Q2 & Q3 & Q4 & Q5 & Q6).
  split.
  { change (buf tl0) with (buf tl) in Hring1. rewrite Hline in Hring1.
    apply (ring_holds_kept hdr tl1); [| exact Hring1].
    unfold kept, process_line_reset.
    cbn [hist_buf hist_begin hist_end hist_step prompt buf print set_printed set_pos
         set_escape_len set_buf_len set_buf].
    rewrite length_store. repeat split; assumption. }
  split; [change (hist_step (process_line_reset tl3)) with (hist_step tl3);
          rewrite Q4, K1; reflexivity |].
  split; [reflexivity |]. split; [reflexivity |]. split; [reflexivity |].
  split.
  { change (buf (process_line_reset tl3)) with (store (buf tl3) 0 0).
    apply load_store_eq. rewrite Q6, K3. change (buf tl0) with (buf tl).
    destruct Hwf as [[? ?] ?]. lia. }
  split.
  { change (printed (process_line_reset tl3)) with (printed tl3 ++ [prompt tl3]).
    rewrite last_snoc, Q5, K2. reflexivity. }
  change (called (process_line_reset tl3)) with (called tl3).
  change (parsed (process_line_reset tl3)) with (parsed tl3).
  rewrite K4 in Hcalled. exact Hcalled.
Qed.

(** The engine after the lines [a] and [b] were submitted, and the same
    after two Ctrl-P. *)
Definition a_b_submitted : t_tokenline :=
  sample_after sample_hdr (str "a" ++ [13] ++ str "b" ++ [13]).

Definition a_b_walked : t_tokenline :=
  sample_after sample_hdr (str "a" ++ [13] ++ str "b" ++ [13; 16; 16]).

(** Closes [ring_holds] and [cstring] on concrete engines. *)
Ltac ring_eval :=
  unfold ring_holds, cstring;
  repeat match goal with
  | |- _ /\ _ => split
  | |- Forall _ [] => constructor
  | |- Forall _ (_ :: _) => constructor
  | |- _ <> _ => discriminate
  | |- _ < _ => vm_compute; reflexivity
  | |- _ = _ => vm_compute; reflexivity
  | |- _ => progress (cbv beta; cbn [app])
  end.

Lemma submit_appends_to_history_witness :
  escape_len ab_typed = 0 /\ (13 = 13 \/ 13 = 10) /\ line_wf ab_typed /\
  buf_len ab_typed <> 0 /\ cstring (line ab_typed) /\
  ring_holds sample_hdr ab_typed [] /\
  Z.of_nat (length (ring_bytes [])) + buf_len ab_typed + 1
    < TL_MAX_HISTORY_SIZE sample_hdr /\
  exists tl', tl_input sample_hdr no_strtof ab_typed 13 = Some (TRUE, tl') /\
    ring_holds sample_hdr tl' ([] ++ [line ab_typed]) /\
    hist_step tl' = hist_step ab_typed /\
    buf_len tl' = 0 /\ pos tl' = 0 /\ escape_len tl' = 0 /\ load (buf tl') 0 = 0 /\
    last (printed tl') = Some (prompt ab_typed) /\
    (called tl' = called ab_typed \/ called tl' = called ab_typed ++ [parsed tl']).
Proof.
  assert (H1 : escape_len ab_typed = 0) by reflexivity.
  assert (H2 : 13 = 13 \/ 13 = 10) by (left; reflexivity).
  assert (H3 : line_wf ab_typed) by by_eval.
  assert (H4 : buf_len ab_typed <> 0) by (vm_compute; discriminate).
  assert (H5 : cstring (line ab_typed)).
  { replace (line ab_typed) with [97; 98] by (vm_compute; reflexivity). ring_eval. }
  assert (H6 : ring_holds sample_hdr ab_typed []) by ring_eval.
  assert (H7 : Z.of_nat (length (ring_bytes [])) + buf_len ab_typed + 1
               < TL_MAX_HISTORY_SIZE sample_hdr) by (vm_compute; reflexivity).
  split; [exact H1 |]. split; [exact H2 |]. split; [exact H3 |]. split; [exact H4 |].
  split; [exact H5 |]. split; [exact H6 |]. split; [exact H7 |].
  exact (submit_appends_to_history sample_hdr no_strtof ab_typed [] 13
           H1 H2 H3 H4 H5 H6 H7).
Defined.

Lemma ctrl_p_recalls_previous_witness :
  escape_len a_b_submitted = 0 /\ line_ok a_b_submitted /\
  Z.of_nat (length (buf a_b_submitted)) = TL_MAX_LINE_LEN sample_hdr /\
  ring_holds sample_hdr a_b_submitted ([[97]] ++ [98] :: []) /\
  strlen [98] < TL_MAX_LINE_LEN sample_hdr /\
  ((hist_step a_b_submitted = -1 /\ @nil (list Z) = []) \/
   hist_step a_b_submitted = Z.of_nat (length (ring_bytes ([[97]] ++ [[98]])))) /\
  exists tl', tl_input sample_hdr no_strtof a_b_submitted 16 = Some (TRUE, tl') /\
    line tl' = [98] /\ buf_len tl' = strlen [98] /\ pos tl' = strlen [98] /\
    load (buf tl') (buf_len tl') = 0 /\
    hist_step tl' = Z.of_nat (length (ring_bytes [[97]])) /\
    line_frame a_b_submitted (set_hist_step (hist_step a_b_submitted) tl').
Proof.
  assert (H1 : escape_len a_b_submitted = 0) by reflexivity.
  assert (H2 : line_ok a_b_submitted) by by_eval.
  assert (H3 : Z.of_nat (length (buf a_b_submitted)) = TL_MAX_LINE_LEN sample_hdr)
    by reflexivity.
  assert (H4 : ring_holds sample_hdr a_b_submitted ([[97]] ++ [98] :: [])) by ring_eval.
  assert (H5 : strlen [98] < TL_MAX_LINE_LEN sample_hdr) by (vm_compute; reflexivity).
  assert (H6 : (hist_step a_b_submitted = -1 /\ @nil (list Z) = []) \/
               hist_step a_b_submitted = Z.of_nat (length (ring_bytes ([[97]] ++ [[98]]))))
    by (left; split; reflexivity).
  split; [exact H1 |]. split; [exact H2 |]. split; [exact H3 |]. split; [exact H4 |].
  split; [exact H5 |]. split; [exact H6 |].
  exact (ctrl_p_recalls_previous sample_hdr no_strtof a_b_submitted [[97]] [98] []
           H1 H2 H3 H4 H5 H6).
Defined.

Lemma ctrl_n_recalls_next_witness :
  escape_len a_b_walked = 0 /\ line_ok a_b_walked /\
  Z.of_nat (length (buf a_b_walked)) = TL_MAX_LINE_LEN sample_hdr /\
  ring_holds sample_hdr a_b_walked ([] ++ [97] :: [98] :: []) /\
  strlen [98] < TL_MAX_LINE_LEN sample_hdr /\
  hist_step a_b_walked = Z.of_nat (length (ring_bytes [])) /\
  exists tl', tl_input sample_hdr no_strtof a_b_walked 14 = Some (TRUE, tl') /\
    line tl' = [98] /\ buf_len tl' = strlen [98] /\ pos tl' = strlen [98] /\
    load (buf tl') (buf_len tl') = 0 /\
    hist_step tl' = Z.of_nat (length (ring_bytes ([] ++ [[97]]))) /\
    line_frame a_b_walked (set_hist_step (hist_step a_b_walked) tl').
Proof.
  assert (H1 : escape_len a_b_walked = 0) by reflexivity.
  assert (H2 : line_ok a_b_walked) by by_eval.
  assert (H3 : Z.of_nat (length (buf a_b_walked)) = TL_MAX_LINE_LEN sample_hdr)
    by reflexivity.
  assert (H4 : ring_holds sample_hdr a_b_walked ([] ++ [97] :: [98] :: [])) by ring_eval.
  assert (H5 : strlen [98] < TL_MAX_LINE_LEN sample_hdr) by (vm_compute; reflexivity).
  assert (H6 : hist_step a_b_walked = Z.of_nat (length (ring_bytes []))) by reflexivity.
  split; [exact H1 |]. split; [exact H2 |]. split; [exact H3 |]. split; [exact H4 |].
  split; [exact H5 |]. split; [exact H6 |].
  exact (ctrl_n_recalls_next sample_hdr no_strtof a_b_walked [] [97] [98] []
           H1 H2 H3 H4 H5 H6).
Defined.

Lemma history_show_lists_newest_first_witness :
  ring_holds sample_hdr a_b_submitted ([[97]] ++ [[98]]) /\
  exists tl', history_show sample_hdr a_b_submitted = Some tl' /\
    printed tl' = printed a_b_submitted ++ concat (map (fun e => [e; NL]) (rev [[97]])) /\
    set_printed (printed a_b_submitted) tl' = a_b_submitted.
Proof.
  assert (H1 : ring_holds sample_hdr a_b_submitted ([[97]] ++ [[98]])) by ring_eval.
  split; [exact H1 |].
  exact (history_show_lists_newest_first sample_hdr a_b_submitted [[97]] [98] H1).
Defined.

(** ** The integer scanner on C integer constants *)

(** [digit base c d]: the byte [c] is a digit of value [d] in base [base]:
    [0] to [9], then the letters from [a] or [A] on. *)
Definition digit (base c d : Z) : Prop :=
  0 <= d < base /\
  ((d <= 9 /\ c = 48 + d) \/ (10 <= d /\ (c = 87 + d \/ c = 55 + d))).

Definition not_digit (base c : Z) : Prop := forall d, ~ digit base c d.

(** The number a list of digit values denotes, most significant first. *)
Fixpoint numeral_value (base : Z) (ds : list Z) : Z :=
  match ds with
  | [] => 0
  | d :: r => d * base ^ Z.of_nat (length r) + numeral_value base r
  end.

(** [c_numeral base w v]: the bytes [w] are an unsigned C integer constant
    of base [base] with value [v]: decimal digits not starting with [0];
    [0] followed by octal digits; [0x] or [0X] followed by at least one
    hexadecimal digit. *)
Inductive c_numeral : Z -> list Z -> Z -> Prop :=
| c_decimal c cs d ds :
    digit 10 c d -> d <> 0 -> Forall2 (digit 10) cs ds ->
    c_numeral 10 (c :: cs) (numeral_value 10 (d :: ds))
| c_octal cs ds :
    Forall2 (digit 8) cs ds ->
    c_numeral 8 (48 :: cs) (numeral_value 8 ds)
| c_hex x c cs d ds :
    x = 120 \/ x = 88 -> digit 16 c d -> Forall2 (digit 16) cs ds ->
    c_numeral 16 (48 :: x :: c :: cs) (numeral_value 16 (d :: ds)).

(** The bytes [rest] do not continue the constant [w] of base [base]: they
    do not start with a digit of the base, nor with [x] or [X] behind a
    lone [0]. *)
Definition stops (base : Z) (w rest : list Z) : Prop :=
  match rest with
  | [] => True
  | c :: _ => not_digit base c /\ (w = [48] -> c <> 120 /\ c <> 88)
  end.

(** The value of a [long] that saturates. *)
Definition clamp (v : Z) : Z := Z.max LONG_MIN (Z.min LONG_MAX v).

Lemma digit_val_digit base c d : base <= 36 -> digit base c d -> digit_val c = d.
Proof.
  unfold digit, digit_val. intros Hb (Hd & [[H9 ->] | [H10 [-> | ->]]]).
  - destruct (Z.leb_spec 48 (48 + d)), (Z.leb_spec (48 + d) 57); cbn [andb]; lia.
  - destruct (Z.leb_spec 48 (87 + d)), (Z.leb_spec (87 + d) 57); cbn [andb]; try lia.
    destruct (Z.leb_spec 97 (87 + d)), (Z.leb_spec (87 + d) 122); cbn [andb]; lia.
  - destruct (Z.leb_spec 48 (55 + d)), (Z.leb_spec (55 + d) 57); cbn [andb]; try lia.
    destruct (Z.leb_spec 97 (55 + d)), (Z.leb_spec (55 + d) 122); cbn [andb]; try lia.
    destruct (Z.leb_spec 65 (55 + d)), (Z.leb_spec (55 + d) 90); cbn [andb]; lia.
Qed.

Lemma digit_val_not_digit base c :
  0 < base <= 36 -> not_digit base c -> (digit_val c <? base) = false.
Proof.
  intros Hb Hn. apply Z.ltb_ge. destruct (Z.lt_ge_cases (digit_val c) base) as [Hlt |]; [| lia].
  exfalso. apply (Hn (digit_val c)). revert Hlt. unfold digit, digit_val.
  destruct (Z.leb_spec 48 c), (Z.leb_spec c 57); cbn [andb]; try (intros; lia);
    destruct (Z.leb_spec 97 c), (Z.leb_spec c 122); cbn [andb]; try (intros; lia);
    destruct (Z.leb_spec 65 c), (Z.leb_spec c 90); cbn [andb]; intros; lia.
Qed.

Lemma numeral_value_nonneg base ds :
  0 < base -> Forall (fun d => 0 <= d) ds -> 0 <= numeral_value base ds.
Proof.
  intros Hb. induction 1 as [| d r Hd _ IH]; cbn [numeral_value]; [lia |].
  pose proof (Z.pow_nonneg base (Z.of_nat (length r)) ltac:(lia)). nia.
Qed.

(** The digit loop of the scanner on the digits of a constant. *)
Lemma strtol_digits_numeral base rest :
  0 < base <= 36 ->
  match rest with [] => True | c :: _ => not_digit base c end ->
  forall cs ds acc any,
    Forall2 (digit base) cs ds ->
    strtol_digits base (cs ++ rest) acc any
    = (acc * base ^ Z.of_nat (length ds) + numeral_value base ds,
       match cs with [] => any | _ => true end, rest).
Proof.
  intros Hb Hrest cs ds acc any H. revert acc any.
  induction H as [| c d cs ds Hd _ IH]; intros acc any.
  - cbn [app length numeral_value]. rewrite Z.pow_0_r, Z.mul_1_r, Z.add_0_r.
    destruct rest as [| c r]; [reflexivity |]. cbn [strtol_digits].
    rewrite (digit_val_not_digit base c Hb Hrest). reflexivity.
  - cbn [app strtol_digits]. rewrite (digit_val_digit base c d ltac:(lia) Hd).
    destruct Hd as [Hd _]. destruct (Z.ltb_spec d base); [| lia].
    rewrite IH. cbn [length numeral_value]. rewrite Nat2Z.inj_succ, Z.pow_succ_r by lia.
    f_equal. f_equal; [ring | destruct cs; reflexivity].
Qed.

(** The part of [strtol] behind the sign: the base is read off the prefix,
    then the digits are scanned. *)
Definition scan_unsigned (s2 : list Z) : Z * bool * list Z :=
  let '(base, s3) :=
    match s2 with
    | 48 :: x :: d :: r =>
        if ((x =? 120) || (x =? 88)) && (digit_val d <? 16)
        then (16, d :: r) else (8, s2)
    | 48 :: _ => (8, s2)
    | _ => (10, s2)
    end in
  strtol_digits base s3 0 false.

Lemma strtol_scan s :
  strtol s =
  let s1 := skip_space s in
  let '(neg, s2) :=
    match s1 with
    | 45 :: r => (true, r)
    | 43 :: r => (false, r)
    | _ => (false, s1)
    end in
  let '(acc, any, rest) := scan_unsigned s2 in
  if any
  then (Z.max LONG_MIN (Z.min LONG_MAX (if neg then - acc else acc)), rest)
  else (0, s).
Proof.
  unfold strtol, scan_unsigned. cbv zeta.
  destruct (match skip_space s with 45 :: r => (true, r) | 43 :: r => (false, r)
            | _ => (false, skip_space s) end) as [neg s2].
  destruct (match s2 with
            | 48 :: x :: d :: r =>
                if ((x =? 120) || (x =? 88)) && (digit_val d <? 16)
                then (16, d :: r) else (8, s2)
            | 48 :: _ => (8, s2)
            | _ => (10, s2)
            end) as [base s3].
  reflexivity.
Qed.

(** The first byte of a constant is a decimal digit. *)
Lemma c_numeral_head base w v :
  c_numeral base w v -> exists c r, w = c :: r /\ 48 <= c <= 57.
Proof.
  intros [c cs d ds Hc _ _ | cs ds _ | x c cs d ds _ _ _].
  - exists c, cs. split; [reflexivity |]. destruct Hc as (? & [[? ->] | [? ?]]); lia.
  - exists 48, cs. split; [reflexivity | lia].
  - eexists 48, _. split; [reflexivity | lia].
Qed.

Lemma Forall2_digit_nonneg base cs ds :
  Forall2 (digit base) cs ds -> Forall (fun d => 0 <= d) ds.
Proof.
  induction 1 as [| c d cs ds [Hd _] _ IH]; constructor; [lia | exact IH].
Qed.

(** The scan of an unsigned constant, with what follows it. *)
Lemma scan_unsigned_numeral base w v rest :
  c_numeral base w v -> stops base w rest ->
  scan_unsigned (w ++ rest) = (v, true, rest) /\ 0 <= v.
Proof.
  intros Hn Hstop.
  assert (Hrest : forall b, b = base ->
            match rest with [] => True | c :: _ => not_digit b c end).
  { intros b ->. destruct rest; [exact I | apply Hstop]. }
  destruct Hn as [c cs d ds Hc Hd0 Hcs | cs ds Hcs | x c cs d ds Hx Hc Hcs].
  - (* decimal *)
    split.
    + assert (H48 : c <> 48) by (destruct Hc as (? & [[? ->] | [? ?]]); lia).
      unfold scan_unsigned. cbn [app].
      assert (Hm : match c :: cs ++ rest with
                   | 48 :: x :: d0 :: r =>
                       if ((x =? 120) || (x =? 88)) && (digit_val d0 <? 16)
                       then (16, d0 :: r) else (8, c :: cs ++ rest)
                   | 48 :: _ => (8, c :: cs ++ rest)
                   | _ => (10, c :: cs ++ rest)
                   end = (10, c :: cs ++ rest)).
      { destruct Hc as (Hr & [[? ->] | [? ?]]); [| lia].
        assert (Hd : d = 1 \/ d = 2 \/ d = 3 \/ d = 4 \/ d = 5 \/ d = 6 \/ d = 7
                     \/ d = 8 \/ d = 9) by lia.
        destruct Hd as [-> | [-> | [-> | [-> | [-> | [-> | [-> | [-> | ->]]]]]]]];
          reflexivity. }
      rewrite Hm, (app_comm_cons cs rest c).
      rewrite (strtol_digits_numeral 10 rest ltac:(lia) (Hrest 10 eq_refl)
                 (c :: cs) (d :: ds) 0 false) by (constructor; assumption).
      rewrite Z.mul_0_l, Z.add_0_l. reflexivity.
    + apply numeral_value_nonneg; [lia |].
      apply (Forall2_digit_nonneg 10 (c :: cs)). constructor; assumption.
  - (* octal *)
    split.
    + unfold scan_unsigned. cbn [app].
      assert (Hm : match 48 :: cs ++ rest with
                   | 48 :: x :: d0 :: r =>
                       if ((x =? 120) || (x =? 88)) && (digit_val d0 <? 16)
                       then (16, d0 :: r) else (8, 48 :: cs ++ rest)
                   | 48 :: _ => (8, 48 :: cs ++ rest)
                   | _ => (10, 48 :: cs ++ rest)
                   end = (8, 48 :: cs ++ rest)).
      { destruct (cs ++ rest) as [| x [| d0 r]] eqn:E; [reflexivity | reflexivity |].
        assert (Hx : x <> 120 /\ x <> 88).
        { destruct Hcs as [| c1 d1 cs' ds' Hc1 _].
          - cbn [app] in E. subst rest. apply Hstop. reflexivity.
          - cbn [app] in E. injection E as <- _.
            destruct Hc1 as (? & [[? ->] | [? ?]]); lia. }
        destruct Hx. destruct (Z.eqb_spec x 120); [contradiction |].
        destruct (Z.eqb_spec x 88); [contradiction |]. reflexivity. }
      rewrite Hm, (app_comm_cons cs rest 48).
      assert (H0 : digit 8 48 0) by (unfold digit; lia).
      rewrite (strtol_digits_numeral 8 rest ltac:(lia) (Hrest 8 eq_refl)
                 (48 :: cs) (0 :: ds) 0 false) by (constructor; assumption).
      cbn [numeral_value]. rewrite !Z.mul_0_l, !Z.add_0_l. reflexivity.
    + apply numeral_value_nonneg; [lia | apply (Forall2_digit_nonneg 8 cs), Hcs].
  - (* hexadecimal *)
    split.
    + unfold scan_unsigned. cbn [app].
      assert (Hx' : (x =? 120) || (x =? 88) = true)
        by (destruct Hx as [-> | ->]; reflexivity).
      rewrite Hx', (digit_val_digit 16 c d ltac:(lia) Hc).
      destruct (Z.ltb_spec d 16); [| destruct Hc; lia]. cbn [andb].
      rewrite (app_comm_cons cs rest c).
      rewrite (strtol_digits_numeral 16 rest ltac:(lia) (Hrest 16 eq_refl)
                 (c :: cs) (d :: ds) 0 false) by (constructor; assumption).
      rewrite Z.mul_0_l, Z.add_0_l. reflexivity.
    + apply numeral_value_nonneg; [lia |].
      apply (Forall2_digit_nonneg 16 (c :: cs)). constructor; assumption.
Qed.

Lemma skip_space_digit c r : 48 <= c <= 57 -> skip_space (c :: r) = c :: r.
Proof.
  intros Hc. cbn [skip_space]. unfold isspace.
  destruct (Z.eqb_spec c 32); [lia |].
  destruct (Z.leb_spec 9 c), (Z.leb_spec c 13); cbn; try reflexivity; lia.
Qed.

(** The scanner on C integer constants: an unsigned constant, or one with
    a sign, is scanned to its value, saturated to the range of [long], and
    what follows the constant is left as the suffix. *)
Lemma strtol_c_numeral base w v rest :
  c_numeral base w v -> stops base w rest ->
  strtol (w ++ rest) = (clamp v, rest) /\
  strtol (43 :: w ++ rest) = (clamp v, rest) /\
  strtol (45 :: w ++ rest) = (clamp (- v), rest).
Proof.
  intros Hn Hstop.
  destruct (scan_unsigned_numeral base w v rest Hn Hstop) as [Hscan Hv].
  destruct (c_numeral_head base w v Hn) as (c & r & -> & Hc).
  repeat split; rewrite strtol_scan.
  - rewrite <- app_comm_cons in *. rewrite skip_space_digit by exact Hc. cbv zeta.
    assert (Hd : c = 48 \/ c = 49 \/ c = 50 \/ c = 51 \/ c = 52 \/ c = 53 \/ c = 54
                 \/ c = 55 \/ c = 56 \/ c = 57) by lia.
    destruct Hd as [-> | [-> | [-> | [-> | [-> | [-> | [-> | [-> | [-> | ->]]]]]]]]];
      cbv beta iota; rewrite Hscan; reflexivity.
  - cbn [skip_space isspace Z.eqb Pos.eqb Z.leb Z.compare Pos.compare Pos.compare_cont
         andb orb]. cbv zeta. cbv iota beta. rewrite Hscan. reflexivity.
  - cbn [skip_space isspace Z.eqb Pos.eqb Z.leb Z.compare Pos.compare Pos.compare_cont
         andb orb]. cbv zeta. cbv iota beta. rewrite Hscan. reflexivity.
Qed.

(** ** Integer arguments in the token stream *)

(** The value of a constant behind the sign [sg] (no sign, [+] or [-]). *)
Definition sign_value (sg : list Z) (v : Z) : Z :=
  match sg with
  | [45] => - v
  | _ => v
  end.

Lemma strtol_signed base w v rest sg :
  c_numeral base w v -> stops base w rest ->
  sg = [] \/ sg = [43] \/ sg = [45] ->
  strtol (sg ++ w ++ rest) = (clamp (sign_value sg v), rest).
Proof.
  intros Hn Hs Hsg. destruct (strtol_c_numeral base w v rest Hn Hs) as (H1 & H2 & H3).
  destruct Hsg as [-> | [-> | ->]]; assumption.
Qed.

(** A round of the loop of [tokenize] with a pending INTEGER argument. *)
Lemma tokenize_word_int hdr strtof completing word w tl :
  TARG_INT hdr <> 0 -> done w = false -> arg_needed w = TARG_INT hdr ->
  tokenize_word hdr strtof completing word w tl =
    match snd (strtol word) with
    | [] =>
        (Some (mk_walk false 0 (arg_tokens w) (token_stack w)
                 (cur_tp w + 2) (cur_bufsize w + sizeof_int)),
         set_p_buf (memcpy (p_buf (parsed tl)) (cur_bufsize w)
                      (int_bytes (int_of_long (fst (strtol word)))))
           (set_tokens (cur_tp w + 1) (cur_bufsize w)
              (set_tokens (cur_tp w) (TARG_INT hdr) tl)))
    | _ :: _ => (None, tokenize_error completing (str "Invalid value." ++ NL) tl)
    end.
Proof.
  intros Hnz Hd Ha. unfold tokenize_word.
  rewrite Hd, Ha. destruct (Z.eqb_spec (TARG_INT hdr) 0); [contradiction |].
  rewrite Z.eqb_refl. destruct (strtol word) as [v suffix]. cbn [fst snd].
  destruct suffix; cbn; rewrite ?Hd; reflexivity.
Qed.

(** A round of the loop of [tokenize] on a word that matches a token with
    an INTEGER argument. *)
Lemma tokenize_word_int_token hdr strtof completing word w tl e :
  TARG_INT hdr <> 0 -> TARG_INT hdr <> TARG_HELP hdr ->
  done w = false -> arg_needed w = 0 ->
  find_token (hd [] (token_stack w)) (token_dict tl) word > -1 ->
  entry_at (hd [] (token_stack w))
    (find_token (hd [] (token_stack w)) (token_dict tl) word) = e ->
  arg_type e = TARG_INT hdr ->
  tokenize_word hdr strtof completing word w tl =
    (Some (mk_walk false (TARG_INT hdr)
             (if TARG_INT hdr =? TARG_TOKEN hdr then subtokens e else arg_tokens w)
             (token_stack w) (cur_tp w + 1) (cur_bufsize w)),
     set_last_token_entry (Some e) (set_tokens (cur_tp w) (token e) tl)).
Proof.
  intros Hnz Hnh Hd Ha Hf He Hat. unfold tokenize_word.
  rewrite Hd, Ha. cbn [Z.eqb].
  destruct (Z.gtb_spec (find_token (hd [] (token_stack w)) (token_dict tl) word) (-1));
    [| lia].
  rewrite He, Hat.
  destruct (Z.eqb_spec (TARG_INT hdr) (TARG_HELP hdr)); [contradiction |].
  destruct (Z.eqb_spec (TARG_INT hdr) 0); [contradiction |].
  cbn [negb done arg_needed arg_tokens token_stack cur_tp cur_bufsize].
  reflexivity.
Qed.

Lemma tokenize_loop_app hdr strtof completing ws : forall r w tl,
  tokenize_loop hdr strtof completing (ws ++ r) w tl =
  match tokenize_loop hdr strtof completing ws w tl with
  | (Some w', tl') => tokenize_loop hdr strtof completing r w' tl'
  | (None, tl') => (None, tl')
  end.
Proof.
  induction ws as [| o ws IH]; intros r w tl; cbn [app tokenize_loop]; [reflexivity |].
  destruct (tokenize_word hdr strtof completing (cstr_at (buf tl) o) w tl) as [[w' |] tl'];
    [apply IH | reflexivity].
Qed.

(** The walker only moves forward, and the arrays of the parse result keep
    their sizes. *)
Lemma tokenize_word_forward hdr strtof completing word w tl w' tl' :
  tokenize_word hdr strtof completing word w tl = (Some w', tl') ->
  cur_tp w <= cur_tp w' /\ cur_bufsize w <= cur_bufsize w' /\
  length (tokens (parsed tl')) = length (tokens (parsed tl)) /\
  length (p_buf (parsed tl')) = length (p_buf (parsed tl)).
Proof.
  unfold tokenize_word, tokenize_error.
  destruct (strtol word) as [v suf], (strtof word) as [fl fsuf].
  repeat match goal with
  | |- context [match subtokens ?e with _ => _ end] => destruct (subtokens e)
  | |- context [if ?c then _ else _] => destruct c
  end;
  cbv zeta; intros [= <- <-];
  cbn [cur_tp cur_bufsize parsed tokens p_buf set_tokens set_p_buf set_parsed
       set_last_token_entry];
  rewrite ?length_store, ?length_memcpy; unfold sizeof_int, strlen; repeat split; lia.
Qed.

Lemma tokenize_loop_forward hdr strtof completing ws : forall w tl w' tl',
  tokenize_loop hdr strtof completing ws w tl = (Some w', tl') ->
  cur_tp w <= cur_tp w' /\ cur_bufsize w <= cur_bufsize w' /\
  length (tokens (parsed tl')) = length (tokens (parsed tl)) /\
  length (p_buf (parsed tl')) = length (p_buf (parsed tl)).
Proof.
  induction ws as [| o ws IH]; intros w tl w' tl'; cbn [tokenize_loop].
  - intros [= <- <-]. repeat split; lia.
  - destruct (tokenize_word hdr strtof completing (cstr_at (buf tl) o) w tl)
      as [[w1 |] tl1] eqn:E; [| discriminate].
    intros H. destruct (tokenize_word_forward _ _ _ _ _ _ _ _ E) as (A1 & A2 & A3 & A4).
    destruct (IH _ _ _ _ H) as (B1 & B2 & B3 & B4).
    repeat split; [lia | lia | congruence | congruence].
Qed.

(** The integer argument of a command, anywhere on the line where the
    token stream still has room.  The words [ws] have been walked; the
    word at [o0] matches a token [e] with an INTEGER argument; the word at
    [o1] is a C integer constant (an optional sign, then a decimal, octal or
    hexadecimal constant) followed by [rest].
    - With nothing behind the constant, [tokenize] succeeds: the stream
      holds the id of [e], the tag [TARG_INT], the offset of the value in
      the argument storage and the terminating 0, and the [int] at that
      offset is the value of the constant.
    - With a suffix behind the constant, [tokenize] fails with the message
      [Invalid value.]. *)
Theorem integer_argument_stored hdr strtof (tl : t_tokenline) (ws : list Z)
    (o0 o1 : Z) (w : t_walk) (tl1 : t_tokenline) (e : t_token)
    (base : Z) (sg body rest : list Z) (v : Z) :
  TARG_INT hdr <> 0 -> TARG_INT hdr <> TARG_HELP hdr ->
  tokenize_loop hdr strtof false ws
    (mk_walk false 0 None
       [default [] (token_levels tl !! Z.to_nat (token_level tl))] 0 0) tl
    = (Some w, tl1) ->
  done w = false -> arg_needed w = 0 ->
  find_token (hd [] (token_stack w)) (token_dict tl) (cstr_at (buf tl) o0) > -1 ->
  entry_at (hd [] (token_stack w))
    (find_token (hd [] (token_stack w)) (token_dict tl) (cstr_at (buf tl) o0)) = e ->
  arg_type e = TARG_INT hdr ->
  cstr_at (buf tl) o1 = sg ++ body ++ rest ->
  sg = [] \/ sg = [43] \/ sg = [45] ->
  c_numeral base body v -> stops base body rest ->
  - 2 ^ 31 <= sign_value sg v < 2 ^ 31 ->
  cur_tp w + 3 < Z.of_nat (length (tokens (parsed tl))) ->
  cur_bufsize w + sizeof_int <= Z.of_nat (length (p_buf (parsed tl))) ->
  (rest = [] ->
   exists tl' ct,
     tokenize hdr strtof tl (ws ++ [o0; o1]) (Z.of_nat (length (ws ++ [o0; o1]))) false
       = (true, tl', ct, 0) /\
     load (tokens (parsed tl')) (cur_tp w) = token e /\
     load (tokens (parsed tl')) (cur_tp w + 1) = TARG_INT hdr /\
     load (tokens (parsed tl')) (cur_tp w + 2) = cur_bufsize w /\
     load (tokens (parsed tl')) (cur_tp w + 3) = 0 /\
     (forall j, j < cur_tp w ->
        load (tokens (parsed tl')) j = load (tokens (parsed tl1)) j) /\
     int_at (p_buf (parsed tl')) (cur_bufsize w) = sign_value sg v) /\
  (rest <> [] ->
   exists tl',
     tokenize hdr strtof tl (ws ++ [o0; o1]) (Z.of_nat (length (ws ++ [o0; o1]))) false
       = (false, tl', None, 0) /\
     printed tl' = printed tl ++ [str "Invalid value." ++ NL]).
Proof.
  intros Hnz Hnh Hloop Hd Ha Hfind He Hat Hword Hsg Hnum Hstop Hrange Htok Hbuf.
  pose proof (tokenize_loop_frame hdr strtof false ws
                (mk_walk false 0 None
                   [default [] (token_levels tl !! Z.to_nat (token_level tl))] 0 0) tl)
    as Hfr.
  rewrite Hloop in Hfr. destruct Hfr as [Hfr Hpr].
  destruct (parse_frame_fields _ _ Hfr) as (Eb & _ & _ & _ & _ & _ & _ & _ & _ & _ & _ & _ & Ed & _).
  destruct (tokenize_loop_forward _ _ _ _ _ _ _ _ Hloop) as (F1 & F2 & F3 & F4).
  cbn [cur_tp cur_bufsize] in F1, F2.
  pose proof (strtol_signed base body v rest sg Hnum Hstop Hsg) as Hscan.
  assert (Hclamp : clamp (sign_value sg v) = sign_value sg v).
  { unfold clamp, LONG_MAX, LONG_MIN. lia. }
  rewrite Hclamp in Hscan.
  set (w1 := mk_walk false (TARG_INT hdr)
               (if TARG_INT hdr =? TARG_TOKEN hdr then subtokens e else arg_tokens w)
               (token_stack w) (cur_tp w + 1) (cur_bufsize w)).
  set (tl2 := set_last_token_entry (Some e) (set_tokens (cur_tp w) (token e) tl1)).
  assert (H1 : tokenize_word hdr strtof false (cstr_at (buf tl1) o0) w tl1 = (Some w1, tl2)).
  { rewrite Eb. apply tokenize_word_int_token; try assumption; rewrite Ed; assumption. }
  assert (H2 : tokenize_word hdr strtof false (cstr_at (buf tl2) o1) w1 tl2
               = match rest with
                 | [] =>
                     (Some (mk_walk false 0 (arg_tokens w1) (token_stack w1)
                              (cur_tp w1 + 2) (cur_bufsize w1 + sizeof_int)),
                      set_p_buf (memcpy (p_buf (parsed tl2)) (cur_bufsize w1)
                                   (int_bytes (int_of_long (sign_value sg v))))
                        (set_tokens (cur_tp w1 + 1) (cur_bufsize w1)
                           (set_tokens (cur_tp w1) (TARG_INT hdr) tl2)))
                 | _ :: _ =>
                     (None, tokenize_error false (str "Invalid value." ++ NL) tl2)
                 end).
  { change (buf tl2) with (buf tl1). rewrite Eb, Hword.
    rewrite (tokenize_word_int hdr strtof false _ w1 tl2 Hnz eq_refl eq_refl).
    rewrite Hscan. reflexivity. }
  assert (Htake : take (Z.to_nat (Z.of_nat (length (ws ++ [o0; o1])))) (ws ++ [o0; o1])
                  = ws ++ [o0; o1]) by (rewrite Nat2Z.id; apply firstn_all).
  unfold tokenize. rewrite Htake, tokenize_loop_app, Hloop.
  cbn [tokenize_loop]. rewrite H1, H2.
  split.
  - intros ->. cbn [arg_needed Z.eqb negb andb done cur_tp w1].
    eexists _, _. split; [reflexivity |].
    cbn [parsed tokens p_buf set_tokens set_p_buf set_parsed set_last_token_entry tl2
         cur_bufsize w1].
    assert (Hlen : Z.of_nat (length (tokens (parsed tl1)))
                   = Z.of_nat (length (tokens (parsed tl)))) by congruence.
    repeat split.
    + rewrite !load_store, !length_store. tests; lia.
    + rewrite !load_store, !length_store. tests; lia.
    + rewrite !load_store, !length_store. tests; lia.
    + rewrite !load_store, !length_store. tests; lia.
    + intros j Hj. rewrite !load_store, !length_store. tests; lia.
    + rewrite int_of_long_id by exact Hrange.
      apply int_at_int_bytes; [lia | rewrite F4; exact Hbuf | exact Hrange].
  - intros Hrest. destruct rest as [| c r]; [contradiction |].
    eexists. split; [reflexivity |].
    unfold tokenize_error. cbn [print printed set_printed tl2 set_last_token_entry
                                 set_tokens set_parsed].
    rewrite Hpr. reflexivity.
Qed.

(** The word [0x2A] behind [set]: its value 42 is stored.  *)
Lemma integer_argument_stored_witness :
  TARG_INT sample_hdr <> 0 /\ TARG_INT sample_hdr <> TARG_HELP sample_hdr /\
  exists tl' ct,
    tokenize sample_hdr no_strtof set_0x2A_split [0; 4] 2 false = (true, tl', ct, 0) /\
    load (tokens (parsed tl')) 0 = 3 /\
    load (tokens (parsed tl')) 1 = TARG_INT sample_hdr /\
    load (tokens (parsed tl')) 2 = 0 /\
    load (tokens (parsed tl')) 3 = 0 /\
    (forall j, j < 0 -> load (tokens (parsed tl')) j = load (tokens (parsed set_0x2A_split)) j) /\
    int_at (p_buf (parsed tl')) 0 = 42.
Proof.
  assert (H1 : TARG_INT sample_hdr <> 0) by discriminate.
  assert (H2 : TARG_INT sample_hdr <> TARG_HELP sample_hdr) by discriminate.
  split; [exact H1 |]. split; [exact H2 |].
  refine (proj1 (integer_argument_stored sample_hdr no_strtof set_0x2A_split [] 0 4
            (mk_walk false 0 None [sample_tokens] 0 0) set_0x2A_split
            (mk_token 3 (TARG_INT sample_hdr) None None)
            16 [] (str "0x2A") [] (numeral_value 16 [2; 10])
            H1 H2 eq_refl eq_refl eq_refl _ eq_refl eq_refl eq_refl _ _ _ _ _ _) eq_refl).
  - reflexivity.
  - left. reflexivity.
  - apply (c_hex 120 50 [65] 2 [10]); [left; reflexivity | unfold digit; lia |].
    constructor; [unfold digit; lia | constructor].
  - exact I.
  - change (sign_value [] (numeral_value 16 [2; 10])) with 42. lia.
  - vm_compute. reflexivity.
  - vm_compute. discriminate.
Defined.

(** ** Ctrl-W *)

(** The shape of the two loops of Ctrl-W: backspace while the byte left of
    the cursor satisfies [p]. *)
Fixpoint kill_while (p : Z -> bool) (n : nat) (tl : t_tokenline) : t_tokenline :=
  match n with
  | O => tl
  | S n' =>
      if negb (pos tl =? 0) && p (load (buf tl) (pos tl - 1))
      then kill_while p n' (backspace tl)
      else tl
  end.

Lemma kill_spaces_loop_while n : forall tl,
  kill_spaces_loop n tl = kill_while (fun c => c =? 32) n tl.
Proof. induction n as [| n IH]; intros tl; cbn; [| rewrite IH]; reflexivity. Qed.

Lemma kill_word_loop_while n : forall tl,
  kill_word_loop n tl = kill_while (fun c => negb (c =? 32)) n tl.
Proof. induction n as [| n IH]; intros tl; cbn; [| rewrite IH]; reflexivity. Qed.

(** [killed p tl tl' q]: [tl'] is [tl] with the bytes from [q] up to the
    cursor removed; these are the longest stretch left of the cursor whose
    bytes all satisfy [p]. *)
Definition killed (p : Z -> bool) (tl tl' : t_tokenline) (q : Z) : Prop :=
  0 <= q <= pos tl /\ pos tl' = q /\ buf_len tl' = buf_len tl - (pos tl - q) /\
  line tl' = take (Z.to_nat q) (line tl) ++ drop (Z.to_nat (pos tl)) (line tl) /\
  (forall j, q <= j < pos tl -> p (load (line tl) j) = true) /\
  (q = 0 \/ p (load (line tl) (q - 1)) = false) /\
  line_wf tl' /\ line_frame tl tl'.

Lemma load_line tl j : 0 <= j < buf_len tl -> load (line tl) j = load (buf tl) j.
Proof. intros Hj. unfold line. apply load_take. lia. Qed.

Lemma kill_while_killed p : forall n tl,
  line_wf tl -> (Z.to_nat (pos tl) <= n)%nat ->
  killed p tl (kill_while p n tl) (pos (kill_while p n tl)).
Proof.
  assert (Hstop : forall tl, line_wf tl ->
            (pos tl = 0 \/ p (load (buf tl) (pos tl - 1)) = false) ->
            killed p tl tl (pos tl)).
  { intros tl Hwf Hs. pose proof Hwf as [[Hp Hl] Hz]. unfold killed.
    split; [lia |]. split; [reflexivity |]. split; [lia |].
    split; [rewrite take_drop; reflexivity |].
    split; [intros j Hj; lia |].
    split; [destruct Hs as [Hs | Hs]; [left; exact Hs |];
            destruct (Z.eq_dec (pos tl) 0); [left; assumption | right];
            rewrite load_line by lia; exact Hs |].
    split; [exact Hwf | apply line_frame_refl]. }
  induction n as [| n IH]; intros tl Hwf Hn; cbn [kill_while].
  - apply Hstop; [exact Hwf |]. left. destruct Hwf as [[? ?] ?]. lia.
  - destruct (Z.eqb_spec (pos tl) 0) as [H0 | H0]; cbn [negb andb].
    { apply Hstop; [exact Hwf | left; exact H0]. }
    destruct (p (load (buf tl) (pos tl - 1))) eqn:Hp1.
    2: { apply Hstop; [exact Hwf | right; exact Hp1]. }
    pose proof Hwf as [[Hp Hl] Hz].
    destruct (backspace_line tl ltac:(lia) Hl) as (Bl & Bp & Bline).
    pose proof (backspace_wf tl Hwf ltac:(lia)) as Hwf1.
    destruct (IH (backspace tl) Hwf1 ltac:(lia))
      as (Hq & _ & Hbl' & Hline' & Hall & Hmax & Hwf' & Hfr').
    set (tl' := kill_while p n (backspace tl)) in *.
    set (q := pos tl') in *.
    pose proof (length_line tl (proj1 Hwf)) as Hll.
    assert (Hsame : forall j, 0 <= j < pos tl - 1 ->
              load (line (backspace tl)) j = load (line tl) j).
    { intros j Hj. rewrite Bline, load_app, length_take, load_take_if.
      destruct (Z.ltb_spec j (Z.of_nat (Z.to_nat (pos tl - 1) `min` length (line tl))));
        [| lia].
      destruct (Z.ltb_spec j (Z.of_nat (Z.to_nat (pos tl - 1)))); [reflexivity | lia]. }
    unfold killed. split; [lia |]. split; [reflexivity |]. split; [lia |].
    split.
    { rewrite Hline', Bline, Bp. f_equal.
      - rewrite take_app_le by (rewrite length_take; lia).
        rewrite take_take. f_equal. lia.
      - rewrite drop_app_length' by (rewrite length_take; lia). reflexivity. }
    split.
    { intros j Hj. destruct (Z.eq_dec j (pos tl - 1)) as [-> | Hne].
      - rewrite load_line by lia. exact Hp1.
      - rewrite <- Hsame by lia. apply Hall. lia. }
    split.
    { destruct Hmax as [Hm | Hm]; [left; exact Hm |].
      destruct (Z.eq_dec q 0); [left; assumption | right].
      rewrite <- Hsame by lia. exact Hm. }
    split; [exact Hwf' |].
    eapply line_frame_trans; [apply line_frame_backspace | exact Hfr'].
Qed.

(** Ctrl-W removes the spaces left of the cursor and then the word left of
    them: the cursor ends at the start [q] of that word, the bytes from [q]
    to the old cursor are gone, those from [p] on were spaces and those
    from [q] to [p] were not, and both stretches are as long as they can
    be.  The line stays well formed and nothing else changes. *)
Theorem ctrl_w_kills_word hdr strtof (tl : t_tokenline) :
  escape_len tl = 0 -> line_wf tl ->
  exists tl' p q, tl_input hdr strtof tl 23 = Some (TRUE, tl') /\
    0 <= q <= p /\ p <= pos tl /\
    pos tl' = q /\ buf_len tl' = buf_len tl - (pos tl - q) /\
    line tl' = take (Z.to_nat q) (line tl) ++ drop (Z.to_nat (pos tl)) (line tl) /\
    (forall j, p <= j < pos tl -> load (line tl) j = 32) /\
    (p = 0 \/ load (line tl) (p - 1) <> 32) /\
    (forall j, q <= j < p -> load (line tl) j <> 32) /\
    (q = 0 \/ load (line tl) (q - 1) = 32) /\
    line_wf tl' /\ line_frame tl tl'.
Proof.
  intros He Hwf.
  destruct (kill_while_killed (fun c => c =? 32) (Z.to_nat (pos tl)) tl Hwf (le_n _))
    as (Hp & _ & Hbl1 & Hline1 & Hsp & Hspmax & Hwf1 & Hfr1).
  set (tl1 := kill_while (fun c => c =? 32) (Z.to_nat (pos tl)) tl) in *.
  destruct (kill_while_killed (fun c => negb (c =? 32)) (Z.to_nat (pos tl1)) tl1 Hwf1 (le_n _))
    as (Hq & _ & Hbl2 & Hline2 & Hw & Hwmax & Hwf2 & Hfr2).
  set (tl2 := kill_while (fun c => negb (c =? 32)) (Z.to_nat (pos tl1)) tl1) in *.
  pose proof (length_line tl (proj1 Hwf)) as Hll.
  pose proof Hwf as [[Hpos Hl] Hz].
  assert (Hsame : forall j, 0 <= j < pos tl1 -> load (line tl1) j = load (line tl) j).
  { intros j Hj. rewrite Hline1, load_app, length_take, load_take_if.
    destruct (Z.ltb_spec j (Z.of_nat (Z.to_nat (pos tl1) `min` length (line tl)))); [| lia].
    destruct (Z.ltb_spec j (Z.of_nat (Z.to_nat (pos tl1)))); [reflexivity | lia]. }
  exists tl2, (pos tl1), (pos tl2).
  split.
  { unfold tl_input. rewrite He. cbn [Z.eqb Pos.eqb negb orb andb].
    rewrite kill_spaces_loop_while. fold tl1. rewrite kill_word_loop_while. reflexivity. }
  split; [lia |]. split; [lia |]. split; [reflexivity |]. split; [lia |].
  split.
  { rewrite Hline2, Hline1. f_equal.
    - rewrite take_app_le by (rewrite length_take; lia).
      rewrite take_take. f_equal. lia.
    - rewrite drop_app_length' by (rewrite length_take; lia). reflexivity. }
  split; [intros j Hj; apply Z.eqb_eq, Hsp; exact Hj |].
  split.
  { destruct Hspmax as [H0 | Hm]; [left; exact H0 | right].
    apply Z.eqb_neq. exact Hm. }
  split.
  { intros j Hj. rewrite <- Hsame by lia. apply Z.eqb_neq, negb_true_iff, Hw. exact Hj. }
  split.
  { destruct Hwmax as [H0 | Hm]; [left; exact H0 |].
    destruct (Z.eq_dec (pos tl2) 0); [left; assumption | right].
    rewrite <- Hsame by lia. apply negb_false_iff in Hm. apply Z.eqb_eq. exact Hm. }
  split; [exact Hwf2 |].
  eapply line_frame_trans; eassumption.
Qed.

(** The engine after the bytes [ab cd] and a trailing space. *)
Definition ab_cd_sp_typed : t_tokenline := sample_after sample_hdr (str "ab cd ").

Lemma ctrl_w_kills_word_witness :
  escape_len ab_cd_sp_typed = 0 /\ line_wf ab_cd_sp_typed /\
  exists tl' p q, tl_input sample_hdr no_strtof ab_cd_sp_typed 23 = Some (TRUE, tl') /\
    0 <= q <= p /\ p <= pos ab_cd_sp_typed /\
    pos tl' = q /\ buf_len tl' = buf_len ab_cd_sp_typed - (pos ab_cd_sp_typed - q) /\
    line tl' = take (Z.to_nat q) (line ab_cd_sp_typed)
                 ++ drop (Z.to_nat (pos ab_cd_sp_typed)) (line ab_cd_sp_typed) /\
    (forall j, p <= j < pos ab_cd_sp_typed -> load (line ab_cd_sp_typed) j = 32) /\
    (p = 0 \/ load (line ab_cd_sp_typed) (p - 1) <> 32) /\
    (forall j, q <= j < p -> load (line ab_cd_sp_typed) j <> 32) /\
    (q = 0 \/ load (line ab_cd_sp_typed) (q - 1) = 32) /\
    line_wf tl' /\ line_frame ab_cd_sp_typed tl'.
Proof.
  assert (H1 : escape_len ab_cd_sp_typed = 0) by reflexivity.
  assert (H2 : line_wf ab_cd_sp_typed) by by_eval.
  split; [exact H1 |]. split; [exact H2 |].
  exact (ctrl_w_kills_word sample_hdr no_strtof ab_cd_sp_typed H1 H2).
Defined.

(** ** The down key at the newest entry *)

(** [history_down] while the entry at [hist_step] is the newest one: the
    entry runs up to the byte before [hist_end], and the byte at [hist_end]
    is free. *)
Lemma history_down_newest hdr (tl : t_tokenline) (n : nat) :
  line_ok tl -> Z.of_nat (length (buf tl)) = TL_MAX_LINE_LEN hdr ->
  hist_step tl <> -1 -> hist_step tl <> hist_end tl ->
  (n <= Z.to_nat (TL_MAX_HISTORY_SIZE hdr))%nat ->
  (forall k, (k < n)%nat ->
     load (hist_buf tl) (Nat.iter k (hist_inc hdr) (hist_step tl)) <> 0) ->
  load (hist_buf tl) (Nat.iter n (hist_inc hdr) (hist_step tl)) = 0 ->
  hist_end tl = hist_inc hdr (Nat.iter n (hist_inc hdr) (hist_step tl)) ->
  0 <= hist_end tl -> load (hist_buf tl) (hist_end tl) = 0 ->
  exists tl1, history_down hdr tl = Some tl1 /\
    hist_step tl1 = hist_end tl /\ hist_end tl1 = hist_end tl /\
    buf_len tl1 = 0 /\ pos tl1 = 0 /\ length (buf tl1) = length (buf tl) /\
    escape_len tl1 = escape_len tl /\ escape tl1 = escape tl.
Proof.
  intros Hok Hlen Hs1 Hs2 Hn Hnz Hz Hend Hend0 Hfree.
  destruct (delete_line_empties tl Hok) as (Hdp & Hdl & Hdlen & Hdf).
  destruct (line_frame_fields _ _ Hdf) as (F1 & F2 & F3 & F4 & F5 & F6 & _).
  assert (Hmax : 0 < TL_MAX_LINE_LEN hdr) by (destruct Hok; lia).
  set (tld := delete_line tl) in *.
  destruct (set_line_empty hdr tld Hdl Hdp Hmax) as (Sl & Sp & Slen & Sf).
  destruct (line_frame_fields _ _ Sf) as (G1 & G2 & G3 & G4 & G5 & G6 & _).
  exists (set_hist_step (hist_end tl) (set_line hdr tld [])).
  split.
  { unfold history_down. destruct (Z.eqb_spec (hist_step tl) (-1)); [contradiction |].
    fold tld. rewrite F4, F3, F1.
    destruct (Z.eqb_spec (hist_step tl) (hist_end tl)); [contradiction |].
    rewrite (history_down_loop_finds hdr (hist_buf tl) n (hist_step tl));
      [| unfold hist_fuel; lia | exact Hnz | exact Hz].
    cbn [bind]. rewrite <- Hend, (cstr_at_nul _ _ Hend0 Hfree). reflexivity. }
  cbn [hist_step hist_end buf_len pos buf escape_len escape set_hist_step].
  rewrite G3, F3, G6, F6, G5, F5, Slen, Hdlen. repeat split; assumption.
Qed.

(** [history_down] with the walk position at [hist_end]. *)
Lemma history_down_at_end hdr (tl : t_tokenline) :
  line_ok tl -> hist_step tl = hist_end tl -> hist_step tl <> -1 ->
  exists tl2, history_down hdr tl = Some tl2 /\
    hist_step tl2 = -1 /\ buf_len tl2 = 0 /\ pos tl2 = 0 /\
    escape_len tl2 = escape_len tl.
Proof.
  intros Hok Hs Hn.
  destruct (delete_line_empties tl Hok) as (Hdp & Hdl & _ & Hdf).
  destruct (line_frame_fields _ _ Hdf) as (_ & _ & F3 & F4 & _ & F6 & _).
  exists (set_hist_step (-1) (delete_line tl)). split.
  - unfold history_down. destruct (Z.eqb_spec (hist_step tl) (-1)); [contradiction |].
    rewrite F4, F3, Hs, Z.eqb_refl. reflexivity.
  - cbn [hist_step buf_len pos escape_len set_hist_step]. repeat split; assumption.
Qed.

(** The two down keys run [history_down] and leave no escape sequence in
    progress. *)
Lemma down_key_runs_history_down hdr strtof (tl : t_tokenline) (key : list Z) :
  key = [14] \/ key = [27; 91; 66] ->
  escape_len tl = 0 -> (3 <= length (escape tl))%nat -> TL_MAX_ESCAPE_LEN hdr <> 2 ->
  exists tlp,
    tl_feed hdr strtof tl key
      = (do t <- history_down hdr tlp; Some (TRUE, set_escape_len 0 t)) /\
    set_escape_len (escape_len tl) (set_escape (escape tl) tlp) = tl /\
    length (escape tlp) = length (escape tl).
Proof.
  intros [-> | ->] He Hl Hm.
  - exists tl. split; [| split; [destruct tl; reflexivity | reflexivity]].
    cbn [tl_feed]. unfold tl_input. rewrite He. cbn [Z.eqb Pos.eqb negb orb].
    destruct (history_down hdr tl) as [t |] eqn:E; [| reflexivity]. cbn [bind].
    assert (Ht : escape_len t = 0).
    { revert E. unfold history_down.
      destruct (hist_step tl =? -1); [intros [= <-]; exact He |].
      cbv zeta.
      pose proof (line_frame_fields _ _ (line_frame_delete_line tl))
        as (_ & _ & _ & _ & _ & F6 & _).
      destruct (hist_step (delete_line tl) =? hist_end (delete_line tl)).
      - intros [= <-]. cbn. congruence.
      - destruct (history_down_loop _ _ _ _) as [i |]; [| discriminate].
        cbn [bind]. intros [= <-].
        pose proof (line_frame_fields _ _
                      (line_frame_set_line hdr (delete_line tl)
                         (cstr_at (hist_buf (delete_line tl)) (hist_inc hdr i))))
          as (_ & _ & _ & _ & _ & G6 & _).
        cbn. congruence. }
    rewrite <- Ht. destruct t; reflexivity.
  - set (tlp := escape_push (escape_push (escape_push tl 27) 91) 66).
    exists tlp. split; [| split].
    + rewrite (escape_three hdr strtof tl 91 66 He Hm). fold tlp.
      destruct (escape_pushed3 tl 91 66 He Hl ltac:(lia) ltac:(lia)) as [Hl3 [r Hr]].
      fold tlp in Hl3, Hr.
      rewrite (process_escape_three hdr tlp 91 66 r Hl3 Hr).
      cbn [Z.eqb Pos.eqb andb].
      destruct (history_down hdr tlp) as [t |]; reflexivity.
    + unfold tlp, escape_push. destruct tl; reflexivity.
    + unfold tlp, escape_push. cbn [escape set_escape set_escape_len].
      rewrite !length_store. reflexivity.
Qed.

Lemma same_but_escape tl tlp e x :
  set_escape_len e (set_escape x tlp) = tl ->
  buf tlp = buf tl /\ buf_len tlp = buf_len tl /\ pos tlp = pos tl /\
  hist_buf tlp = hist_buf tl /\ hist_end tlp = hist_end tl /\
  hist_step tlp = hist_step tl.
Proof. intros <-. destruct tlp; cbn. repeat split. Qed.

(** C9 (as amended): while the newest entry is displayed (the entry at the
    walk position [hist_step] runs up to the byte before [hist_end], and
    the byte at [hist_end] is free), one down-arrow or Ctrl-N empties the
    line and moves the walk position to [hist_end], not to -1; a second one
    sets it to -1, and the line stays empty. *)
Theorem down_at_newest_takes_two hdr strtof (tl : t_tokenline) (n : nat)
    (key : list Z) :
  key = [14] \/ key = [27; 91; 66] ->
  escape_len tl = 0 -> (3 <= length (escape tl))%nat -> TL_MAX_ESCAPE_LEN hdr <> 2 ->
  line_ok tl -> Z.of_nat (length (buf tl)) = TL_MAX_LINE_LEN hdr ->
  hist_step tl <> -1 -> hist_step tl <> hist_end tl ->
  (n <= Z.to_nat (TL_MAX_HISTORY_SIZE hdr))%nat ->
  (forall k, (k < n)%nat ->
     load (hist_buf tl) (Nat.iter k (hist_inc hdr) (hist_step tl)) <> 0) ->
  load (hist_buf tl) (Nat.iter n (hist_inc hdr) (hist_step tl)) = 0 ->
  hist_end tl = hist_inc hdr (Nat.iter n (hist_inc hdr) (hist_step tl)) ->
  0 <= hist_end tl -> load (hist_buf tl) (hist_end tl) = 0 ->
  exists tl1 tl2,
    tl_feed hdr strtof tl key = Some (TRUE, tl1) /\
    hist_step tl1 = hist_end tl /\ hist_step tl1 <> -1 /\
    buf_len tl1 = 0 /\ pos tl1 = 0 /\ escape_len tl1 = 0 /\
    tl_feed hdr strtof tl1 key = Some (TRUE, tl2) /\
    hist_step tl2 = -1 /\ buf_len tl2 = 0 /\ pos tl2 = 0 /\ escape_len tl2 = 0.
Proof.
  intros Hkey He Hesc Hm Hok Hlen Hs1 Hs2 Hn Hnz Hz Hend Hend0 Hfree.
  destruct (down_key_runs_history_down hdr strtof tl key Hkey He Hesc Hm)
    as (tlp & Hfeed & Hsame & Hel).
  destruct (same_but_escape _ _ _ _ Hsame) as (P1 & P2 & P3 & P4 & P5 & P6).
  destruct (history_down_newest hdr tlp n) as (t1 & Hd1 & A1 & A2 & A3 & A4 & A5 & A6 & A7).
  { unfold line_ok. rewrite P1, P2, P3. exact Hok. }
  { rewrite P1. exact Hlen. }
  { rewrite P6. exact Hs1. }
  { rewrite P6, P5. exact Hs2. }
  { exact Hn. }
  { rewrite P4, P6. exact Hnz. }
  { rewrite P4, P6. exact Hz. }
  { rewrite P5, P6. exact Hend. }
  { rewrite P5. exact Hend0. }
  { rewrite P4, P5. exact Hfree. }
  rewrite P5 in A1, A2. rewrite P1 in A5.
  set (tl1 := set_escape_len 0 t1).
  assert (Hok1 : line_ok tl1).
  { unfold line_ok. cbn [tl1 pos buf_len buf set_escape_len].
    rewrite A3, A4, A5. destruct Hok. lia. }
  destruct (down_key_runs_history_down hdr strtof tl1 key Hkey eq_refl)
    as (tlq & Hfeed2 & Hsame2 & Hel2).
  { cbn [tl1 escape set_escape_len]. rewrite A7, Hel. exact Hesc. }
  { exact Hm. }
  destruct (same_but_escape _ _ _ _ Hsame2) as (Q1 & Q2 & Q3 & Q4 & Q5 & Q6).
  destruct (history_down_at_end hdr tlq) as (t2 & Hd2 & B1 & B2 & B3 & B4).
  { unfold line_ok. rewrite Q1, Q2, Q3. exact Hok1. }
  { rewrite Q6, Q5. cbn [tl1 hist_step hist_end set_escape_len]. congruence. }
  { rewrite Q6. cbn [tl1 hist_step set_escape_len]. lia. }
  exists tl1, (set_escape_len 0 t2).
  rewrite Hfeed, Hd1. cbn [bind]. fold tl1. rewrite Hfeed2, Hd2. cbn [bind].
  split; [reflexivity |].
  split; [exact A1 |]. split; [cbn [tl1 hist_step set_escape_len]; lia |].
  split; [exact A3 |]. split; [exact A4 |]. split; [reflexivity |].
  split; [reflexivity |].
  split; [exact B1 |]. split; [exact B2 |]. split; [exact B3 | reflexivity].
Qed.

Lemma down_at_newest_takes_two_witness :
  ([27; 91; 66] = [14] \/ [27; 91; 66] = [27; 91; 66]) /\
  escape_len a_recalled = 0 /\ (3 <= length (escape a_recalled))%nat /\
  TL_MAX_ESCAPE_LEN sample_hdr <> 2 /\
  line_ok a_recalled /\
  Z.of_nat (length (buf a_recalled)) = TL_MAX_LINE_LEN sample_hdr /\
  hist_step a_recalled = 0 /\ hist_end a_recalled = 2 /\
  exists tl1 tl2,
    tl_feed sample_hdr no_strtof a_recalled [27; 91; 66] = Some (TRUE, tl1) /\
    hist_step tl1 = hist_end a_recalled /\ hist_step tl1 <> -1 /\
    buf_len tl1 = 0 /\ pos tl1 = 0 /\ escape_len tl1 = 0 /\
    tl_feed sample_hdr no_strtof tl1 [27; 91; 66] = Some (TRUE, tl2) /\
    hist_step tl2 = -1 /\ buf_len tl2 = 0 /\ pos tl2 = 0 /\ escape_len tl2 = 0.
Proof.
  split; [right; reflexivity |]. split; [reflexivity |].
  split; [vm_compute; lia |]. split; [discriminate |].
  split; [by_eval |]. split; [reflexivity |]. split; [reflexivity |].
  split; [reflexivity |].
  apply (down_at_newest_takes_two sample_hdr no_strtof a_recalled 1 [27; 91; 66]).
  - right. reflexivity.
  - reflexivity.
  - vm_compute. lia.
  - discriminate.
  - by_eval.
  - reflexivity.
  - vm_compute. discriminate.
  - vm_compute. discriminate.
  - vm_compute. lia.
  - intros k Hk. assert (k = O) by lia. subst k. vm_compute. discriminate.
  - reflexivity.
  - reflexivity.
  - vm_compute. discriminate.
  - reflexivity.
Defined.

(** C9 as stated fails: with the line [a] submitted and recalled, so that
    the newest entry is displayed, neither Ctrl-N nor the down-arrow leaves
    the walk position at -1. *)
Lemma down_at_newest_counterexample :
  line a_recalled = [97] /\ hist_step a_recalled = 0 /\
  ~ (exists tl', tl_input sample_hdr no_strtof a_recalled 14 = Some (TRUE, tl') /\
       hist_step tl' = -1 /\ buf_len tl' = 0) /\
  ~ (exists tl', tl_feed sample_hdr no_strtof a_recalled [27; 91; 66] = Some (TRUE, tl') /\
       hist_step tl' = -1 /\ buf_len tl' = 0).
Proof.
  split; [reflexivity |]. split; [reflexivity |]. split.
  - intros (tl' & H & Hs & _). revert H Hs. vm_compute.
    intros [= <-]. discriminate.
  - intros (tl' & H & Hs & _). revert H Hs. vm_compute.
    intros [= <-]. discriminate.
Qed.

(** ** A walk over the history after a sequence of submissions *)

(** Feeding bytes one after the other. *)
Lemma tl_feed_app_true hdr strtof (a b : list Z) : forall tl t,
  tl_feed hdr strtof tl a = Some (TRUE, t) ->
  tl_feed hdr strtof tl (a ++ b) = tl_feed hdr strtof t b.
Proof.
  induction a as [| c r IH]; intros tl t H.
  - cbn in H. injection H as <-. reflexivity.
  - destruct r as [| c' r'].
    + cbn [tl_feed] in H. cbn [app]. destruct b as [| d b']; cbn [tl_feed].
      * exact H.
      * rewrite H. reflexivity.
    + change (tl_feed hdr strtof tl (c :: c' :: r'))
        with (do x <- tl_input hdr strtof tl c; tl_feed hdr strtof (snd x) (c' :: r')) in H.
      change (tl_feed hdr strtof tl ((c :: c' :: r') ++ b))
        with (do x <- tl_input hdr strtof tl c;
              tl_feed hdr strtof (snd x) ((c' :: r') ++ b)).
      destruct (tl_input hdr strtof tl c) as [x |]; [| discriminate].
      cbn [bind] in *. apply IH. exact H.
Qed.

(** The bytes a byte is printable among. *)
Definition printable (c : Z) : Prop := 32 <= c <= 126.

(** Typing printable bytes at the end of a line that has room for them
    appends them; the history is not touched. *)
Lemma type_line hdr strtof : forall (l : list Z) (tl : t_tokenline),
  escape_len tl = 0 -> line_wf tl -> pos tl = buf_len tl ->
  Z.of_nat (length (buf tl)) = TL_MAX_LINE_LEN hdr ->
  Forall printable l ->
  buf_len tl + Z.of_nat (length l) < TL_MAX_LINE_LEN hdr ->
  exists tl', tl_feed hdr strtof tl l = Some (TRUE, tl') /\
    line tl' = line tl ++ l /\ buf_len tl' = buf_len tl + Z.of_nat (length l) /\
    pos tl' = buf_len tl' /\ line_wf tl' /\ escape_len tl' = 0 /\
    length (buf tl') = length (buf tl) /\
    hist_buf tl' = hist_buf tl /\ hist_begin tl' = hist_begin tl /\
    hist_end tl' = hist_end tl.
Proof.
  induction l as [| c r IH]; intros tl He Hwf Hp Hlen Hpr Hroom.
  - exists tl. rewrite app_nil_r. cbn [length]. repeat split; try lia; apply Hwf.
  - inversion Hpr as [| ? ? Hc Hr]; subst. cbn [length] in Hroom.
    pose proof (tl_input_printable hdr strtof tl c He Hc) as Hin.
    destruct (Z.ltb_spec (buf_len tl) (TL_MAX_LINE_LEN hdr - 1)); [| lia].
    destruct (add_char_inserts tl c Hwf ltac:(lia)) as (A1 & A2 & A3 & A4 & A5).
    pose proof (add_char_wf tl c Hwf ltac:(lia)) as Hwf1.
    destruct (line_frame_fields _ _ (line_frame_add_char tl c))
      as (F1 & F2 & F3 & _ & _ & F6 & _).
    set (tl1 := set_hist_step (-1) (add_char tl c)) in *.
    destruct (IH tl1) as (tl' & Hf & B1 & B2 & B3 & B4 & B5 & B6 & B7 & B8 & B9).
    { change (escape_len tl1) with (escape_len (add_char tl c)). congruence. }
    { exact Hwf1. }
    { change (pos tl1) with (pos (add_char tl c)).
      change (buf_len tl1) with (buf_len (add_char tl c)). lia. }
    { change (buf tl1) with (buf (add_char tl c)). lia. }
    { exact Hr. }
    { change (buf_len tl1) with (buf_len (add_char tl c)). lia. }
    exists tl'. split.
    { change (c :: r) with ([c] ++ r).
      rewrite (tl_feed_app_true hdr strtof [c] r tl tl1); [exact Hf | exact Hin]. }
    change (line tl1) with (line (add_char tl c)) in B1.
    change (buf_len tl1) with (buf_len (add_char tl c)) in B2.
    change (buf tl1) with (buf (add_char tl c)) in B6.
    change (hist_buf tl1) with (hist_buf (add_char tl c)) in B7.
    change (hist_begin tl1) with (hist_begin (add_char tl c)) in B8.
    change (hist_end tl1) with (hist_end (add_char tl c)) in B9.
    split.
    { rewrite B1, A1. pose proof (length_line tl (proj1 Hwf)) as Hll.
      rewrite take_ge, drop_ge by lia. rewrite <- app_assoc. reflexivity. }
    split; [rewrite B2, A2; cbn [length]; lia |].
    split; [exact B3 |]. split; [exact B4 |]. split; [exact B5 |].
    split; [congruence |]. split; [congruence |]. split; congruence.
Qed.

(** A submission of a line into a ring with room, with what the next
    submission needs. *)
Lemma submit_line hdr strtof (tl : t_tokenline) (ls : list (list Z)) :
  escape_len tl = 0 -> line_wf tl -> buf_len tl <> 0 -> cstring (line tl) ->
  ring_holds hdr tl ls ->
  Z.of_nat (length (ring_bytes ls)) + buf_len tl + 1 < TL_MAX_HISTORY_SIZE hdr ->
  exists tl', tl_input hdr strtof tl 13 = Some (TRUE, tl') /\
    ring_holds hdr tl' (ls ++ [line tl]) /\
    buf_len tl' = 0 /\ escape_len tl' = 0 /\ line_wf tl' /\
    length (buf tl') = length (buf tl).
Proof.
  intros He Hwf Hn Hcs Hring Hroom.
  pose proof (cstr_buf_line tl Hwf Hcs) as Hline.
  pose proof (length_line tl (proj1 Hwf)) as Hll.
  set (tl0 := print NL tl).
  assert (Hring0 : ring_holds hdr tl0 ls) by exact Hring.
  assert (Hne : cstr (buf tl0) <> []).
  { change (buf tl0) with (buf tl). rewrite Hline. intros E.
    rewrite E in Hll. cbn in Hll. destruct Hwf as [[? ?] ?]. lia. }
  assert (Hroom0 : Z.of_nat (length (ring_bytes ls)) + strlen (cstr (buf tl0)) + 1
                   < TL_MAX_HISTORY_SIZE hdr).
  { change (buf tl0) with (buf tl). rewrite Hline. unfold strlen. rewrite Hll.
    destruct Hwf as [[? ?] ?]. lia. }
  destruct (history_add_appends hdr tl0 ls Hring0 Hne Hroom0) as (tl1 & Hadd & Hring1 & Hfr1).
  destruct (history_add_kept _ _ Hfr1) as (K1 & K2 & K3 & K4 & K5).
  destruct (process_line_body_total hdr strtof tl0 tl1 ls (cstr (buf tl0)) Hn Hadd Hring1)
    as (tl3 & Hbody & Hk & Hcalled).
  pose proof Hk as (Q1 & Q2 & Q3 & Q4 & Q5 & Q6).
  assert (Hlen3 : length (buf tl3) = length (buf tl)).
  { rewrite Q6, K3. reflexivity. }
  exists (process_line_reset tl3).
  split.
  { unfold tl_input. rewrite He. cbn [Z.eqb Pos.eqb negb orb].
    unfold process_line. fold tl0. rewrite Hbody. reflexivity. }
  split.
  { change (buf tl0) with (buf tl) in Hring1. rewrite Hline in Hring1.
    apply (ring_holds_kept hdr tl1); [| exact Hring1].
    unfold kept, process_line_reset.
    cbn [hist_buf hist_begin hist_end hist_step prompt buf print set_printed set_pos
         set_escape_len set_buf_len set_buf].
    rewrite length_store. repeat split; assumption. }
  split; [reflexivity |]. split; [reflexivity |].
  assert (Hlen' : length (buf (process_line_reset tl3)) = length (buf tl)).
  { change (buf (process_line_reset tl3)) with (store (buf tl3) 0 0).
    rewrite length_store. exact Hlen3. }
  split; [| exact Hlen'].
  unfold line_wf, line_ok. rewrite Hlen'.
  change (pos (process_line_reset tl3)) with 0.
  change (buf_len (process_line_reset tl3)) with 0.
  change (buf (process_line_reset tl3)) with (store (buf tl3) 0 0).
  destruct Hwf as [[? ?] ?]. repeat split; try lia.
  apply load_store_eq. lia.
Qed.

(** The bytes of a sequence of submissions: every line and a carriage
    return. *)
Definition submissions (ls : list (list Z)) : list Z :=
  concat (map (fun l => l ++ [13]) ls).

Lemma cstring_printable l : Forall printable l -> cstring l.
Proof.
  unfold cstring, printable. intros H.
  eapply Forall_impl; [exact H |]. intros c Hc. cbv beta in Hc. lia.
Qed.

Lemma submit_lines hdr strtof : forall (ls pre : list (list Z)) (tl : t_tokenline),
  escape_len tl = 0 -> line_wf tl -> buf_len tl = 0 ->
  Z.of_nat (length (buf tl)) = TL_MAX_LINE_LEN hdr ->
  ring_holds hdr tl pre ->
  Forall (fun l => l <> [] /\ Forall printable l
                   /\ Z.of_nat (length l) < TL_MAX_LINE_LEN hdr) ls ->
  Z.of_nat (length (ring_bytes (pre ++ ls))) < TL_MAX_HISTORY_SIZE hdr ->
  exists tl', tl_feed hdr strtof tl (submissions ls) = Some (TRUE, tl') /\
    escape_len tl' = 0 /\ line_wf tl' /\ buf_len tl' = 0 /\
    Z.of_nat (length (buf tl')) = TL_MAX_LINE_LEN hdr /\
    ring_holds hdr tl' (pre ++ ls).
Proof.
  induction ls as [| l ls IH]; intros pre tl He Hwf Hb Hlen Hring Hls Hroom.
  - exists tl. rewrite app_nil_r.
    split; [reflexivity |]. split; [exact He |]. split; [exact Hwf |].
    split; [exact Hb |]. split; [exact Hlen | exact Hring].
  - inversion Hls as [| ? ? (Hne & Hpr & Hl) Hrest]; subst.
    assert (Hp : pos tl = buf_len tl) by (destruct Hwf as [[? ?] ?]; lia).
    destruct (type_line hdr strtof l tl He Hwf Hp Hlen Hpr ltac:(lia))
      as (tl1 & Hf1 & A1 & A2 & A3 & A4 & A5 & A6 & A7 & A8 & A9).
    assert (Hl0 : line tl = []).
    { unfold line. rewrite Hb. reflexivity. }
    rewrite Hl0 in A1. cbn [app] in A1.
    assert (Hring1 : ring_holds hdr tl1 pre).
    { unfold ring_holds in *. rewrite A7, A8, A9. exact Hring. }
    rewrite ring_bytes_app, ring_bytes_cons, !length_app in Hroom.
    cbn [length] in Hroom.
    destruct (submit_line hdr strtof tl1 pre A5 A4) as (tl2 & Hin & B1 & B2 & B3 & B4 & B5).
    { rewrite A2, Hb. destruct l; [congruence | cbn [length]; lia]. }
    { rewrite A1. apply cstring_printable, Hpr. }
    { exact Hring1. }
    { rewrite A2, Hb. lia. }
    rewrite A1 in B1.
    destruct (IH (pre ++ [l]) tl2) as (tl' & Hf & C1 & C2 & C3 & C4 & C5);
      try assumption.
    { rewrite B5, A6. exact Hlen. }
    { rewrite <- app_assoc. cbn [app].
      rewrite ring_bytes_app, ring_bytes_cons, !length_app. cbn [length]. lia. }
    exists tl'. rewrite <- app_assoc in C5. cbn [app] in C5.
    split; [| split; [exact C1 | split; [exact C2 | split; [exact C3 |
               split; [exact C4 | exact C5]]]]].
    unfold submissions. cbn [map concat]. fold (submissions ls).
    rewrite <- app_assoc.
    rewrite (tl_feed_app_true hdr strtof l _ tl tl1 Hf1).
    rewrite (tl_feed_app_true hdr strtof [13] _ tl1 tl2); [exact Hf | exact Hin].
Qed.

(** A repeated previous-entry walk from [entry]: the lines at the offsets
    that [history_previous] yields, until it yields -1. *)
Fixpoint history_walk (hdr : t_header) (fuel : nat) (tl : t_tokenline) (entry : Z)
  : option (list (list Z)) :=
  match fuel with
  | O => None
  | S f =>
      do e <- history_previous hdr tl entry;
      if e =? -1 then Some []
      else do r <- history_walk hdr f tl e; Some (cstr_at (hist_buf tl) e :: r)
  end.

Lemma history_walk_S hdr f tl entry :
  history_walk hdr (S f) tl entry =
  do e <- history_previous hdr tl entry;
  if e =? -1 then Some []
  else do r <- history_walk hdr f tl e; Some (cstr_at (hist_buf tl) e :: r).
Proof. reflexivity. Qed.

Lemma history_walk_ring hdr tl : forall a rest,
  ring_holds hdr tl (a ++ rest) ->
  history_walk hdr (S (length a)) tl (Z.of_nat (length (ring_bytes a)))
  = Some (rev a).
Proof.
  induction a as [| e a IH] using rev_ind; intros rest Hring.
  - rewrite history_walk_S. unfold history_previous.
    destruct Hring as (-> & _). reflexivity.
  - rewrite <- app_assoc in Hring. cbn [app] in Hring.
    rewrite length_app. cbn [length]. rewrite Nat.add_1_r.
    rewrite history_walk_S.
    rewrite (history_previous_entry hdr tl a e rest Hring). cbn [bind].
    destruct (Z.eqb_spec (Z.of_nat (length (ring_bytes a))) (-1)); [lia |].
    rewrite (IH (e :: rest) Hring). cbn [bind].
    rewrite (ring_entry_cstr hdr tl a e rest Hring), rev_app_distr. reflexivity.
Qed.

(** C8 (as amended): from an empty history, after the submission of lines
    (not empty, of printable bytes, each fitting the line buffer) whose
    sizes, each line with its terminating NUL, add up to less than the
    capacity of the ring, the repeated previous-entry walk from [hist_end]
    yields exactly these lines, the newest first. *)
Theorem history_walk_newest_first hdr strtof (tl : t_tokenline)
    (ls : list (list Z)) :
  escape_len tl = 0 -> line_wf tl -> buf_len tl = 0 ->
  Z.of_nat (length (buf tl)) = TL_MAX_LINE_LEN hdr ->
  ring_holds hdr tl [] ->
  Forall (fun l => l <> [] /\ Forall printable l
                   /\ Z.of_nat (length l) < TL_MAX_LINE_LEN hdr) ls ->
  Z.of_nat (length (ring_bytes ls)) < TL_MAX_HISTORY_SIZE hdr ->
  exists tl', tl_feed hdr strtof tl (submissions ls) = Some (TRUE, tl') /\
    history_walk hdr (S (length ls)) tl' (hist_end tl') = Some (rev ls).
Proof.
  intros He Hwf Hb Hlen Hring Hls Hroom.
  destruct (submit_lines hdr strtof ls [] tl He Hwf Hb Hlen Hring Hls Hroom)
    as (tl' & Hf & _ & _ & _ & _ & Hring').
  exists tl'. split; [exact Hf |]. cbn [app] in Hring'.
  pose proof Hring' as (_ & Hend & _). rewrite Hend.
  apply (history_walk_ring hdr tl' ls []). rewrite app_nil_r. exact Hring'.
Qed.

Lemma history_walk_newest_first_witness :
  escape_len (sample_tl sample_hdr) = 0 /\ line_wf (sample_tl sample_hdr) /\
  buf_len (sample_tl sample_hdr) = 0 /\
  Z.of_nat (length (buf (sample_tl sample_hdr))) = TL_MAX_LINE_LEN sample_hdr /\
  ring_holds sample_hdr (sample_tl sample_hdr) [] /\
  Forall (fun l => l <> [] /\ Forall printable l
                   /\ Z.of_nat (length l) < TL_MAX_LINE_LEN sample_hdr)
    [str "show"; str "set 1"] /\
  Z.of_nat (length (ring_bytes [str "show"; str "set 1"]))
    < TL_MAX_HISTORY_SIZE sample_hdr /\
  exists tl',
    tl_feed sample_hdr no_strtof (sample_tl sample_hdr)
      (submissions [str "show"; str "set 1"]) = Some (TRUE, tl') /\
    history_walk sample_hdr 3 tl' (hist_end tl') = Some [str "set 1"; str "show"].
Proof.
  assert (H1 : escape_len (sample_tl sample_hdr) = 0) by reflexivity.
  assert (H2 : line_wf (sample_tl sample_hdr)) by by_eval.
  assert (H3 : buf_len (sample_tl sample_hdr) = 0) by reflexivity.
  assert (H4 : Z.of_nat (length (buf (sample_tl sample_hdr))) = TL_MAX_LINE_LEN sample_hdr)
    by reflexivity.
  assert (H5 : ring_holds sample_hdr (sample_tl sample_hdr) []) by ring_eval.
  assert (H6 : Forall (fun l => l <> [] /\ Forall printable l
                         /\ Z.of_nat (length l) < TL_MAX_LINE_LEN sample_hdr)
                 [str "show"; str "set 1"]).
  { repeat constructor; try discriminate; unfold printable; lia. }
  assert (H7 : Z.of_nat (length (ring_bytes [str "show"; str "set 1"]))
               < TL_MAX_HISTORY_SIZE sample_hdr) by (vm_compute; reflexivity).
  split; [exact H1 |]. split; [exact H2 |]. split; [exact H3 |]. split; [exact H4 |].
  split; [exact H5 |]. split; [exact H6 |]. split; [exact H7 |].
  exact (history_walk_newest_first sample_hdr no_strtof (sample_tl sample_hdr)
           [str "show"; str "set 1"] H1 H2 H3 H4 H5 H6 H7).
Defined.

(** Two lines of 15 bytes: the commands [show] and [shutdown], padded with
    spaces.  With their terminating NULs they fill a ring of 32 bytes. *)
Definition show_15 : list Z := str "show" ++ repeat 32 11.
Definition shutdown_15 : list Z := str "shutdown" ++ repeat 32 7.

(** C8 as stated fails when the sizes add up to exactly the capacity: in a
    ring of 32 bytes, after the successful submissions of [show_15] and
    [shutdown_15] (the callback was invoked for both), the walk from
    [hist_end] yields the second line only; the first one has been
    evicted. *)
Lemma history_walk_full_ring_counterexample :
  exists tl',
    tl_feed small_hdr no_strtof (sample_tl small_hdr)
      (submissions [show_15; shutdown_15]) = Some (TRUE, tl') /\
    length (called tl') = 2%nat /\
    Z.of_nat (length (ring_bytes [show_15; shutdown_15]))
      = TL_MAX_HISTORY_SIZE small_hdr /\
    history_walk small_hdr 3 tl' (hist_end tl') = Some [shutdown_15] /\
    forall fuel,
      history_walk small_hdr fuel tl' (hist_end tl') <> Some (rev [show_15; shutdown_15]).
Proof.
  eexists. split; [vm_compute; reflexivity |].
  split; [reflexivity |]. split; [reflexivity |]. split; [vm_compute; reflexivity |].
  intros [| [| fuel]]; vm_compute; discriminate.
Qed.

(** ** A submission that does not return *)

(** The command [show] padded with spaces to 26 bytes. *)
Definition show_26 : list Z := str "show" ++ repeat 32 22.

(** The engine with a history ring of 32 bytes after the submissions of
    [show] and [show_26], with the command [history] typed. *)
Definition history_typed : t_tokenline :=
  sample_after small_hdr (submissions [str "show"; show_26] ++ str "history").

(** The offsets the listing of the history runs through. *)
Definition listing_cycle : list Z := 0 :: map Z.of_nat (seq 8 24).

(** C7: a carriage return that does not come back.  In a ring of 32 bytes
    the line [show_26] fills the ring behind [show], which is evicted; the
    line [history] then evicts [show_26], the only entry, and
    [history_delete] answers the old [hist_begin] = 5 although no entry
    is left; [history_add] writes [history] at the offsets 0 to 7, around
    [hist_begin].  The listing of [history_show] starts at offset 0 and
    then walks through the offsets of [listing_cycle], which
    [history_previous] never leaves and which does not hold -1: the loop
    does not end, so the line is not reset and no prompt is printed. *)
Theorem history_command_never_returns :
  exists tl1,
    tl_feed small_hdr no_strtof (sample_tl small_hdr)
      (submissions [str "show"; show_26] ++ str "history")
      = Some (TRUE, history_typed) /\
    escape_len history_typed = 0 /\ line history_typed = str "history" /\
    tl_input small_hdr no_strtof history_typed 13 = None /\
    history_add small_hdr (print NL history_typed) = Some tl1 /\
    hist_begin tl1 = 5 /\ hist_end tl1 = 8 /\
    take 8 (hist_buf tl1) = str "history" ++ [0] /\
    history_previous small_hdr tl1 (hist_end tl1) = Some 0 /\
    (forall e, In e listing_cycle ->
       exists e', history_previous small_hdr tl1 e = Some e' /\ In e' listing_cycle) /\
    ~ In (-1) listing_cycle.
Proof.
  eexists. split; [vm_compute; reflexivity |].
  split; [reflexivity |]. split; [vm_compute; reflexivity |].
  split; [vm_compute; reflexivity |].
  split; [vm_compute; reflexivity |].
  split; [reflexivity |]. split; [reflexivity |]. split; [reflexivity |].
  split; [vm_compute; reflexivity |].
  split.
  - intros e He. unfold listing_cycle in He. cbn [seq map] in He.
    repeat (destruct He as [<- | He];
            [eexists; split; [vm_compute; reflexivity | vm_compute; tauto] |]).
    destruct He.
  - unfold listing_cycle. cbn [seq map In]. intros H.
    repeat (destruct H as [H | H]; [discriminate |]). exact H.
Qed.

(** ** What a submission does whenever it returns *)

(** [hist_frame tl tl']: [tl'] differs from [tl] at most in the history
    ring and its two ends. *)
Definition hist_frame (tl tl' : t_tokenline) : Prop :=
  set_hist_end (hist_end tl) (set_hist_begin (hist_begin tl)
    (set_hist_buf (hist_buf tl) tl')) = tl.

Lemma hist_frame_refl tl : hist_frame tl tl.
Proof. destruct tl; reflexivity. Qed.

Lemma hist_frame_trans a b c : hist_frame a b -> hist_frame b c -> hist_frame a c.
Proof.
  unfold hist_frame. intros Hab Hbc. rewrite <- Hab at 4. rewrite <- Hbc at 1.
  destruct c; reflexivity.
Qed.

Lemma hist_frame_set_hist_buf b tl : hist_frame tl (set_hist_buf b tl).
Proof. destruct tl; reflexivity. Qed.

Lemma hist_frame_set_hist_begin b tl : hist_frame tl (set_hist_begin b tl).
Proof. destruct tl; reflexivity. Qed.

Lemma hist_frame_set_hist_end b tl : hist_frame tl (set_hist_end b tl).
Proof. destruct tl; reflexivity. Qed.

Lemma hist_frame_fields tl tl' :
  hist_frame tl tl' ->
  buf tl' = buf tl /\ buf_len tl' = buf_len tl /\ pos tl' = pos tl /\
  hist_step tl' = hist_step tl /\ escape_len tl' = escape_len tl /\
  called tl' = called tl /\ parsed tl' = parsed tl /\ prompt tl' = prompt tl /\
  callback tl' = callback tl /\ printed tl' = printed tl.
Proof.
  unfold hist_frame. intros H. rewrite <- H. destruct tl'; cbn. repeat split.
Qed.

Lemma history_delete_frame hdr tl entry size i tl' :
  history_delete hdr tl entry size = Some (i, tl') -> hist_frame tl tl'.
Proof.
  unfold history_delete.
  destruct (history_delete_zero _ _ _ _ _ _) as [[hb j] |]; [| discriminate].
  cbn [bind].
  destruct (history_delete_skip _ _ _ _ _) as [k |]; [| discriminate].
  cbn [bind]. intros [= _ <-]. apply hist_frame_set_hist_buf.
Qed.

(** Peels the history setters off the engine on the right. *)
Ltac hframe :=
  repeat first
    [ apply hist_frame_refl
    | eapply hist_frame_trans; [| apply hist_frame_set_hist_buf]
    | eapply hist_frame_trans; [| apply hist_frame_set_hist_begin]
    | eapply hist_frame_trans; [| apply hist_frame_set_hist_end] ].

(** [history_add] changes nothing but the ring and its ends. *)
Lemma history_add_frame hdr tl tl' : history_add hdr tl = Some tl' -> hist_frame tl tl'.
Proof.
  unfold history_add. cbv zeta.
  set (size := strlen (cstr (buf tl)) + 1).
  set (H := TL_MAX_HISTORY_SIZE hdr).
  match goal with
  | |- bind ?m ?k = _ -> _ =>
      assert (Hfirst : forall t, m = Some t -> hist_frame tl t)
  end.
  { intros t.
    destruct (hist_begin tl =? hist_end tl); [intros [= <-]; hframe |].
    destruct (hist_begin tl <? hist_end tl).
    - destruct (H - hist_end tl >=? size); [intros [= <-]; hframe |].
      destruct (history_delete hdr tl (hist_begin tl) (size - (H - hist_end tl)))
        as [[b t1] |] eqn:E; [| discriminate].
      cbn [bind]. intros [= <-].
      pose proof (history_delete_frame _ _ _ _ _ _ E). hframe. assumption.
    - destruct (hist_begin tl - hist_end tl <=? size); [| intros [= <-]; hframe].
      destruct (history_delete hdr tl (hist_begin tl)
                  (size - (hist_begin tl - hist_end tl)))
        as [[b t1] |] eqn:E; [| discriminate].
      cbn [bind].
      pose proof (history_delete_frame _ _ _ _ _ _ E).
      destruct (_ <? size); intros [= <-]; hframe; assumption. }
  match goal with
  | |- bind ?m ?k = _ -> _ => destruct m as [t |] eqn:Em; [| discriminate]
  end.
  specialize (Hfirst t eq_refl). cbn [bind].
  match goal with
  | |- (if ?c then _ else _) = _ -> _ => destruct c
  end.
  - match goal with
    | |- bind (history_delete ?h ?a ?b ?c) _ = _ -> _ =>
        destruct (history_delete h a b c) as [[b' t2] |] eqn:E; [| discriminate]
    end.
    cbn [bind]. intros [= <-].
    pose proof (history_delete_frame _ _ _ _ _ _ E) as Hd.
    eapply hist_frame_trans; [exact Hfirst |].
    eapply hist_frame_trans; [| apply hist_frame_set_hist_begin].
    eapply hist_frame_trans; [| exact Hd].
    destruct (_ >=? H); hframe.
  - intros [= <-]. eapply hist_frame_trans; [exact Hfirst |].
    destruct (_ >=? H); hframe.
Qed.

Lemma history_show_loop_frame hdr : forall fuel tl entry tl',
  history_show_loop hdr fuel tl entry = Some tl' -> parse_frame tl tl'.
Proof.
  induction fuel as [| f IH]; intros tl entry tl'; cbn [history_show_loop];
    [discriminate |].
  destruct (entry =? -1); [intros [= <-]; apply parse_frame_refl |].
  cbv zeta.
  match goal with
  | |- bind (history_previous _ ?t _) _ = _ -> _ =>
      assert (Hf : parse_frame tl t);
      [| destruct (history_previous hdr t entry) as [e |]; [| discriminate];
         cbn [bind]; intros H; eapply parse_frame_trans; [exact Hf | exact (IH _ _ _ H)]]
  end.
  eapply parse_frame_trans; [| apply parse_frame_print].
  destruct (_ =? TL_MAX_HISTORY_SIZE hdr).
  - eapply parse_frame_trans; [| apply parse_frame_print]. apply parse_frame_print.
  - apply parse_frame_print.
Qed.

(** [history_show] only prints. *)
Lemma history_show_frame hdr tl tl' :
  history_show hdr tl = Some tl' -> parse_frame tl tl'.
Proof.
  unfold history_show.
  destruct (history_previous hdr tl (hist_end tl)) as [e |]; [| discriminate].
  cbn [bind]. destruct (history_previous hdr tl e) as [e' |]; [| discriminate].
  cbn [bind]. apply history_show_loop_frame.
Qed.

(** The body of [process_line], whenever it returns: the prompt and the
    size of the line buffer are kept, and the callback is invoked at most
    once, and only behind a [split_line] and a [tokenize] that succeeded. *)
Lemma process_line_body_returns hdr strtof tl tl3 :
  process_line_body hdr strtof tl = Some tl3 ->
  prompt tl3 = prompt tl /\ length (buf tl3) = length (buf tl) /\
  (called tl3 = called tl \/
   (called tl3 = called tl ++ [parsed tl3] /\ callback tl = true /\
    exists tl1 words tl2 tl4 ct arg,
      history_add hdr tl = Some tl1 /\
      split_line hdr tl1 false = (true, words, tl2) /\ words <> [] /\
      tokenize hdr strtof tl2 words (Z.of_nat (length words)) false
        = (true, tl4, ct, arg))).
Proof.
  unfold process_line_body.
  destruct (Z.eqb_spec (buf_len tl) 0);
    [intros [= <-]; split; [reflexivity | split; [reflexivity | left; reflexivity]] |].
  destruct (history_add hdr tl) as [tl1 |] eqn:Eadd; [| discriminate].
  cbn [bind].
  destruct (hist_frame_fields _ _ (history_add_frame _ _ _ Eadd))
    as (A1 & _ & _ & _ & _ & A6 & _ & A8 & A9 & _).
  destruct (split_line_keeps hdr tl1 false) as [Hsf Hsl].
  destruct (line_frame_fields _ _ Hsf) as (_&_&_&_&_&_&B7&_&B9&B10&_).
  destruct (split_line hdr tl1 false) as [[ok words] tl2] eqn:Esplit. cbn [snd] in *.
  assert (Hbase : prompt tl2 = prompt tl /\ length (buf tl2) = length (buf tl)
                  /\ called tl2 = called tl).
  { repeat split; congruence. }
  destruct Hbase as (P2 & L2 & C2).
  destruct ok; cbn [negb];
    [| intros [= <-]; split; [exact P2 | split; [exact L2 | left; exact C2]]].
  destruct (Z.eqb_spec (Z.of_nat (length words)) 0) as [Hw0 | Hw0];
    [intros [= <-]; split; [exact P2 | split; [exact L2 | left; exact C2]] |].
  destruct (strcmp (cstr_at (buf tl2) (nth 0 words 0)) (str "help") =? 0).
  - pose proof (tokenize_frame hdr strtof tl2 words (Z.of_nat (length words)) true) as Ht.
    destruct (tokenize hdr strtof tl2 words (Z.of_nat (length words)) true)
      as [[[ok3 tl4] ct] arg]. cbn [fst snd] in Ht.
    destruct (parse_frame_fields _ _ Ht) as (T1&_&_&_&_&_&_&_&_&T10&T11&_).
    destruct (last_token_entry (parsed tl4)).
    + pose proof (show_help_frame tl4 (Z.of_nat (length words))) as Hh.
      destruct (parse_frame_fields _ _ Hh) as (H1&_&_&_&_&_&_&_&_&H10&H11&_).
      intros [= <-]. split; [congruence |]. split; [congruence | left; congruence].
    + intros [= <-]. split; [congruence |]. split; [congruence | left; congruence].
  - destruct (strcmp (cstr_at (buf tl2) (nth 0 words 0)) (str "history") =? 0).
    + intros Hs. pose proof (history_show_frame _ _ _ Hs) as Hh.
      destruct (parse_frame_fields _ _ Hh) as (H1&_&_&_&_&_&_&_&_&H10&H11&_).
      split; [congruence |]. split; [congruence | left; congruence].
    + pose proof (tokenize_frame hdr strtof tl2 words (Z.of_nat (length words)) false) as Ht.
      destruct (tokenize hdr strtof tl2 words (Z.of_nat (length words)) false)
        as [[[ok3 tl4] ct] arg] eqn:Etok. cbn [fst snd] in Ht.
      destruct (parse_frame_fields _ _ Ht) as (T1&_&_&_&_&_&_&_&_&T10&T11&T12&_).
      destruct ok3; cbn [negb];
        [| intros [= <-]; split; [congruence |]; split; [congruence | left; congruence]].
      destruct (callback tl4) eqn:Ecb;
        [| intros [= <-]; split; [congruence |]; split; [congruence | left; congruence]].
      intros [= <-]. cbn [prompt buf called parsed set_called].
      split; [congruence |]. split; [congruence |]. right.
      split; [congruence |]. split; [congruence |].
      exists tl1, words, tl2, tl4, ct, arg.
      split; [first [exact Eadd | reflexivity] |].
      split; [first [exact Esplit | reflexivity] |].
      split; [| exact Etok]. intros ->. cbn in Hw0. lia.
Qed.



(** ** The line buffer stays in bounds *)

(** The invariant of the line buffer: cursor and length are inside the
    buffer of [TL_MAX_LINE_LEN] bytes, with room for the terminating NUL,
    which is in place. *)
Definition line_inv (hdr : t_header) (tl : t_tokenline) : Prop :=
  line_wf tl /\ Z.of_nat (length (buf tl)) = TL_MAX_LINE_LEN hdr.

Lemma line_inv_same hdr tl tl' :
  buf tl' = buf tl -> buf_len tl' = buf_len tl -> pos tl' = pos tl ->
  line_inv hdr tl -> line_inv hdr tl'.
Proof. unfold line_inv, line_wf, line_ok. intros -> -> ->. auto. Qed.

Lemma line_inv_cursor hdr tl tl' :
  buf tl' = buf tl -> buf_len tl' = buf_len tl -> 0 <= pos tl' <= buf_len tl ->
  line_inv hdr tl -> line_inv hdr tl'.
Proof.
  unfold line_inv, line_wf, line_ok. intros -> -> Hp [[[? ?] ?] ?].
  repeat split; assumption || lia.
Qed.

Lemma backspace_inv hdr tl : line_inv hdr tl -> 0 < pos tl -> line_inv hdr (backspace tl).
Proof.
  intros [Hwf Hlen] Hp. split; [apply backspace_wf; assumption |].
  destruct (backspace_terminated tl Hwf Hp) as [_ ->]. exact Hlen.
Qed.

Lemma add_char_inv hdr tl c :
  line_inv hdr tl -> buf_len tl + 1 < TL_MAX_LINE_LEN hdr -> line_inv hdr (add_char tl c).
Proof.
  intros [Hwf Hlen] Hr. split; [apply add_char_wf; [assumption | lia] |].
  destruct (add_char_inserts tl c Hwf ltac:(lia)) as (_ & _ & _ & _ & ->). exact Hlen.
Qed.

Lemma kill_while_inv hdr p : forall n tl,
  line_inv hdr tl -> line_inv hdr (kill_while p n tl).
Proof.
  induction n as [| n IH]; intros tl Hi; cbn [kill_while]; [exact Hi |].
  destruct (Z.eqb_spec (pos tl) 0); cbn [negb andb]; [exact Hi |].
  destruct (p (load (buf tl) (pos tl - 1))); [| exact Hi].
  apply IH, backspace_inv; [exact Hi |]. destruct Hi as [[[? ?] ?] ?]. lia.
Qed.

Lemma backspace_loop_inv hdr : forall n tl,
  line_inv hdr tl -> line_inv hdr (backspace_loop n tl).
Proof.
  induction n as [| n IH]; intros tl Hi; cbn [backspace_loop]; [exact Hi |].
  destruct (Z.eqb_spec (pos tl) 0); [exact Hi |].
  apply IH, backspace_inv; [exact Hi |]. destruct Hi as [[[? ?] ?] ?]. lia.
Qed.

Lemma cursor_end_inv hdr tl : line_inv hdr tl -> line_inv hdr (cursor_end tl).
Proof.
  intros Hi. pose proof Hi as [[[Hp Hl] Hz] Hlen].
  destruct (cursor_end_fields tl ltac:(lia)) as (H1 & H2 & H3 & _).
  apply (line_inv_cursor hdr tl); [assumption | assumption | lia | exact Hi].
Qed.

Lemma cursor_home_inv hdr tl : line_inv hdr tl -> line_inv hdr (cursor_home tl).
Proof.
  intros Hi. pose proof Hi as [[[Hp Hl] Hz] Hlen]. unfold cursor_home.
  destruct (cursor_home_loop_fields _ tl eq_refl ltac:(lia)) as (H1 & H2 & H3 & _).
  apply (line_inv_cursor hdr tl); [assumption | assumption | lia | exact Hi].
Qed.

Lemma delete_line_inv hdr tl :
  line_inv hdr tl ->
  line_inv hdr (delete_line tl) /\ pos (delete_line tl) = 0 /\ buf_len (delete_line tl) = 0.
Proof.
  intros Hi. pose proof Hi as [[Hok _] _].
  destruct (delete_line_empties tl Hok) as (H1 & H2 & _).
  split; [| split; assumption].
  unfold delete_line. apply backspace_loop_inv, cursor_end_inv, Hi.
Qed.

(** [set_line] on an emptied line, whatever the string: one that does not
    fit is replaced by an exclamation mark. *)
Lemma set_line_inv hdr tl l :
  2 <= TL_MAX_LINE_LEN hdr ->
  line_inv hdr tl -> buf_len tl = 0 -> pos tl = 0 ->
  line_inv hdr (set_line hdr tl l).
Proof.
  intros Hm Hi Hb Hp. pose proof Hi as [Hwf Hlen].
  destruct (Z.le_gt_cases (strlen l) (TL_MAX_LINE_LEN hdr - 1)) as [Hs | Hs].
  - destruct (set_line_fills hdr tl l Hb Hp ltac:(lia) Hlen) as (_ & S2 & S3 & S4 & S5 & _).
    unfold line_inv, line_wf, line_ok. rewrite S2, S3, S5. unfold strlen in *.
    repeat split; first [lia | exact S4].
  - unfold set_line. destruct (Z.gtb_spec (strlen l) (TL_MAX_LINE_LEN hdr - 1)); [| lia].
    apply add_char_inv; [exact Hi | lia].
Qed.

Lemma history_up_inv hdr tl tl' :
  2 <= TL_MAX_LINE_LEN hdr -> line_inv hdr tl ->
  history_up hdr tl = Some tl' -> line_inv hdr tl'.
Proof.
  intros Hm Hi. unfold history_up.
  destruct (if hist_step tl =? -1 then _ else _) as [entry |]; [| discriminate].
  cbn [bind]. destruct (entry =? -1); [intros [= <-]; exact Hi |].
  intros [= <-]. destruct (delete_line_inv hdr tl Hi) as (Hd & Hp & Hb).
  apply (line_inv_same hdr (set_line hdr (delete_line tl)
                              (cstr_at (hist_buf (delete_line tl)) entry)));
    try reflexivity.
  apply set_line_inv; assumption.
Qed.

Lemma history_down_inv hdr tl tl' :
  2 <= TL_MAX_LINE_LEN hdr -> line_inv hdr tl ->
  history_down hdr tl = Some tl' -> line_inv hdr tl'.
Proof.
  intros Hm Hi. unfold history_down.
  destruct (hist_step tl =? -1); [intros [= <-]; exact Hi |].
  destruct (delete_line_inv hdr tl Hi) as (Hd & Hp & Hb).
  cbv zeta. destruct (hist_step (delete_line tl) =? hist_end (delete_line tl)).
  - intros [= <-]. apply (line_inv_same hdr (delete_line tl)); try reflexivity. exact Hd.
  - destruct (history_down_loop _ _ _ _) as [i |]; [| discriminate].
    cbn [bind]. intros [= <-].
    apply (line_inv_same hdr (set_line hdr (delete_line tl)
                                (cstr_at (hist_buf (delete_line tl)) (hist_inc hdr i))));
      try reflexivity.
    apply set_line_inv; assumption.
Qed.

(** The delete key inside the line. *)
Lemma delete_at_inv hdr tl t :
  line_inv hdr tl -> pos tl < buf_len tl ->
  buf t = memcpy (buf tl) (pos tl)
            (bytes_at (buf tl) (pos tl + 1) (buf_len tl - pos tl)) ->
  buf_len t = buf_len tl - 1 -> pos t = pos tl ->
  line_inv hdr t.
Proof.
  intros [[[Hp Hl] Hz] Hlen] Hlt Hb Hbl Hps.
  unfold line_inv, line_wf, line_ok. rewrite Hb, Hbl, Hps, length_memcpy.
  repeat split; try lia.
  loads. tests; try same_load. rewrite <- Hz. f_equal. lia.
Qed.

Lemma process_escape_inv hdr tl ok tl' :
  2 <= TL_MAX_LINE_LEN hdr -> line_inv hdr tl ->
  process_escape hdr tl = Some (ok, tl') -> line_inv hdr tl'.
Proof.
  intros Hm Hi. pose proof Hi as [[[Hp Hl] Hz] Hlen]. unfold process_escape.
  destruct (escape_len tl =? 4).
  { destruct (escape_is tl [27; 91; 51; 126] 4); [| intros [= _ <-]; exact Hi].
    destruct (Z.ltb_spec (pos tl) (buf_len tl)); [| intros [= _ <-]; exact Hi].
    intros [= _ <-]. apply (delete_at_inv hdr tl); [exact Hi | assumption | | |].
    - cbn [buf set_buf_len]. rewrite buf_print_n. reflexivity.
    - cbn [buf_len set_buf_len]. rewrite buf_len_print_n. reflexivity.
    - cbn [pos set_buf_len]. rewrite pos_print_n. reflexivity. }
  destruct (escape_len tl =? 3); [| intros [= _ <-]; exact Hi].
  destruct (escape_is tl [27; 91; 65] 3).
  { destruct (history_up hdr tl) as [t |] eqn:E; [| discriminate].
    intros [= _ <-]. exact (history_up_inv hdr tl t Hm Hi E). }
  destruct (escape_is tl [27; 91; 66] 3).
  { destruct (history_down hdr tl) as [t |] eqn:E; [| discriminate].
    intros [= _ <-]. exact (history_down_inv hdr tl t Hm Hi E). }
  destruct (escape_is tl [27; 91; 68] 3).
  { destruct (Z.gtb_spec (pos tl) 0); intros [= _ <-]; [| exact Hi].
    apply (line_inv_cursor hdr tl); [reflexivity | reflexivity | cbn; lia | exact Hi]. }
  destruct (escape_is tl [27; 91; 67] 3).
  { destruct (Z.ltb_spec (pos tl) (buf_len tl)); intros [= _ <-]; [| exact Hi].
    apply (line_inv_cursor hdr tl); [reflexivity | reflexivity | cbn; lia | exact Hi]. }
  destruct (escape_is tl [27; 79; 72] 3);
    [intros [= _ <-]; apply cursor_home_inv, Hi |].
  destruct (escape_is tl [27; 79; 70] 3);
    [intros [= _ <-]; apply cursor_end_inv, Hi |].
  intros [= _ <-]. exact Hi.
Qed.

Lemma process_line_inv hdr strtof tl tl' :
  0 < TL_MAX_LINE_LEN hdr -> Z.of_nat (length (buf tl)) = TL_MAX_LINE_LEN hdr ->
  process_line hdr strtof tl = Some tl' -> line_inv hdr tl'.
Proof.
  intros Hm Hlen. unfold process_line.
  destruct (process_line_body hdr strtof (print NL tl)) as [tl3 |] eqn:Eb;
    [| discriminate].
  cbn [bind]. intros [= <-].
  destruct (process_line_body_returns _ _ _ _ Eb) as (_ & L & _).
  change (buf (print NL tl)) with (buf tl) in L.
  unfold line_inv, line_wf, line_ok.
  change (pos (process_line_reset tl3)) with 0.
  change (buf_len (process_line_reset tl3)) with 0.
  change (buf (process_line_reset tl3)) with (store (buf tl3) 0 0).
  rewrite length_store, L. repeat split; try lia.
  apply load_store_eq. lia.
Qed.

(** Ctrl-K keeps the invariant. *)
Lemma kill_to_end_inv hdr tl t :
  line_inv hdr tl ->
  buf t = store (buf tl) (pos tl) 0 -> buf_len t = pos tl -> pos t = pos tl ->
  line_inv hdr t.
Proof.
  intros [[[Hp Hl] Hz] Hlen] Hb Hbl Hps. unfold line_inv, line_wf, line_ok.
  rewrite Hb, Hbl, Hps, length_store.
  repeat split; try lia. apply load_store_eq. lia.
Qed.

(** Every key but TAB keeps the line buffer within its bounds: whenever
    [tl_input] returns, the invariant of the line buffer holds again. *)
Lemma tl_input_inv hdr strtof tl c r tl' :
  2 <= TL_MAX_LINE_LEN hdr -> line_inv hdr tl ->
  (escape_len tl = 0 -> c <> 9) ->
  tl_input hdr strtof tl c = Some (r, tl') -> line_inv hdr tl'.
Proof.
  intros Hm Hi Hc. pose proof Hi as [[[Hp Hl] Hz] Hlen]. unfold tl_input.
  destruct (Z.eqb_spec (escape_len tl) 0) as [He | He]; cbn [negb].
  2: { destruct (process_escape hdr _) as [[ok t] |] eqn:E; [| discriminate].
       cbn [bind].
       assert (Ht : line_inv hdr t).
       { eapply (process_escape_inv hdr); [exact Hm | | exact E].
         apply (line_inv_same hdr tl); try reflexivity. exact Hi. }
       destruct ok; [intros [= _ <-]; exact Ht |].
       destruct (_ =? TL_MAX_ESCAPE_LEN hdr); intros [= _ <-]; exact Ht. }
  specialize (Hc He).
  destruct (c =? 27); [intros [= _ <-]; exact Hi |].
  destruct ((c =? 13) || (c =? 10)).
  { destruct (process_line hdr strtof tl) as [t |] eqn:E; [| discriminate].
    cbn [bind]. intros [= _ <-].
    exact (process_line_inv hdr strtof tl t ltac:(lia) Hlen E). }
  destruct (Z.eqb_spec c 9); [contradiction |].
  destruct (c =? 127).
  { destruct (Z.eqb_spec (pos tl) 0); cbn [negb]; intros [= _ <-]; [exact Hi |].
    apply backspace_inv; [exact Hi | lia]. }
  destruct (c =? 1); [intros [= _ <-]; apply cursor_home_inv, Hi |].
  destruct (c =? 3).
  { cbv zeta.
    match goal with
    | |- bind (process_line _ _ ?t) _ = _ -> _ =>
        destruct (process_line hdr strtof t) as [t' |] eqn:E; [| discriminate];
        cbn [bind]; intros [= _ <-];
        exact (process_line_inv hdr strtof t t' ltac:(lia) Hlen E)
    end. }
  destruct (c =? 5); [intros [= _ <-]; apply cursor_end_inv, Hi |].
  destruct (c =? 11).
  { destruct (buf_len tl >? pos tl); intros [= _ <-]; [| exact Hi].
    apply (kill_to_end_inv hdr tl); [exact Hi | | |]; cbv zeta;
      repeat (cbn [buf buf_len pos set_buf set_buf_len];
              rewrite ?buf_print_n, ?pos_print_n, ?buf_len_print_n);
      reflexivity. }
  destruct (c =? 12); [intros [= _ <-]; exact Hi |].
  destruct (c =? 16).
  { destruct (history_up hdr tl) as [t |] eqn:E; [| discriminate].
    cbn [bind]. intros [= _ <-]. exact (history_up_inv hdr tl t Hm Hi E). }
  destruct (c =? 14).
  { destruct (history_down hdr tl) as [t |] eqn:E; [| discriminate].
    cbn [bind]. intros [= _ <-]. exact (history_down_inv hdr tl t Hm Hi E). }
  destruct (c =? 23).
  { intros [= _ <-]. cbv zeta. rewrite kill_word_loop_while, kill_spaces_loop_while.
    apply kill_while_inv, kill_while_inv, Hi. }
  destruct (c =? 4); [destruct (buf_len tl =? 0); intros [= _ <-]; exact Hi |].
  destruct ((c >=? 32) && (c <=? 126)); [| intros [= _ <-]; exact Hi].
  intros [= _ <-].
  destruct (Z.ltb_spec (buf_len tl) (TL_MAX_LINE_LEN hdr - 1)); [| exact Hi].
  apply (line_inv_same hdr (add_char tl c)); try reflexivity.
  apply add_char_inv; [exact Hi | lia].
Qed.

Lemma tl_init_inv hdr toks dict :
  0 < TL_MAX_LINE_LEN hdr -> line_inv hdr (tl_init hdr toks dict).
Proof.
  intros Hm. unfold line_inv, line_wf, line_ok, tl_init.
  cbn [buf buf_len pos]. rewrite repeat_length.
  repeat split; try lia. apply load_repeat.
Qed.

(** No sequence of keys without TAB takes the line out of its buffer:
    after [tl_init], and after every further byte other than TAB that the
    engine has processed, cursor and length are inside the buffer of
    [TL_MAX_LINE_LEN] bytes and the line is NUL-terminated. *)
Theorem line_in_bounds_without_tab hdr strtof :
  2 <= TL_MAX_LINE_LEN hdr ->
  (forall toks dict, line_inv hdr (tl_init hdr toks dict)) /\
  (forall p tl, line_inv hdr tl ->
     line_inv hdr (tl_set_prompt tl p) /\ line_inv hdr (tl_set_callback tl)) /\
  (forall cs tl r tl',
     line_inv hdr tl -> ~ In 9 cs ->
     tl_feed hdr strtof tl cs = Some (r, tl') -> line_inv hdr tl').
Proof.
  intros Hm. split; [intros; apply tl_init_inv; lia |].
  split; [intros p tl Hi; split; exact Hi |].
  induction cs as [| c cs IH]; intros tl r tl' Hi Hn.
  - intros [= _ <-]. exact Hi.
  - assert (Hc : c <> 9) by (intros ->; apply Hn; left; reflexivity).
    assert (Hn' : ~ In 9 cs) by (intros H; apply Hn; right; exact H).
    destruct cs as [| c' cs'].
    + cbn [tl_feed]. apply (tl_input_inv hdr strtof tl c r tl' Hm Hi). intros _. exact Hc.
    + change (tl_feed hdr strtof tl (c :: c' :: cs'))
        with (do x <- tl_input hdr strtof tl c; tl_feed hdr strtof (snd x) (c' :: cs')).
      destruct (tl_input hdr strtof tl c) as [[r1 t1] |] eqn:E; [| discriminate].
      cbn [bind snd]. apply IH; [| exact Hn'].
      apply (tl_input_inv hdr strtof tl c r1 t1 Hm Hi); [intros _; exact Hc | exact E].
Qed.

Lemma line_in_bounds_without_tab_witness :
  2 <= TL_MAX_LINE_LEN sample_hdr /\
  line_inv sample_hdr (sample_tl sample_hdr) /\
  ~ In 9 (str "ab cd" ++ [13; 16; 23]) /\
  exists r tl',
    tl_feed sample_hdr no_strtof (sample_tl sample_hdr) (str "ab cd" ++ [13; 16; 23])
      = Some (r, tl') /\
    line_inv sample_hdr tl'.
Proof.
  assert (H1 : 2 <= TL_MAX_LINE_LEN sample_hdr) by (vm_compute; discriminate).
  destruct (line_in_bounds_without_tab sample_hdr no_strtof H1) as (Hinit & Hset & Hfeed).
  assert (H2 : line_inv sample_hdr (sample_tl sample_hdr)).
  { unfold sample_tl.
    exact (proj2 (Hset [] _ (proj1 (Hset (str "> ") _ (Hinit sample_tokens sample_dict))))). }
  assert (H3 : ~ In 9 (str "ab cd" ++ [13; 16; 23])).
  { intros H. vm_compute in H.
    repeat (destruct H as [H | H]; [discriminate |]). exact H. }
  split; [exact H1 |]. split; [exact H2 |]. split; [exact H3 |].
  pose (x := tl_feed sample_hdr no_strtof (sample_tl sample_hdr)
               (str "ab cd" ++ [13; 16; 23])).
  assert (E : tl_feed sample_hdr no_strtof (sample_tl sample_hdr)
                (str "ab cd" ++ [13; 16; 23])
              = Some (TRUE, sample_after sample_hdr (str "ab cd" ++ [13; 16; 23])))
    by (vm_compute; reflexivity).
  exists TRUE, (sample_after sample_hdr (str "ab cd" ++ [13; 16; 23])).
  split; [exact E |].
  exact (Hfeed _ _ _ _ H2 H3 E).
Defined.

(** ** TAB on an empty line *)

Lemma set_printed_twice p q t : set_printed p (set_printed q t) = set_printed p t.
Proof. destruct t; reflexivity. Qed.

Lemma set_printed_same tl : set_printed (printed tl) tl = tl.
Proof. destruct tl; reflexivity. Qed.

Lemma set_printed_fields p t tl :
  set_printed p t = tl ->
  buf t = buf tl /\ buf_len t = buf_len tl /\ prompt t = prompt tl.
Proof. intros <-. destruct t; cbn. repeat split. Qed.

Lemma set_printed_buf p b t : set_printed p (set_buf b t) = set_buf b (set_printed p t).
Proof. destruct t; reflexivity. Qed.

(** The loop that lists a token list prints, for every entry before the
    sentinel, the indentation, the display string and a newline. *)
Lemma complete_list_loop_prints (l : list t_token) : forall tl,
  printed (complete_list_loop l tl)
    = printed tl
      ++ concat (map (fun e => [INDENT; display (token_dict tl) e; NL]) (entries l)) /\
  set_printed (printed tl) (complete_list_loop l tl) = tl.
Proof.
  induction l as [| e r IH]; intros tl; cbn [complete_list_loop entries].
  - cbn [map concat]. rewrite app_nil_r. split; [reflexivity | destruct tl; reflexivity].
  - destruct (token e =? 0).
    + cbn [map concat]. rewrite app_nil_r. split; [reflexivity | destruct tl; reflexivity].
    + destruct (IH (print NL (print (dict_str (token_dict tl) (token e)) (print INDENT tl))))
        as [H1 H2].
      split.
      * rewrite H1. cbn [map concat print printed set_printed token_dict app].
        unfold display. rewrite <- !app_assoc. reflexivity.
      * rewrite <- (set_printed_twice (printed tl)
                      (printed (print NL (print (dict_str (token_dict tl) (token e))
                                            (print INDENT tl))))), H2.
        destruct tl; reflexivity.
Qed.

Lemma cstr_at_store_nul m : cstr_at (store m 0 0) 0 = [].
Proof. destruct m; reflexivity. Qed.

(** TAB on an empty line lists the top-level commands: a newline, then for
    every entry of the first token level the indentation, its display
    string and a newline, then the prompt and the (empty) line.  The line
    stays empty; nothing changes but the print log and the byte [buf[0]],
    which is set to NUL. *)
Theorem tab_on_empty_line_lists_commands hdr strtof (tl : t_tokenline) :
  escape_len tl = 0 -> buf_len tl = 0 -> pos tl = 0 ->
  exists tl', tl_input hdr strtof tl 9 = Some (TRUE, tl') /\
    printed tl' =
      printed tl ++ [NL]
      ++ concat (map (fun e => [INDENT; display (token_dict tl) e; NL])
                   (entries (default [] (token_levels tl !! 0%nat))))
      ++ [prompt tl; []] /\
    buf tl' = store (buf tl) 0 0 /\
    set_printed (printed tl) (set_buf (buf tl) tl') = tl.
Proof.
  intros He Hb Hp. unfold tl_input. rewrite He, Hb, Hp. cbn [Z.eqb Pos.eqb negb orb].
  eexists. split; [reflexivity |].
  unfold complete. rewrite Hp. cbn [Z.eqb]. cbv zeta.
  change (token_levels (print NL tl)) with (token_levels tl).
  destruct (complete_list_loop_prints (default [] (token_levels tl !! 0%nat)) (print NL tl))
    as [H1 H2].
  remember (complete_list_loop (default [] (token_levels tl !! 0%nat)) (print NL tl))
    as tl1 eqn:E1. clear E1.
  assert (Hf : set_printed (printed tl) tl1 = tl).
  { rewrite <- (set_printed_twice (printed tl) (printed (print NL tl)) tl1), H2.
    destruct tl; reflexivity. }
  destruct (set_printed_fields _ _ _ Hf) as (Hbuf & Hbl & Hpr).
  unfold complete_finish, unsplit_line. rewrite Hbl, Hb. cbn [Z.to_nat unsplit_loop].
  cbn [prompt buf printed print set_printed set_buf]. rewrite Hbuf, Hpr, cstr_at_store_nul.
  split.
  { rewrite H1. cbn [printed print set_printed token_dict].
    rewrite <- !app_assoc. reflexivity. }
  split; [reflexivity |].
  clear H1 H2 Hbuf Hbl Hpr He Hb Hp. destruct tl1, tl. cbn in Hf |- *.
  injection Hf as -> -> -> -> -> -> -> -> -> -> -> -> -> -> -> ->. reflexivity.
Qed.

Lemma tab_on_empty_line_lists_commands_witness :
  escape_len (sample_tl sample_hdr) = 0 /\ buf_len (sample_tl sample_hdr) = 0 /\
  pos (sample_tl sample_hdr) = 0 /\
  exists tl', tl_input sample_hdr no_strtof (sample_tl sample_hdr) 9 = Some (TRUE, tl') /\
    printed tl' =
      printed (sample_tl sample_hdr) ++ [NL]
      ++ [INDENT; str "show"; NL; INDENT; str "shutdown"; NL; INDENT; str "set"; NL]
      ++ [str "> "; []] /\
    buf tl' = store (buf (sample_tl sample_hdr)) 0 0 /\
    set_printed (printed (sample_tl sample_hdr))
      (set_buf (buf (sample_tl sample_hdr)) tl') = sample_tl sample_hdr.
Proof.
  split; [reflexivity |]. split; [reflexivity |]. split; [reflexivity |].
  exact (tab_on_empty_line_lists_commands sample_hdr no_strtof (sample_tl sample_hdr)
           eq_refl eq_refl eq_refl).
Defined.
